(** * Netherite form filler: field scanner, answer matcher and field writer

    A shallow embedding of [src/content/FormFieldDetector.ts] and
    [src/content/FieldInjector.ts], with the properties the specification
    states about them.

    Layout:
    - [JS]       the string built-ins and regular expressions the code uses;
    - [Num]      the numbers the number writer handles;
    - [Dom]      the page document and the browser operations on it;
    - [Host]     what the browser and the engine decide on their own;
    - [Eff]      a state-and-exception monad for the effectful code;
    - [Detector] the class [FormFieldDetector];
    - [JSDate]   the date part of [toISOString];
    - [Injector] the class [FieldInjector], the timers included;
    - [Example], [Pages]  a host and pages to run the code on;
    - [MatcherSpec], [ScanSpec], [WriteSpec], [BatchSpec]  what the
      statements speak of;
    - [Shape], [FrameSpec], [QueueSpec], [CatalogSpec]  what the further
      statements speak of;
    - the theorems, then further properties of the code.

    Strings are Rocq strings; every character stands for the UTF-16 code unit
    of the same number, so the model covers the strings over U+0000..U+00FF. *)

From Stdlib Require Import ZArith QArith List String Ascii Bool Lia Lqa DecimalString.
From stdpp Require Import base list strings gmap.

Local Open Scope string_scope.
Local Open Scope list_scope.

(* ===================================================================== *)
(** * JavaScript strings                                                  *)
(* ===================================================================== *)

Module JS.

Definition code (c : ascii) : N := N_of_ascii c.

(** The double quote, and a text between two of them. *)
Definition quote : ascii := ascii_of_N 34.
Definition quoted (s : string) : string := String quote (s +:+ String quote EmptyString).

Definition between (lo hi : N) (c : ascii) : bool :=
  (N.leb lo (code c) && N.leb (code c) hi)%bool.

(** [\s] in a regular expression, and what [trim] removes: TAB, LF, VT,
    FF, CR, SPACE and NO-BREAK SPACE. *)
Definition isSpace (c : ascii) : bool :=
  (between 9 13 c || N.eqb (code c) 32 || N.eqb (code c) 160)%bool.

(** [\d] *)
Definition isDigit (c : ascii) : bool := between 48 57 c.
(** [[a-z]] *)
Definition isLower (c : ascii) : bool := between 97 122 c.
(** [[A-Z]] *)
Definition isUpper (c : ascii) : bool := between 65 90 c.
(** [\w], the characters between which [\b] finds no boundary *)
Definition isWord (c : ascii) : bool :=
  (isLower c || isUpper c || isDigit c || N.eqb (code c) 95)%bool.

(** [String.prototype.toLowerCase] on one code unit: A-Z, and the
    capital letters of U+00C0..U+00DE but the multiplication sign. *)
Definition toLowerChar (c : ascii) : ascii :=
  if (isUpper c || (between 192 222 c && negb (N.eqb (code c) 215)))%bool
  then ascii_of_N (code c + 32) else c.

(** [toUpperCase] on one code unit.  The three letters whose capital lies
    outside U+0000..U+00FF (micro sign, sharp s, y with diaeresis) are
    left as they are. *)
Definition toUpperChar (c : ascii) : ascii :=
  if (isLower c || (between 224 254 c && negb (N.eqb (code c) 247)))%bool
  then ascii_of_N (code c - 32) else c.

Fixpoint toLowerCase (s : string) : string :=
  match s with
  | EmptyString => EmptyString
  | String c r => String (toLowerChar c) (toLowerCase r)
  end.

Fixpoint trimStart (s : string) : string :=
  match s with
  | EmptyString => EmptyString
  | String c r => if isSpace c then trimStart r else s
  end.

Fixpoint trimEnd (s : string) : string :=
  match s with
  | EmptyString => EmptyString
  | String c r =>
      match trimEnd r with
      | EmptyString => if isSpace c then EmptyString else String c EmptyString
      | r' => String c r'
      end
  end.

Definition trim (s : string) : string := trimEnd (trimStart s).

(** [s.includes(sub)] *)
Fixpoint includes (s sub : string) : bool :=
  (String.prefix sub s ||
   match s with
   | EmptyString => false
   | String _ r => includes r sub
   end)%bool.

(** [s.split(sep)] for a separator of one character *)
Fixpoint split (sep : ascii) (s : string) : list string :=
  match s with
  | EmptyString => [EmptyString]
  | String c r =>
      if Ascii.eqb c sep then EmptyString :: split sep r
      else match split sep r with
           | w :: ws => String c w :: ws
           | [] => [String c EmptyString]
           end
  end.

(** [s.split(/\s+/)] *)
Fixpoint splitWs (inRun : bool) (s : string) : list string :=
  match s with
  | EmptyString => [EmptyString]
  | String c r =>
      if isSpace c then
        if inRun then splitWs true r else EmptyString :: splitWs true r
      else match splitWs false r with
           | w :: ws => String c w :: ws
           | [] => [String c EmptyString]
           end
  end.

(** [s.substring(0, n)] *)
Definition substring0 (n : nat) (s : string) : string := String.substring 0 n s.

Fixpoint filterChars (keep : ascii -> bool) (s : string) : string :=
  match s with
  | EmptyString => EmptyString
  | String c r => if keep c then String c (filterChars keep r) else filterChars keep r
  end.

Fixpoint mapChars (f : ascii -> ascii) (s : string) : string :=
  match s with
  | EmptyString => EmptyString
  | String c r => String (f c) (mapChars f r)
  end.

(** [s.replace(/[^a-z0-9\s]/g, '')] *)
Definition stripNonAlnum (s : string) : string :=
  filterChars (fun c => (isLower c || isDigit c || isSpace c)%bool) s.

(** [s.replace(/\s+/g, ' ')]: [inRun] tells that the previous character
    was white space, already replaced. *)
Fixpoint collapseFrom (inRun : bool) (s : string) : string :=
  match s with
  | EmptyString => EmptyString
  | String c r =>
      if isSpace c then
        if inRun then collapseFrom true r else String " " (collapseFrom true r)
      else String c (collapseFrom false r)
  end.

Definition collapseSpaces (s : string) : string := collapseFrom false s.

(** [s.replace(/[*:]+$/, '')] *)
Fixpoint stripTrailingMarks (s : string) : string :=
  match s with
  | EmptyString => EmptyString
  | String c r =>
      match stripTrailingMarks r with
      | EmptyString =>
          if (Ascii.eqb c "*" || Ascii.eqb c ":")%bool then EmptyString
          else String c EmptyString
      | r' => String c r'
      end
  end.

(** [s.replace(/[_-]/g, ' ')] *)
Definition dashesToSpaces (s : string) : string :=
  mapChars (fun c => if (Ascii.eqb c "_" || Ascii.eqb c "-")%bool then " "%char else c) s.

(** [s.replace(/([a-z])([A-Z])/g, '$1 $2')] *)
Fixpoint splitCamel (s : string) : string :=
  match s with
  | EmptyString => EmptyString
  | String c r =>
      match r with
      | String d _ =>
          if (isLower c && isUpper d)%bool then String c (String " " (splitCamel r))
          else String c (splitCamel r)
      | EmptyString => String c EmptyString
      end
  end.

(** [.] in a regular expression matches all but the line terminators. *)
Definition isLineTerminator (c : ascii) : bool :=
  (N.eqb (code c) 10 || N.eqb (code c) 13)%bool.

(** [s.replace(/^./, char => char.toUpperCase())] *)
Definition capitalizeFirst (s : string) : string :=
  match s with
  | EmptyString => EmptyString
  | String c r => if isLineTerminator c then s else String (toUpperChar c) r
  end.

Fixpoint dropChars (n : nat) (s : string) : string :=
  match n, s with
  | O, _ => s
  | S n', String _ r => dropChars n' r
  | S _, EmptyString => EmptyString
  end.

(** Case-insensitive match of the lower-case word [w] at the head of [s]
    (the [i] flag on ASCII letters). *)
Definition prefixCI (w s : string) : bool :=
  String.prefix w (toLowerCase (substring0 (String.length w) s)).

(** The character at the head of [s] is a word character. *)
Definition headIsWord (s : string) : bool :=
  match s with
  | EmptyString => false
  | String c _ => isWord c
  end.

(** One attempt of [/\b(w1|w2|...)\b/i] at the head of [s], the character
    before it being a word character or not: the length of the first
    alternative that matches between two word boundaries. *)
Fixpoint matchWordAt (words : list string) (prevIsWord : bool) (s : string)
  : option nat :=
  match words with
  | [] => None
  | w :: ws =>
      if (negb prevIsWord && prefixCI w s
          && negb (headIsWord (dropChars (String.length w) s)))%bool
      then Some (String.length w)
      else matchWordAt ws prevIsWord s
  end.

(** [s.replace(/\b(w1|w2|...)\b/gi, '')], scanning from the left; [skip]
    counts the characters of the current match still to be removed. *)
Fixpoint removeWordsFrom (words : list string) (skip : nat) (prevIsWord : bool)
         (s : string) : string :=
  match s with
  | EmptyString => EmptyString
  | String c r =>
      match skip with
      | S k => removeWordsFrom words k (isWord c) r
      | O =>
          match matchWordAt words prevIsWord s with
          | Some (S k) => removeWordsFrom words k (isWord c) r
          | _ => String c (removeWordsFrom words 0 (isWord c) r)
          end
      end
  end.

Definition removeWords (words : list string) (s : string) : string :=
  removeWordsFrom words 0 false s.

(** The longest run of digits at the head of [s], and what follows it. *)
Fixpoint spanDigits (s : string) : string * string :=
  match s with
  | EmptyString => (EmptyString, EmptyString)
  | String c r =>
      if isDigit c then let '(d, rest) := spanDigits r in (String c d, rest)
      else (EmptyString, s)
  end.

(** The group [(\.\d+)?] at the head of [s]: the digits behind the point,
    when a point and a digit are there. *)
Definition fractionAt (s : string) : option string :=
  match s with
  | String c r =>
      if Ascii.eqb c "." then
        match spanDigits r with
        | (EmptyString, _) => None
        | (fs, _) => Some fs
        end
      else None
  | EmptyString => None
  end.

(** [s.match(/\d+(\.\d+)?/)]: the text of the first match, [match[0]]. *)
Fixpoint matchNumber (s : string) : option string :=
  match s with
  | EmptyString => None
  | String c r =>
      if isDigit c then
        let '(ds, rest) := spanDigits s in
        match fractionAt rest with
        | Some fs => Some (ds +:+ "." +:+ fs)
        | None => Some ds
        end
      else matchNumber r
  end.

(** Every character of [s] satisfies [p]. *)
Fixpoint allChars (p : ascii -> bool) (s : string) : bool :=
  match s with
  | EmptyString => true
  | String c r => (p c && allChars p r)%bool
  end.



(** One attempt of [/\{(\d+),?(\d+)?\}/] at the head of [s]: the two
    groups. *)
Definition matchBracesAt (s : string) : option (string * option string) :=
  match s with
  | String "{"%char r =>
      match spanDigits r with
      | (EmptyString, _) => None
      | (g1, String ","%char r1) =>
          match spanDigits r1 with
          | (EmptyString, String "}"%char _) => Some (g1, None)
          | (g2, String "}"%char _) => Some (g1, Some g2)
          | _ => None
          end
      | (g1, String "}"%char _) => Some (g1, None)
      | _ => None
      end
  | _ => None
  end.

(** [s.match(/\{(\d+),?(\d+)?\}/)] *)
Fixpoint matchBraces (s : string) : option (string * option string) :=
  match matchBracesAt s with
  | Some g => Some g
  | None =>
      match s with
      | EmptyString => None
      | String _ r => matchBraces r
      end
  end.

Definition digitValue (c : ascii) : N := code c - 48.

(** The value of a string of digits. *)
Definition digitsValue (s : string) : N :=
  fold_left (fun acc c => (acc * 10 + digitValue c)%N) (list_ascii_of_string s) 0%N.

(** [array.includes(x)] on strings *)
Definition inList (x : string) (l : list string) : bool :=
  existsb (String.eqb x) l.

End JS.

(* ===================================================================== *)
(** * JavaScript numbers                                                  *)
(* ===================================================================== *)

(** The number writer reads decimal literals, compares them and prints one
    back.  A finite number is kept as an exact decimal, sign, mantissa and
    power of ten; this agrees with the double the engine computes for
    literals of at most 15 significant digits, which a double holds and
    prints back exactly. *)
Module Num.

Inductive number :=
| NaN
| Infinity (negative : bool)
| Finite (negative : bool) (mantissa : N) (exp10 : Z).

(** The signed mantissa of a finite number scaled to the power of ten [e],
    for [e] not above its own exponent. *)
Definition scaled (negative : bool) (m : N) (x e : Z) : Z :=
  ((if negative then -1 else 1) * Z.of_N m * 10 ^ (x - e))%Z.

(** [a < b] on numbers; a comparison with [NaN] is false. *)
Definition lt (a b : number) : bool :=
  match a, b with
  | NaN, _ | _, NaN => false
  | Infinity na, Infinity nb => (na && negb nb)%bool
  | Infinity na, Finite _ _ _ => na
  | Finite _ _ _, Infinity nb => negb nb
  | Finite na ma xa, Finite nb mb xb =>
      let e := Z.min xa xb in
      (scaled na ma xa e <? scaled nb mb xb e)%Z
  end.

(** [a > b] *)
Definition gt (a b : number) : bool := lt b a.

(** The exponent part of a literal, [e] or [E], a sign and digits; zero
    when there is none. *)
Definition parseExponent (s : string) : Z :=
  match s with
  | String c r =>
      if (Ascii.eqb c "e" || Ascii.eqb c "E")%bool then
        let '(neg, r') :=
          match r with
          | String "-"%char r' => (true, r')
          | String "+"%char r' => (false, r')
          | _ => (false, r)
          end in
        match JS.spanDigits r' with
        | (EmptyString, _) => 0%Z
        | (ds, _) => let v := Z.of_N (JS.digitsValue ds) in if neg then (- v)%Z else v
        end
      else 0%Z
  | EmptyString => 0%Z
  end.

(** [parseFloat(s)]: leading white space, a sign, then [Infinity] or the
    longest decimal literal; [NaN] when there is none. *)
Definition parseFloat (s : string) : number :=
  let s0 := JS.trimStart s in
  let '(neg, s1) :=
    match s0 with
    | String "-"%char r => (true, r)
    | String "+"%char r => (false, r)
    | _ => (false, s0)
    end in
  if String.prefix "Infinity" s1 then Infinity neg
  else
    let '(ds, r1) := JS.spanDigits s1 in
    let '(fs, r2) :=
      match r1 with
      | String "."%char r => JS.spanDigits r
      | _ => (EmptyString, r1)
      end in
    match ds, fs with
    | EmptyString, EmptyString => NaN
    | _, _ =>
        Finite neg (JS.digitsValue (ds +:+ fs))
               (parseExponent r2 - Z.of_nat (String.length fs))
    end.

Definition digitsOfN (n : N) : string :=
  DecimalString.NilZero.string_of_uint (N.to_uint n).

Definition digitsOfZ (z : Z) : string := digitsOfN (Z.to_N z).

(** The digits of [s] without the zeros at its end, and their count. *)
Fixpoint dropTrailingZeros (s : string) : string * nat :=
  match s with
  | EmptyString => (EmptyString, O)
  | String c r =>
      match dropTrailingZeros r with
      | (EmptyString, k) =>
          if Ascii.eqb c "0" then (EmptyString, S k) else (String c EmptyString, k)
      | (r', k) => (String c r', k)
      end
  end.

Fixpoint zeros (n : nat) : string :=
  match n with
  | O => EmptyString
  | S k => String "0" (zeros k)
  end.

(** [Number.prototype.toString] of a positive number with digits [ds]
    ([k] of them, the last not zero) and [n] digits before the point. *)
Definition digitsToString (ds : string) (n : Z) : string :=
  let k := Z.of_nat (String.length ds) in
  if ((k <=? n) && (n <=? 21))%Z then
    ds +:+ zeros (Z.to_nat (n - k))
  else if ((0 <? n) && (n <=? 21))%Z then
    JS.substring0 (Z.to_nat n) ds +:+ "." +:+ JS.dropChars (Z.to_nat n) ds
  else if ((-6 <? n) && (n <=? 0))%Z then
    "0." +:+ zeros (Z.to_nat (- n)) +:+ ds
  else
    let e := (n - 1)%Z in
    let tail := (if (e <? 0)%Z then "e-" else "e+") +:+ digitsOfZ (Z.abs e) in
    match ds with
    | String d EmptyString => String d tail
    | String d r => String d ("." +:+ r +:+ tail)
    | EmptyString => tail
    end.

(** [x.toString()] *)
Definition toString (x : number) : string :=
  match x with
  | NaN => "NaN"
  | Infinity neg => if neg then "-Infinity" else "Infinity"
  | Finite neg m x =>
      if (m =? 0)%N then "0"
      else
        let '(ds, t) := dropTrailingZeros (digitsOfN m) in
        let n := (Z.of_nat (String.length ds) + Z.of_nat t + x)%Z in
        (if neg then "-" else "") +:+ digitsToString ds n
  end.

End Num.

(* ===================================================================== *)
(** * The page document                                                   *)
(* ===================================================================== *)

(** The document is the list of its nodes in document order; a node is
    known by its position in the list, which is the identity the code
    compares elements by, and carries the position of its parent.  The
    options of a [select] are held by the element.

    The browser is taken at its simplest: a property holds what was last
    assigned to it (an [input] does not rewrite the value it is given);
    the form of a control is the [form] element it lies in; the computed
    [display] and [visibility] of an element are given with it. *)
Module Dom.

(** The states of the [type] attribute of an [input]; [input.type] never
    yields another string. *)
Inductive InputType :=
| hidden | text | search | tel | url | email | password | date | month
| week | time | datetime_local | number | range | color | checkbox
| radio | file | submit | image | reset | button.

Definition inputTypeName (t : InputType) : string :=
  match t with
  | hidden => "hidden" | text => "text" | search => "search" | tel => "tel"
  | url => "url" | email => "email" | password => "password"
  | date => "date" | month => "month" | week => "week" | time => "time"
  | datetime_local => "datetime-local" | number => "number"
  | range => "range" | color => "color" | checkbox => "checkbox"
  | radio => "radio" | file => "file" | submit => "submit"
  | image => "image" | reset => "reset" | button => "button"
  end.

Inductive Kind :=
| Input (t : InputType)
| Textarea
| Select
| Form
| Label
| Other (tag : string).

Record OptionEl := mkOption {
  o_text : string;        (* option.textContent *)
  o_value : string;       (* option.value *)
  o_selected : bool       (* option.selected *)
}.

(** What the code reads of an element and never writes. *)
Record Attrs := mkAttrs {
  kind : Kind;
  id : string;
  nameAttr : option string;
  disabled : bool;
  readOnly : bool;
  required : bool;
  multiple : bool;
  maxLength : Z;                    (* -1 when the attribute is absent *)
  min : string;
  max : string;
  placeholder : string;
  title : string;
  pattern : string;
  ariaLabel : option string;
  ariaLabelledby : option string;
  ariaRequired : option string;
  htmlFor : option string;          (* the [for] attribute of a label *)
  display : string;                 (* computed style *)
  visibility : string               (* computed style *)
}.

(** What the code writes. *)
Record Live := mkLive {
  l_value : string;
  l_checked : bool;
  l_options : list OptionEl;
  l_border : string;                (* element.style.border *)
  l_boxShadow : string              (* element.style.boxShadow *)
}.

Record Element := mkElement { attrs : Attrs; live : Live }.

Inductive NodeData :=
| Text (data : string)
| Elem (e : Element).

Record Node := mkNode { parent : option nat; content : NodeData }.

Abbreviation Document := (list Node).

(** ** Properties of one element *)

Definition tagName (e : Element) : string :=
  match kind (attrs e) with
  | Input _ => "INPUT"
  | Textarea => "TEXTAREA"
  | Select => "SELECT"
  | Form => "FORM"
  | Label => "LABEL"
  | Other tag => tag
  end.

(** [element.type] *)
Definition type (e : Element) : string :=
  match kind (attrs e) with
  | Input t => inputTypeName t
  | Textarea => "textarea"
  | Select => if multiple (attrs e) then "select-multiple" else "select-one"
  | _ => ""
  end.

(** [element.name] *)
Definition name (e : Element) : string := default "" (nameAttr (attrs e)).

(** ['readOnly' in element], ['maxLength' in element],
    ['placeholder' in element] *)
Definition isTextControl (e : Element) : bool :=
  match kind (attrs e) with
  | Input _ | Textarea => true
  | _ => false
  end.

Definition isInput (e : Element) : bool :=
  match kind (attrs e) with
  | Input _ => true
  | _ => false
  end.

Definition isRadio (e : Element) : bool :=
  match kind (attrs e) with
  | Input radio => true
  | _ => false
  end.

Definition isSelect (e : Element) : bool :=
  match kind (attrs e) with
  | Select => true
  | _ => false
  end.

Definition isForm (e : Element) : bool :=
  match kind (attrs e) with
  | Form => true
  | _ => false
  end.

Definition isLabel (e : Element) : bool :=
  match kind (attrs e) with
  | Label => true
  | _ => false
  end.

(** [input, textarea, select] *)
Definition isField (e : Element) : bool :=
  match kind (attrs e) with
  | Input _ | Textarea | Select => true
  | _ => false
  end.

Definition setLive (f : Live -> Live) (e : Element) : Element :=
  mkElement (attrs e) (f (live e)).

Definition withValue (v : string) (l : Live) : Live :=
  mkLive v (l_checked l) (l_options l) (l_border l) (l_boxShadow l).
Definition withChecked (b : bool) (l : Live) : Live :=
  mkLive (l_value l) b (l_options l) (l_border l) (l_boxShadow l).
Definition withOptions (os : list OptionEl) (l : Live) : Live :=
  mkLive (l_value l) (l_checked l) os (l_border l) (l_boxShadow l).
Definition withStyle (b s : string) (l : Live) : Live :=
  mkLive (l_value l) (l_checked l) (l_options l) b s.

Definition selectOption (sel : bool) (o : OptionEl) : OptionEl :=
  mkOption (o_text o) (o_value o) sel.

(** The options after [options[i].selected = true]: in a [select] that is
    not [multiple] the browser clears the other options. *)
Definition selectIndex (isMultiple : bool) (i : nat) (os : list OptionEl)
  : list OptionEl :=
  imap (fun j o => if Nat.eqb j i then selectOption true o
                   else if isMultiple then o else selectOption false o) os.

(** The options after [select.selectedIndex = i]: that option alone is
    selected. *)
Definition setSelectedIndex (i : nat) (os : list OptionEl) : list OptionEl :=
  imap (fun j o => selectOption (Nat.eqb j i) o) os.

(** The position of the first option with value [v]. *)
Fixpoint findValue (v : string) (os : list OptionEl) : option nat :=
  match os with
  | [] => None
  | o :: r => if String.eqb (o_value o) v then Some O else S <$> findValue v r
  end.

(** [element.value]: of a [select], the value of its first selected
    option. *)
Definition value (e : Element) : string :=
  if isSelect e then
    match List.find o_selected (l_options (live e)) with
    | Some o => o_value o
    | None => ""
    end
  else l_value (live e).

(** [element.value = v]: on a [select] it selects the first option of
    that value and clears the others. *)
Definition setValue (v : string) (e : Element) : Element :=
  if isSelect e then
    setLive (fun l =>
      withOptions
        (match findValue v (l_options l) with
         | Some i => setSelectedIndex i (l_options l)
         | None => map (selectOption false) (l_options l)
         end) l) e
  else setLive (withValue v) e.

Definition checked (e : Element) : bool := l_checked (live e).
Definition options (e : Element) : list OptionEl := l_options (live e).
Definition border (e : Element) : string := l_border (live e).
Definition boxShadow (e : Element) : string := l_boxShadow (live e).

(** ** The tree *)

Definition element (doc : Document) (i : nat) : option Element :=
  match doc !! i with
  | Some (mkNode _ (Elem e)) => Some e
  | _ => None
  end.

Definition parentOf (doc : Document) (i : nat) : option nat :=
  n ← doc !! i; parent n.

Fixpoint ancestorsFrom (doc : Document) (fuel i : nat) : list nat :=
  match fuel with
  | O => []
  | S f =>
      match parentOf doc i with
      | Some p => p :: ancestorsFrom doc f p
      | None => []
      end
  end.

(** The ancestors of node [i], nearest first. *)
Definition ancestors (doc : Document) (i : nat) : list nat :=
  ancestorsFrom doc (length doc) i.

Definition isDescendant (doc : Document) (a j : nat) : bool :=
  existsb (Nat.eqb a) (ancestors doc j).

(** [element.closest(tag)], for an element that does not itself match *)
Definition closest (doc : Document) (p : Element -> bool) (i : nat) : option nat :=
  List.find (fun a => match element doc a with
                      | Some e => p e
                      | None => false
                      end) (ancestors doc i).

(** [element.form]: the form the element lies in. *)
Definition formOwner (doc : Document) (i : nat) : option nat :=
  closest doc isForm i.

(** [node.parentElement] *)
Definition parentElement (doc : Document) (i : nat) : option nat :=
  p ← parentOf doc i; _ ← element doc p; Some p.

(** The nodes that satisfy [p], in document order. *)
Definition nodesWhere (doc : Document) (p : nat -> Node -> bool)
  : list (nat * Node) :=
  List.filter (fun '(i, n) => p i n) (imap pair doc).

(** The elements that satisfy [p], in document order, each with its
    position. *)
Definition elementsWhere (doc : Document) (p : nat -> Element -> bool)
  : list (nat * Element) :=
  omap (fun '(i, n) => match content n with
                       | Elem e => if p i e then Some (i, e) else None
                       | Text _ => None
                       end) (imap pair doc).

(** [scope.querySelectorAll(sel)], [scope] being an element or, for
    [None], the document, and [sel] a selector that [p] decides. *)
Definition querySelectorAll (doc : Document) (scope : option nat)
           (p : Element -> bool) : list (nat * Element) :=
  elementsWhere doc (fun j e =>
    (p e && match scope with
            | Some a => isDescendant doc a j
            | None => true
            end)%bool).

(** The text a node adds to the [textContent] of the elements around it. *)
Definition ownText (n : Node) : string :=
  match content n with
  | Text d => d
  | Elem e => if isSelect e then String.concat "" (map o_text (options e)) else ""
  end.

(** [element.textContent] *)
Definition textContent (doc : Document) (i : nat) : string :=
  String.concat ""
    (map (fun '(_, n) => ownText n)
         (nodesWhere doc (fun j _ => (Nat.eqb j i || isDescendant doc i j)%bool))).

(** [element.previousElementSibling] *)
Definition previousElementSibling (doc : Document) (i : nat) : option nat :=
  fst <$> last (elementsWhere doc (fun j _ =>
          (Nat.ltb j i && bool_decide (parentOf doc j = parentOf doc i))%bool)).

(** [node.nextSibling] *)
Definition nextSibling (doc : Document) (i : nat) : option (nat * Node) :=
  head (nodesWhere doc (fun j _ =>
          (Nat.ltb i j && bool_decide (parentOf doc j = parentOf doc i))%bool)).

(** [document.getElementById(v)] *)
Definition getElementById (doc : Document) (v : string) : option nat :=
  fst <$> head (elementsWhere doc (fun _ e => String.eqb (id (attrs e)) v)).

(** ** Writing *)

(** Replace the element at position [i]. *)
Definition update (i : nat) (f : Element -> Element) (doc : Document) : Document :=
  match doc !! i with
  | Some (mkNode p (Elem e)) => <[i := mkNode p (Elem (f e))]> doc
  | _ => doc
  end.

(** Two radio buttons belong to one group when they have the same form
    owner and the same name, which is not empty. *)
Definition sameRadioGroup (doc : Document) (i : nat) (e : Element)
           (j : nat) (e' : Element) : bool :=
  (isRadio e && isRadio e' && negb (String.eqb (name e) "")
   && String.eqb (name e) (name e')
   && bool_decide (formOwner doc i = formOwner doc j))%bool.

(** [element.checked = b]: checking a radio button clears the other
    buttons of its group. *)
Definition setChecked (i : nat) (b : bool) (doc : Document) : Document :=
  match element doc i with
  | Some e =>
      if (b && isRadio e)%bool then
        imap (fun j n =>
                match content n with
                | Elem e' =>
                    if Nat.eqb j i then mkNode (parent n) (Elem (setLive (withChecked true) e'))
                    else if sameRadioGroup doc i e j e'
                         then mkNode (parent n) (Elem (setLive (withChecked false) e'))
                         else n
                | Text _ => n
                end) doc
      else update i (setLive (withChecked b)) doc
  | None => doc
  end.

End Dom.

(* ===================================================================== *)
(** * The host: what the browser and the engine decide                    *)
(* ===================================================================== *)

(** Two operations are the host's own and are left open.

    [cssAttrValue s] is how the selector parser reads the text [s] put
    between the quotes of [[attr="..."]]: [Some v] when the selector is
    well formed, [v] being the attribute value it asks for, and [None]
    when it is not, in which case [querySelector] throws a [SyntaxError].

    [dateParse s] is [new Date(s).getTime()]: the milliseconds since the
    epoch, or [None] for an invalid date.  How a string that is not in the
    ISO format is read, and in which time zone, is up to the engine. *)
Class Host := {
  cssAttrValue : string -> option string;
  dateParse : string -> option Z
}.

(* ===================================================================== *)
(** * Effects: state, exceptions and the console                          *)
(* ===================================================================== *)

Module Eff.

Inductive Exception :=
| SyntaxError (selector : string)
| TypeError (what : string).

Inductive Outcome (S A : Type) :=
| Ok (a : A) (s : S)
| Throw (e : Exception) (s : S).
Arguments Ok {S A} a s.
Arguments Throw {S A} e s.

(** A computation over the state [S] that returns an [A] or throws; the
    state changes made before a throw stay. *)
Definition M (S A : Type) : Type := S -> Outcome S A.

Definition ret {S A} (a : A) : M S A := fun s => Ok a s.

Definition bind {S A B} (m : M S A) (k : A -> M S B) : M S B :=
  fun s => match m s with
           | Ok a s' => k a s'
           | Throw e s' => Throw e s'
           end.

Definition throw {S A} (e : Exception) : M S A := fun s => Throw e s.

(** [try { m } catch (error) { h error }] *)
Definition tryCatch {S A} (m : M S A) (h : Exception -> M S A) : M S A :=
  fun s => match m s with
           | Ok a s' => Ok a s'
           | Throw e s' => h e s'
           end.

Definition get {S} : M S S := fun s => Ok s s.
Definition gets {S A} (f : S -> A) : M S A := fun s => Ok (f s) s.
Definition modify {S} (f : S -> S) : M S unit := fun s => Ok tt (f s).

(** [for (const x of xs) body(x)] *)
Fixpoint forEach {S A} (body : A -> M S unit) (xs : list A) : M S unit :=
  match xs with
  | [] => ret tt
  | x :: r => bind (body x) (fun _ => forEach body r)
  end.

(** The computation returns, whatever the state it starts from. *)
Definition returns {S A} (m : M S A) : Prop :=
  forall s, exists a s', m s = Ok a s'.

Inductive Level := Info | Warn | Error | Debug | Success | Field.

(** One line of the console: [Logger.info], [Logger.warn], ... *)
Record LogEntry := mkLog { level : Level; message : string }.

End Eff.

(** The monad operations under stdpp's notations [x ← m; k] and [m;; k]. *)
#[export] Instance M_ret {S} : MRet (Eff.M S) := fun A a => Eff.ret a.
#[export] Instance M_bind {S} : MBind (Eff.M S) := fun A B k m => Eff.bind m k.

(** [DetectedFormField] of [types/language-model.d.ts]; [element] is the
    position of the element in the document. *)
Record DetectedFormField := mkField {
  element : nat;
  label : string;
  type : string;
  required : bool;
  placeholder : option string;
  maxLength : option Z
}.

(** [GeneratedAnswer] of [types/language-model.d.ts]; the confidence, which
    nothing reads, is kept as the text the answer came with. *)
Record GeneratedAnswer := mkAnswer {
  fieldLabel : string;
  fieldType : string;
  answer : string;
  confidence : string
}.

(** A string is true in a condition when it is not empty. *)
Definition truthy (s : string) : bool := negb (String.eqb s "").

(** [document.querySelector(`label[for="${v}"]`)]: the first label whose
    [for] attribute has the value the selector asks for; a malformed
    selector throws. *)
Definition queryLabelFor `{Host} {S} (doc : Dom.Document) (v : string)
  : Eff.M S (option nat) :=
  match cssAttrValue v with
  | None => Eff.throw (Eff.SyntaxError ("label[for=" +:+ JS.quoted v +:+ "]"))
  | Some a =>
      mret (fst <$> head (Dom.elementsWhere doc (fun _ e =>
              (Dom.isLabel e
               && bool_decide (Dom.htmlFor (Dom.attrs e) = Some a))%bool)))
  end.

(* ===================================================================== *)
(** * FormFieldDetector                                                   *)
(* ===================================================================== *)

Module Detector.
Import Eff.

(** The detector object and the console it writes to. *)
Record State := mkState {
  detectedFields : list DetectedFormField;
  console : list LogEntry
}.

Definition log (lv : Level) (msg : string) : M State unit :=
  modify (fun s => mkState (detectedFields s) (console s ++ [mkLog lv msg])).

Definition setDetected (fs : list DetectedFormField) : M State unit :=
  modify (fun s => mkState fs (console s)).

Definition push (f : DetectedFormField) : M State unit :=
  modify (fun s => mkState (detectedFields s ++ [f]) (console s)).

Definition skipNames : list string :=
  ["csrf"; "token"; "_token"; "authenticity_token";
   "utf8"; "_method"; "commit"; "submit";
   "captcha"; "recaptcha"; "g-recaptcha-response"].

(** [shouldSkipField] *)
Definition shouldSkipField (e : Dom.Element) : bool :=
  if String.eqb (Dom.type e) "hidden" then true
  else if Dom.disabled (Dom.attrs e) then true
  else if (Dom.isTextControl e && Dom.readOnly (Dom.attrs e)
           && negb (String.eqb (Dom.type e) "text"))%bool then true
  else
    let name := JS.toLowerCase (Dom.name e) in
    let id := JS.toLowerCase (Dom.id (Dom.attrs e)) in
    if existsb (fun skip => (JS.includes name skip || JS.includes id skip)%bool)
               skipNames then true
    else if (String.eqb (Dom.display (Dom.attrs e)) "none"
             || String.eqb (Dom.visibility (Dom.attrs e)) "hidden")%bool then true
    else false.

(** [cleanLabelText] *)
Definition cleanLabelText (text : string) : string :=
  JS.trim (JS.stripTrailingMarks (JS.collapseSpaces (JS.trim text))).

(** [formatNameAsLabel] *)
Definition formatNameAsLabel (name : string) : string :=
  JS.capitalizeFirst (JS.toLowerCase (JS.splitCamel (JS.dashesToSpaces name))).

(** [getFieldType]'s table *)
Definition typeMapping : list (string * string) :=
  [("text", "text"); ("email", "email"); ("password", "password");
   ("tel", "phone"); ("url", "url"); ("number", "number");
   ("range", "range"); ("date", "date"); ("datetime-local", "datetime");
   ("time", "time"); ("month", "month"); ("week", "week");
   ("color", "color"); ("file", "file"); ("checkbox", "checkbox");
   ("radio", "radio"); ("submit", "submit"); ("button", "button");
   ("reset", "reset"); ("search", "search")].

Fixpoint lookup (k : string) (table : list (string * string)) : option string :=
  match table with
  | [] => None
  | (k', v) :: r => if String.eqb k k' then Some v else lookup k r
  end.

(** [getFieldType] *)
Definition getFieldType (e : Dom.Element) : string :=
  if String.eqb (Dom.tagName e) "TEXTAREA" then "textarea"
  else if String.eqb (Dom.tagName e) "SELECT" then
    if Dom.multiple (Dom.attrs e) then "select-multiple" else "select-one"
  else
    let type := JS.toLowerCase (Dom.type e) in
    default type (lookup type typeMapping).

(** [getMaxLength] *)
Definition getMaxLength (e : Dom.Element) : option Z :=
  if (Dom.isTextControl e && (0 <? Dom.maxLength (Dom.attrs e))%Z)%bool
  then Some (Dom.maxLength (Dom.attrs e))
  else
    let pattern := if Dom.isInput e then Dom.pattern (Dom.attrs e) else "" in
    if truthy pattern then
      match JS.matchBraces pattern with
      | Some (g1, g2) =>
          Some (Z.of_N (JS.digitsValue
                  (match g2 with
                   | Some d => if truthy d then d else g1
                   | None => g1
                   end)))
      | None => None
      end
    else None.

Section Scan.
Context `{Host}.
Variable doc : Dom.Document.

(** The loop of [findNearbyText] over the elements before the field. *)
Fixpoint nearbySibling (attempts : nat) (sibling : option nat) : option string :=
  match attempts, sibling with
  | S k, Some j =>
      let text := JS.trim (Dom.textContent doc j) in
      if (truthy text && Nat.ltb 0 (String.length text)
          && Nat.ltb (String.length text) 100)%bool
      then Some text
      else nearbySibling k (Dom.previousElementSibling doc j)
  | _, _ => None
  end.

(** [findNearbyText] *)
Definition findNearbyText (i : nat) : option string :=
  match nearbySibling 3 (Dom.previousElementSibling doc i) with
  | Some text => Some text
  | None =>
      match Dom.parentElement doc i with
      | Some parent =>
          let parentText := JS.trim (Dom.textContent doc parent) in
          if (truthy parentText && Nat.ltb (String.length parentText) 100)%bool
          then
            let words := JS.splitWs false parentText in
            if Nat.leb (length words) 10 then Some parentText else None
          else None
      | None => None
      end
  end.

(** The text of the element at [j], cleaned, when it is not empty. *)
Definition labelTextOf (j : nat) : option string :=
  if truthy (Dom.textContent doc j)
  then Some (cleanLabelText (Dom.textContent doc j)) else None.

Definition whenTruthy (s : string) (f : string -> string) : option string :=
  if truthy s then Some (f s) else None.

(** The first method that answers. *)
Fixpoint firstOf (methods : list (option string)) : option string :=
  match methods with
  | [] => None
  | Some r :: _ => Some r
  | None :: rest => firstOf rest
  end.

(** [findFieldLabel] *)
Definition findFieldLabel (i : nat) (e : Dom.Element) : M State string :=
  (* Method 1: explicit label element *)
  explicit ← (if truthy (Dom.id (Dom.attrs e)) then
                label ← queryLabelFor doc (Dom.id (Dom.attrs e));
                mret (label ≫= labelTextOf)
              else mret None);
  mret (default "Unlabeled field" (firstOf [
    explicit;
    (* Method 2: parent label element *)
    Dom.closest doc Dom.isLabel i ≫= labelTextOf;
    (* Method 3: aria-label attribute *)
    Dom.ariaLabel (Dom.attrs e) ≫= (fun a => whenTruthy a cleanLabelText);
    (* Method 4: aria-labelledby *)
    Dom.ariaLabelledby (Dom.attrs e) ≫= (fun labelledBy =>
      if truthy labelledBy
      then Dom.getElementById doc labelledBy ≫= labelTextOf else None);
    (* Method 5: title attribute *)
    whenTruthy (Dom.title (Dom.attrs e)) cleanLabelText;
    (* Method 6: placeholder *)
    whenTruthy (if Dom.isTextControl e then Dom.placeholder (Dom.attrs e) else "")
               cleanLabelText;
    (* Method 7: name attribute *)
    whenTruthy (Dom.name e) formatNameAsLabel;
    (* Method 8: nearby text *)
    findNearbyText i ≫= (fun nearby => whenTruthy nearby cleanLabelText)
  ])).

(** [isFieldRequired] *)
Definition isFieldRequired (i : nat) (e : Dom.Element) : M State bool :=
  if Dom.required (Dom.attrs e) then mret true
  else if bool_decide (Dom.ariaRequired (Dom.attrs e) = Some "true") then mret true
  else
    label ← findFieldLabel i e;
    if (JS.includes label "*" || JS.includes (JS.toLowerCase label) "required")%bool
    then mret true else mret false.

(** The [try] block of [extractFieldInfo]. *)
Definition readFieldInfo (i : nat) (e : Dom.Element)
  : M State (option DetectedFormField) :=
  label ← findFieldLabel i e;
  let type := getFieldType e in
  required ← isFieldRequired i e;
  let placeholder :=
    if Dom.isTextControl e
    then (if truthy (Dom.placeholder (Dom.attrs e))
          then Some (Dom.placeholder (Dom.attrs e)) else None)
    else None in
  let maxLength := getMaxLength e in
  mret (Some (mkField i label type required placeholder maxLength)).

(** [extractFieldInfo] *)
Definition extractFieldInfo (i : nat) (e : Dom.Element)
  : M State (option DetectedFormField) :=
  tryCatch (readFieldInfo i e)
           (fun error => log Warn "Error extracting field info:";; mret None).

(** [processFieldElement] *)
Definition processFieldElement (ie : nat * Dom.Element) : M State unit :=
  let '(i, e) := ie in
  if shouldSkipField e then mret tt
  else
    fieldInfo ← extractFieldInfo i e;
    match fieldInfo with
    | Some f =>
        push f;;
        log Field ("Field detect: "
                   +:+ (if truthy (label f) then label f else "unlabeled field"))
    | None => mret tt
    end.

(** [processFormElements] *)
Definition processFormElements (form : nat * Dom.Element) : M State unit :=
  let formInputs := Dom.querySelectorAll doc (Some (fst form)) Dom.isField in
  forEach processFieldElement formInputs;;
  log Field ("Field detect: form with "
             +:+ Num.digitsOfN (N.of_nat (length formInputs)) +:+ " inputs").

(** The loop of [filterAndDeduplicateFields]. *)
Fixpoint filterLoop (fields : list DetectedFormField) (seen : gset nat)
         (filtered : list DetectedFormField) : list DetectedFormField :=
  match fields with
  | [] => filtered
  | field :: rest =>
      if bool_decide (element field ∈ seen) then filterLoop rest seen filtered
      else if JS.inList (JS.toLowerCase (type field))
                        ["submit"; "button"; "reset"; "image"]
           then filterLoop rest seen filtered
           else filterLoop rest ({[element field]} ∪ seen) (filtered ++ [field])
  end.

(** [filterAndDeduplicateFields] *)
Definition filterAndDeduplicateFields (fields : list DetectedFormField)
  : list DetectedFormField :=
  filterLoop fields ∅ [].

(** [detectFields], the scan *)
Definition detectFields : M State (list DetectedFormField) :=
  setDetected [];;
  log Info "Starting form field detection...";;
  let forms := Dom.querySelectorAll doc None Dom.isForm in
  let allInputs := Dom.querySelectorAll doc None Dom.isField in
  forEach processFormElements forms;;
  forEach (fun input =>
             if negb (bool_decide (is_Some (Dom.closest doc Dom.isForm (fst input))))
             then processFieldElement input else mret tt) allInputs;;
  fields ← gets detectedFields;
  setDetected (filterAndDeduplicateFields fields);;
  fields ← gets detectedFields;
  log Success ("Form field detection complete: "
               +:+ Num.digitsOfN (N.of_nat (length fields)) +:+ " fields found");;
  mret fields.



End Scan.

End Detector.

(* ===================================================================== *)
(** * Dates                                                               *)
(* ===================================================================== *)

(** [Date.prototype.toISOString], as far as its date part: the civil date,
    in UTC, of a time value in milliseconds since the epoch. *)
Module JSDate.
Local Open Scope Z_scope.

Definition msPerDay : Z := 86400000.

(** The largest time value a [Date] holds. *)
Definition maxTime : Z := 8640000000000000.

(** [new Date(s)] with a valid time value, or [None] for an invalid date. *)
Definition newDate `{Host} (s : string) : option Z :=
  t ← dateParse s;
  if Z.abs t <=? maxTime then Some t else None.

(** Year, month and day of the day number [z] counted from 1970-01-01,
    in the proleptic Gregorian calendar. *)
Definition civilFromDays (z : Z) : Z * Z * Z :=
  let z := z + 719468 in
  let era := z / 146097 in
  let doe := z - era * 146097 in
  let yoe := (doe - doe / 1460 + doe / 36524 - doe / 146096) / 365 in
  let y := yoe + era * 400 in
  let doy := doe - (365 * yoe + yoe / 4 - yoe / 100) in
  let mp := (5 * doy + 2) / 153 in
  let d := doy - (153 * mp + 2) / 5 + 1 in
  let m := if mp <? 10 then mp + 3 else mp - 9 in
  (if m <=? 2 then y + 1 else y, m, d).

(** The day number of a civil date. *)
Definition daysFromCivil (y m d : Z) : Z :=
  let y := if m <=? 2 then y - 1 else y in
  let era := y / 400 in
  let yoe := y - era * 400 in
  let doy := (153 * (if 2 <? m then m - 3 else m + 9) + 2) / 5 + d - 1 in
  let doe := yoe * 365 + yoe / 4 - yoe / 100 + doy in
  era * 146097 + doe - 719468.

(** [n] in decimal on at least [width] digits. *)
Definition pad (width : nat) (n : Z) : string :=
  let ds := Num.digitsOfZ n in
  Num.zeros (width - String.length ds) +:+ ds.

(** [date.toISOString().split('T')[0]] *)
Definition isoDate (t : Z) : string :=
  let '(y, m, d) := civilFromDays (t / msPerDay) in
  let year :=
    if (0 <=? y) && (y <=? 9999) then pad 4 y
    else (if y <? 0 then "-" else "+") +:+ pad 6 (Z.abs y) in
  year +:+ "-" +:+ pad 2 m +:+ "-" +:+ pad 2 d.

End JSDate.

(* ===================================================================== *)
(** * FieldInjector                                                       *)
(* ===================================================================== *)

Module Injector.
Import Eff.

(** ** The matcher *)

(** [normalizeLabel] *)
Definition normalizeLabel (label : string) : string :=
  JS.trim (JS.collapseSpaces (JS.stripNonAlnum (JS.toLowerCase label))).

Definition stopWords : list string :=
  ["the"; "a"; "an"; "and"; "or"; "but"; "in"; "on"; "at"; "to"; "for";
   "of"; "with"; "by"; "your"; "you"; "enter"; "please"].

(** [extractKeywords] *)
Definition extractKeywords (text : string) : list string :=
  List.filter (fun word => (Nat.ltb 2 (String.length word)
                            && negb (JS.inList word stopWords))%bool)
              (JS.split " " text).

(** The test of the inner loop of [calculateMatchScore]. *)
Definition keywordsMatch (keyword1 keyword2 : string) : bool :=
  (String.eqb keyword1 keyword2 || JS.includes keyword1 keyword2
   || JS.includes keyword2 keyword1)%bool.

(** The count [matches] of [calculateMatchScore]: the keywords of the
    first list that some keyword of the second matches. *)
Definition countMatches (keywords1 keywords2 : list string) : nat :=
  length (List.filter (fun keyword1 => existsb (keywordsMatch keyword1) keywords2)
                      keywords1).

(** [calculateMatchScore]; the quotient of the two small integers is kept
    exact. *)
Definition calculateMatchScore (keywords1 keywords2 : list string) : Q :=
  if (Nat.eqb (length keywords1) 0 || Nat.eqb (length keywords2) 0)%bool then 0%Q
  else Qmake (Z.of_nat (countMatches keywords1 keywords2))
             (Pos.of_nat (Nat.max (length keywords1) (length keywords2))).

(** [a > b] on scores *)
Definition Qgtb (a b : Q) : bool := negb (Qle_bool a b).

(** The score of a field against the keywords of the answer. *)
Definition fieldScore (answerKeywords : list string) (field : DetectedFormField) : Q :=
  calculateMatchScore answerKeywords (extractKeywords (normalizeLabel (label field))).

(** The third loop of [findMatchingField]. *)
Fixpoint fuzzyLoop (answerKeywords : list string) (formFields : list DetectedFormField)
         (bestMatch : option DetectedFormField) (bestScore : Q)
  : option DetectedFormField :=
  match formFields with
  | [] => bestMatch
  | field :: rest =>
      let score := fieldScore answerKeywords field in
      if (Qgtb score bestScore && Qgtb score (1 # 2))%bool
      then fuzzyLoop answerKeywords rest (Some field) score
      else fuzzyLoop answerKeywords rest bestMatch bestScore
  end.

(** The first loop of [findMatchingField]. *)
Fixpoint exactLoop (normalizedAnswerLabel : string) (formFields : list DetectedFormField)
  : option DetectedFormField :=
  match formFields with
  | [] => None
  | field :: rest =>
      if String.eqb (normalizeLabel (label field)) normalizedAnswerLabel
      then Some field
      else exactLoop normalizedAnswerLabel rest
  end.

(** The second loop of [findMatchingField]. *)
Fixpoint partialLoop (normalizedAnswerLabel : string) (formFields : list DetectedFormField)
  : option DetectedFormField :=
  match formFields with
  | [] => None
  | field :: rest =>
      let normalizedFieldLabel := normalizeLabel (label field) in
      if (JS.includes normalizedFieldLabel normalizedAnswerLabel
          || JS.includes normalizedAnswerLabel normalizedFieldLabel)%bool
      then Some field
      else partialLoop normalizedAnswerLabel rest
  end.

(** [findMatchingField] *)
Definition findMatchingField (answerLabel : string) (formFields : list DetectedFormField)
  : option DetectedFormField :=
  let normalizedAnswerLabel := normalizeLabel answerLabel in
  match exactLoop normalizedAnswerLabel formFields with
  | Some field => Some field
  | None =>
      match partialLoop normalizedAnswerLabel formFields with
      | Some field => Some field
      | None =>
          let answerKeywords := extractKeywords normalizedAnswerLabel in
          fuzzyLoop answerKeywords formFields None 0%Q
      end
  end.

(** ** The page, the injector object and the timers *)

Inductive DomEvent :=
| Focus (target : nat)                        (* element.focus() *)
| Dispatch (target : nat) (type : string)     (* element.dispatchEvent *)
| DispatchRetargeted (target : nat) (type : string).

(** What a timer does when it fires. *)
Inductive Callback :=
| RestoreStyle (target : nat) (originalBorder originalBoxShadow : string)
| HideNotification (notification : nat)
| RemoveNotification (notification : nat).

Record Timer := mkTimer { due : nat; callback : Callback }.

(** The [div] that [showInjectionFeedback] appends to the body. *)
Record Notification := mkNotification {
  n_id : nat;
  n_background : string;
  n_text : string;
  n_animation : string
}.

Record World := mkWorld {
  document : Dom.Document;
  injectedFields : list (nat * string);  (* Map<HTMLElement, string> *)
  events : list DomEvent;
  now : nat;                             (* milliseconds *)
  timers : list Timer;                   (* by due time, then by age *)
  notifications : list Notification;
  created : nat;                         (* notifications made so far *)
  console : list LogEntry
}.

Definition withDocument (f : Dom.Document -> Dom.Document) (w : World) : World :=
  mkWorld (f (document w)) (injectedFields w) (events w) (now w) (timers w)
          (notifications w) (created w) (console w).
Definition withInjected (f : list (nat * string) -> list (nat * string)) (w : World)
  : World :=
  mkWorld (document w) (f (injectedFields w)) (events w) (now w) (timers w)
          (notifications w) (created w) (console w).
Definition withEvents (f : list DomEvent -> list DomEvent) (w : World) : World :=
  mkWorld (document w) (injectedFields w) (f (events w)) (now w) (timers w)
          (notifications w) (created w) (console w).
Definition withNow (t : nat) (w : World) : World :=
  mkWorld (document w) (injectedFields w) (events w) t (timers w)
          (notifications w) (created w) (console w).
Definition withTimers (f : list Timer -> list Timer) (w : World) : World :=
  mkWorld (document w) (injectedFields w) (events w) (now w) (f (timers w))
          (notifications w) (created w) (console w).
Definition withNotifications (f : list Notification -> list Notification) (w : World)
  : World :=
  mkWorld (document w) (injectedFields w) (events w) (now w) (timers w)
          (f (notifications w)) (created w) (console w).
Definition withCreated (n : nat) (w : World) : World :=
  mkWorld (document w) (injectedFields w) (events w) (now w) (timers w)
          (notifications w) n (console w).
Definition withConsole (f : list LogEntry -> list LogEntry) (w : World) : World :=
  mkWorld (document w) (injectedFields w) (events w) (now w) (timers w)
          (notifications w) (created w) (f (console w)).

Definition log (lv : Level) (msg : string) : M World unit :=
  modify (withConsole (fun c => c ++ [mkLog lv msg])).

(** [Map.prototype.set]: a key already there keeps its place. *)
Fixpoint mapSet (k : nat) (v : string) (m : list (nat * string)) : list (nat * string) :=
  match m with
  | [] => [(k, v)]
  | (k', v') :: r => if Nat.eqb k k' then (k, v) :: r else (k', v') :: mapSet k v r
  end.

(** A timer enters the queue behind those due no later than itself. *)
Fixpoint enqueue (t : Timer) (q : list Timer) : list Timer :=
  match q with
  | [] => [t]
  | t' :: r => if Nat.leb (due t') (due t) then t' :: enqueue t r else t :: t' :: r
  end.

(** [setTimeout(callback, delay)] *)
Definition setTimeout (cb : Callback) (delay : nat) (w : World) : World :=
  withTimers (enqueue (mkTimer (now w + delay) cb)) w.

Definition setAnimation (a : string) (n : Notification) : Notification :=
  mkNotification (n_id n) (n_background n) (n_text n) a.

Definition attached (id : nat) (w : World) : bool :=
  existsb (fun n => Nat.eqb (n_id n) id) (notifications w).

(** The body of a timer. *)
Definition fire (cb : Callback) (w : World) : World :=
  match cb with
  | RestoreStyle target b s =>
      withDocument (Dom.update target (Dom.setLive (Dom.withStyle b s))) w
  | HideNotification id =>
      if attached id w then
        setTimeout (RemoveNotification id) 300
          (withNotifications
             (map (fun n => if Nat.eqb (n_id n) id
                            then setAnimation "slideInRight 0.3s ease-out reverse" n
                            else n)) w)
      else w
  | RemoveNotification id =>
      if attached id w then
        withNotifications (List.filter (fun n => negb (Nat.eqb (n_id n) id))) w
      else w
  end.

(** The timers due by the time [t] fire in turn, each at its due time;
    then the clock stands at [t]. *)
Fixpoint runUntil (fuel : nat) (t : nat) (w : World) : World :=
  match fuel, timers w with
  | S k, tm :: rest =>
      if Nat.leb (due tm) t
      then runUntil k t (fire (callback tm)
                           (withTimers (fun _ => rest) (withNow (Nat.max (now w) (due tm)) w)))
      else withNow (Nat.max (now w) t) w
  | _, _ => withNow (Nat.max (now w) t) w
  end.

(** A timer that hides a notification sets one more timer; the others
    set none. *)
Definition weight (tm : Timer) : nat :=
  match callback tm with
  | HideNotification _ => 2
  | _ => 1
  end.

Definition enoughFuel (w : World) : nat := list_sum (map weight (timers w)).

(** Time passes for [ms] milliseconds. *)
Definition elapse (ms : nat) (w : World) : World :=
  runUntil (enoughFuel w) (now w + ms) w.

(** [await new Promise(resolve => setTimeout(resolve, ms))] *)
Definition sleep (ms : nat) : M World unit := modify (elapse ms).

(** The time by which every timer set so far, and the timer one of them
    may set in turn, is due. *)
Definition horizon (w : World) : nat :=
  match last (timers w) with
  | Some tm => Nat.max (now w) (due tm) + 300
  | None => now w
  end.

(** All the timers set so far have fired. *)
Definition settle (w : World) : World := runUntil (enoughFuel w) (horizon w) w.

(** ** The writers *)

Section Writers.
Context `{Host}.

(** The element a field refers to.  A position that holds no element
    stands for a reference that is not an element, on which the first
    property read throws. *)
Definition getElement (i : nat) : M World Dom.Element :=
  doc ← gets document;
  match Dom.element doc i with
  | Some e => mret e
  | None => throw (TypeError "not an element")
  end.

Definition updateElement (i : nat) (f : Dom.Element -> Dom.Element) : M World unit :=
  modify (withDocument (Dom.update i f)).

Definition dispatch (ev : DomEvent) : M World unit :=
  modify (withEvents (fun es => es ++ [ev])).

(** [isElementInteractable] *)
Definition isElementInteractable (i : nat) : M World bool :=
  e ← getElement i;
  mret (negb (String.eqb (Dom.display (Dom.attrs e)) "none")
        && negb (String.eqb (Dom.visibility (Dom.attrs e)) "hidden")
        && negb (Dom.disabled (Dom.attrs e))
        && negb (Dom.readOnly (Dom.attrs e)))%bool.

(** [focusElement] *)
Definition focusElement (i : nat) : M World unit :=
  tryCatch (dispatch (Focus i))
           (fun error => log Debug "Could not focus element:").

(** [content] cut to the [maxLength] of the element, which only an
    [input] or a [textarea] has. *)
Definition respectMaxLength (e : Dom.Element) (content : string) : string :=
  let maxLength := if Dom.isTextControl e then Some (Dom.maxLength (Dom.attrs e))
                   else None in
  match maxLength with
  | Some maxLength =>
      if ((0 <? maxLength)%Z && (maxLength <? Z.of_nat (String.length content))%Z)%bool
      then JS.substring0 (Z.to_nat maxLength) content
      else content
  | None => content
  end.

(** [injectTextInput] *)
Definition injectTextInput (input : nat) (content : string) : M World bool :=
  tryCatch
    (e ← getElement input;
     let finalContent := respectMaxLength e content in
     updateElement input (Dom.setValue finalContent);;
     mret true)
    (fun error => log Debug "Error injecting text input:";; mret false).

(** [injectTextarea] *)
Definition injectTextarea (textarea : nat) (content : string) : M World bool :=
  tryCatch
    (e ← getElement textarea;
     let finalContent := respectMaxLength e content in
     updateElement textarea (Dom.setValue finalContent);;
     mret true)
    (fun error => log Debug "Error injecting textarea:";; mret false).

(** The test of the loop of [injectSelect]. *)
Definition optionMatches (normalizedContent : string) (option : Dom.OptionEl) : bool :=
  let optionText := JS.trim (JS.toLowerCase (Dom.o_text option)) in
  let optionValue := JS.trim (JS.toLowerCase (Dom.o_value option)) in
  (JS.includes optionText normalizedContent
   || JS.includes normalizedContent optionText
   || String.eqb optionValue normalizedContent)%bool.

(** The position of the first element of [l] that satisfies [p]. *)
Fixpoint findIndex {A} (p : A -> bool) (l : list A) : option nat :=
  match l with
  | [] => None
  | x :: r => if p x then Some O else S <$> findIndex p r
  end.

(** [injectSelect] *)
Definition injectSelect (select : nat) (content : string) : M World bool :=
  tryCatch
    (e ← getElement select;
     let normalizedContent := JS.trim (JS.toLowerCase content) in
     if Dom.isSelect e then
       match findIndex (optionMatches normalizedContent) (Dom.options e) with
       | Some k =>
           updateElement select
             (Dom.setLive (fun l => Dom.withOptions
                (Dom.selectIndex (Dom.multiple (Dom.attrs e)) k (Dom.l_options l)) l));;
           mret true
       | None =>
           log Debug "No matching option found for select:";;
           mret false
       end
     else throw (TypeError "select.options is not iterable"))
    (fun error => log Debug "Error injecting select:";; mret false).

Definition affirmative : list string :=
  ["yes"; "true"; "1"; "checked"; "on"; "agree"].

(** [injectCheckbox] *)
Definition injectCheckbox (checkbox : nat) (content : string) : M World bool :=
  tryCatch
    (_ ← getElement checkbox;
     let normalizedContent := JS.trim (JS.toLowerCase content) in
     let shouldCheck := JS.inList normalizedContent affirmative in
     modify (withDocument (Dom.setChecked checkbox shouldCheck));;
     mret true)
    (fun error => log Debug "Error injecting checkbox:";; mret false).

(** [findRadioLabel] *)
Definition findRadioLabel (radio : nat) (e : Dom.Element) : M World string :=
  doc ← gets document;
  explicit ← (if truthy (Dom.id (Dom.attrs e)) then
                label ← queryLabelFor doc (Dom.id (Dom.attrs e));
                mret (label ≫= fun j =>
                        if truthy (Dom.textContent doc j)
                        then Some (JS.trim (Dom.textContent doc j)) else None)
              else mret None);
  match explicit with
  | Some text => mret text
  | None =>
      match Dom.closest doc Dom.isLabel radio ≫= (fun j =>
              if truthy (Dom.textContent doc j)
              then Some (JS.trim (Dom.textContent doc j)) else None) with
      | Some text => mret text
      | None =>
          match Dom.nextSibling doc radio with
          | Some (_, Dom.mkNode _ (Dom.Text data)) =>
              if truthy data then mret (JS.trim data) else mret (Dom.value e)
          | _ => mret (Dom.value e)
          end
      end
  end.

(** The loop of [injectRadio] over the buttons of the group. *)
Fixpoint radioLoop (normalizedContent : string) (radioGroup : list (nat * Dom.Element))
  : M World bool :=
  match radioGroup with
  | [] => mret false
  | (radioButton, e) :: rest =>
      label ← findRadioLabel radioButton e;
      let normalizedLabel := JS.trim (JS.toLowerCase label) in
      if (JS.includes normalizedLabel normalizedContent
          || JS.includes normalizedContent normalizedLabel
          || String.eqb (JS.toLowerCase (Dom.value e)) normalizedContent)%bool
      then modify (withDocument (Dom.setChecked radioButton true));; mret true
      else radioLoop normalizedContent rest
  end.

(** [form.querySelectorAll(`input[type="radio"][name="${name}"]`)] *)
Definition queryRadioGroup (form : option nat) (name : string)
  : M World (list (nat * Dom.Element)) :=
  doc ← gets document;
  match cssAttrValue name with
  | None => throw (SyntaxError ("input[type=radio][name=" +:+ JS.quoted name +:+ "]"))
  | Some v =>
      mret (Dom.querySelectorAll doc form (fun e =>
              (Dom.isRadio e
               && bool_decide (Dom.nameAttr (Dom.attrs e) = Some v))%bool))
  end.

(** [injectRadio] *)
Definition injectRadio (radio : nat) (content : string) : M World bool :=
  tryCatch
    (e ← getElement radio;
     doc ← gets document;
     let name := Dom.name e in
     let form := Dom.formOwner doc radio in
     radioGroup ← queryRadioGroup form name;
     let normalizedContent := JS.trim (JS.toLowerCase content) in
     radioLoop normalizedContent radioGroup)
    (fun error => log Debug "Error injecting radio:";; mret false).

(** [parseDate] *)
Definition parseDate (dateStr : string) : option string :=
  let cleaned := JS.trim (JS.removeWords ["on"; "at"; "in"; "the"; "of"; "by"] dateStr) in
  match JSDate.newDate cleaned with
  | Some date => Some (JSDate.isoDate date)
  | None => None
  end.

(** [injectDate] *)
Definition injectDate (input : nat) (content : string) : M World bool :=
  tryCatch
    (match parseDate content with
     | Some dateString =>
         if truthy dateString then
           _ ← getElement input;
           updateElement input (Dom.setValue dateString);;
           mret true
         else mret false
     | None => mret false
     end)
    (fun error => log Debug "Error injecting date:";; mret false).

(** [injectNumber] *)
Definition injectNumber (input : nat) (content : string) : M World bool :=
  tryCatch
    (match JS.matchNumber content with
     | Some numberMatch =>
         let number := Num.parseFloat numberMatch in
         e ← getElement input;
         let min := if Dom.isInput e then Dom.min (Dom.attrs e) else "" in
         let max := if Dom.isInput e then Dom.max (Dom.attrs e) else "" in
         if (truthy min && Num.lt number (Num.parseFloat min))%bool then mret false
         else if (truthy max && Num.gt number (Num.parseFloat max))%bool then mret false
         else
           updateElement input (Dom.setValue (Num.toString number));;
           mret true
     | None => mret false
     end)
    (fun error => log Debug "Error injecting number:";; mret false).

(** [triggerChangeEvents] *)
Definition triggerChangeEvents (i : nat) : M World unit :=
  tryCatch
    (forEach (fun eventType => dispatch (Dispatch i eventType))
             ["input"; "change"; "blur"];;
     dispatch (DispatchRetargeted i "input"))
    (fun error => log Debug "Error triggering change events:").

(** [addSuccessHighlight] *)
Definition addSuccessHighlight (i : nat) : M World unit :=
  tryCatch
    (e ← getElement i;
     let originalBorder := Dom.border e in
     let originalBoxShadow := Dom.boxShadow e in
     updateElement i (Dom.setLive (Dom.withStyle
       "2px solid #10b981" "0 0 0 3px rgba(16, 185, 129, 0.1)"));;
     modify (setTimeout (RestoreStyle i originalBorder originalBoxShadow) 2000))
    (fun error => log Debug "Error adding success highlight:").

(** [showInjectionFeedback]; the two pictographs that open the messages
    are left out. *)
Definition showInjectionFeedback (successCount totalAttempts : nat) : M World unit :=
  tryCatch
    (id ← gets created;
     let background := if Nat.eqb successCount totalAttempts
                       then "#10b981" else "#f59e0b" in
     let message :=
       if Nat.eqb successCount totalAttempts
       then "All " +:+ Num.digitsOfN (N.of_nat successCount)
            +:+ " fields filled successfully!"
       else Num.digitsOfN (N.of_nat successCount) +:+ "/"
            +:+ Num.digitsOfN (N.of_nat totalAttempts)
            +:+ " fields filled successfully" in
     modify (withCreated (S id));;
     modify (withNotifications (fun ns =>
       ns ++ [mkNotification id background message "slideInRight 0.3s ease-out"]));;
     modify (setTimeout (HideNotification id) 5000))
    (fun error => log Debug "Error showing injection feedback:").

(** The [switch] of [injectSingleField]: the writer of a field type,
    [None] for the [default] branch. *)
Definition writerFor (type : string) : option (nat -> string -> M World bool) :=
  if JS.inList type ["text"; "email"; "password"; "phone"; "url"; "search"]
  then Some injectTextInput
  else if String.eqb type "textarea" then Some injectTextarea
  else if JS.inList type ["select-one"; "select-multiple"] then Some injectSelect
  else if String.eqb type "checkbox" then Some injectCheckbox
  else if String.eqb type "radio" then Some injectRadio
  else if JS.inList type ["date"; "datetime"] then Some injectDate
  else if String.eqb type "number" then Some injectNumber
  else None.

(** [injectSingleField] *)
Definition injectSingleField (field : DetectedFormField) (content : string)
  : M World bool :=
  tryCatch
    (let element := element field in
     interactable ← isElementInteractable element;
     if negb interactable then
       log Warn ("Element not interactable " +:+ label field);;
       mret false
     else
       focusElement element;;
       sleep 100;;
       match writerFor (type field) with
       | None =>
           log Warn ("Unsupported field type for injection " +:+ type field);;
           mret false
       | Some writer =>
           success ← writer element content;
           if (success : bool) then
             triggerChangeEvents element;;
             addSuccessHighlight element;;
             log Field ("Field inject: " +:+ label field +:+ " ok");;
             mret true
           else
             log Field ("Field inject: " +:+ label field +:+ " failed");;
             mret false
       end)
    (fun error => log Error "Error injecting field:";; mret false).

(** The loop of [injectAnswers], with its two counters. *)
Fixpoint answersLoop (answers : list GeneratedAnswer)
         (formFields : list DetectedFormField) (successCount totalAttempts : nat)
  : M World (nat * nat) :=
  match answers with
  | [] => mret (successCount, totalAttempts)
  | answer_ :: rest =>
      match findMatchingField (fieldLabel answer_) formFields with
      | Some matchingField =>
          let totalAttempts := S totalAttempts in
          success ← injectSingleField matchingField (answer answer_);
          if (success : bool) then
            modify (withInjected (mapSet (element matchingField) (answer answer_)));;
            answersLoop rest formFields (S successCount) totalAttempts
          else answersLoop rest formFields successCount totalAttempts
      | None => answersLoop rest formFields successCount totalAttempts
      end
  end.

(** [injectAnswers] *)
Definition injectAnswers (answers : list GeneratedAnswer)
           (formFields : list DetectedFormField) : M World bool :=
  tryCatch
    (log Info "Starting form field injection";;
     counts ← answersLoop answers formFields 0 0;
     let '(successCount, totalAttempts) := counts in
     log Success ("Field injection completed: "
                  +:+ Num.digitsOfN (N.of_nat successCount) +:+ "/"
                  +:+ Num.digitsOfN (N.of_nat totalAttempts) +:+ " successful");;
     showInjectionFeedback successCount totalAttempts;;
     mret (Nat.ltb 0 successCount))
    (fun error => log Error "Error during field injection:";; mret false).

(** The body of the loop of [clearAllInjections]. *)
Definition clearOne (entry : nat * string) : M World unit :=
  let '(element, _) := entry in
  tryCatch
    (e ← getElement element;
     (if String.eqb (Dom.tagName e) "INPUT" then
        updateElement element (Dom.setValue "")
      else if String.eqb (Dom.tagName e) "TEXTAREA" then
        updateElement element (Dom.setValue "")
      else if String.eqb (Dom.tagName e) "SELECT" then
        updateElement element
          (Dom.setLive (fun l => Dom.withOptions
             (Dom.setSelectedIndex 0 (Dom.l_options l)) l))
      else mret tt);;
     triggerChangeEvents element)
    (fun error => log Debug "Error clearing injection:").

(** [clearAllInjections] *)
Definition clearAllInjections : M World unit :=
  entries ← gets injectedFields;
  forEach clearOne entries;;
  modify (withInjected (fun _ => []));;
  log Info "All field injections cleared".

End Writers.

End Injector.

(* ===================================================================== *)
(** * A host and pages for the examples                                   *)
(* ===================================================================== *)

Module Example.
Import Dom.

(** A selector parser for the examples: a text with no quote, backslash
    or line break stands for itself between the quotes of an attribute
    selector; any other text is taken as malformed, as is [a"b], which
    leaves [b"] behind the closed string. *)
Definition plainAttrValue (s : string) : option string :=
  if existsb (fun c => (Ascii.eqb c JS.quote || Ascii.eqb c "\"
                        || JS.between 10 13 c)%bool) (list_ascii_of_string s)
  then None else Some s.

Definition monthNames : list string :=
  ["january"; "february"; "march"; "april"; "may"; "june"; "july";
   "august"; "september"; "october"; "november"; "december"].

Definition allDigits (s : string) : bool :=
  (truthy s && forallb JS.isDigit (list_ascii_of_string s))%bool.

(** A date parser for the examples, in a zone [tz] minutes east of
    Greenwich.  Like the engines, it reads [day month-name year] as
    midnight local time and the ISO form [YYYY-MM-DD] as midnight UTC;
    it takes every other text as an invalid date. *)
Definition parseIn (tz : Z) (s : string) : option Z :=
  match JS.split " " s with
  | [d; m; y] =>
      match Injector.findIndex (String.eqb (JS.toLowerCase m)) monthNames with
      | Some k =>
          if (allDigits d && allDigits y)%bool then
            Some (JSDate.daysFromCivil (Z.of_N (JS.digitsValue y)) (Z.of_nat (S k))
                    (Z.of_N (JS.digitsValue d)) * JSDate.msPerDay - tz * 60000)%Z
          else None
      | None => None
      end
  | [iso] =>
      match JS.split "-" iso with
      | [y; m; d] =>
          if (allDigits y && allDigits m && allDigits d
              && Nat.eqb (String.length y) 4 && Nat.eqb (String.length m) 2
              && Nat.eqb (String.length d) 2)%bool then
            Some (JSDate.daysFromCivil (Z.of_N (JS.digitsValue y))
                    (Z.of_N (JS.digitsValue m)) (Z.of_N (JS.digitsValue d))
                  * JSDate.msPerDay)%Z
          else None
      | _ => None
      end
  | _ => None
  end.

(** The host of the examples, its clock [tz] minutes east of Greenwich. *)
Definition hostIn (tz : Z) : Host :=
  {| cssAttrValue := plainAttrValue; dateParse := parseIn tz |}.

(** An element of kind [k] with nothing set, displayed and visible. *)
Definition blank (k : Kind) : Element :=
  mkElement
    (mkAttrs k "" None false false false false (-1) "" "" "" "" "" None None None None
             "block" "visible")
    (mkLive "" false [] "" "").

Definition setAttrs (f : Attrs -> Attrs) (e : Element) : Element :=
  mkElement (f (attrs e)) (live e).

Definition withId (v : string) : Element -> Element :=
  setAttrs (fun a => mkAttrs (kind a) v (nameAttr a) (disabled a) (readOnly a)
    (required a) (multiple a) (maxLength a) (min a) (max a) (placeholder a) (title a)
    (pattern a) (ariaLabel a) (ariaLabelledby a) (ariaRequired a) (htmlFor a)
    (display a) (visibility a)).
Definition withName (v : string) : Element -> Element :=
  setAttrs (fun a => mkAttrs (kind a) (id a) (Some v) (disabled a) (readOnly a)
    (required a) (multiple a) (maxLength a) (min a) (max a) (placeholder a) (title a)
    (pattern a) (ariaLabel a) (ariaLabelledby a) (ariaRequired a) (htmlFor a)
    (display a) (visibility a)).
Definition withDisabled (v : bool) : Element -> Element :=
  setAttrs (fun a => mkAttrs (kind a) (id a) (nameAttr a) v (readOnly a)
    (required a) (multiple a) (maxLength a) (min a) (max a) (placeholder a) (title a)
    (pattern a) (ariaLabel a) (ariaLabelledby a) (ariaRequired a) (htmlFor a)
    (display a) (visibility a)).
Definition withMaxLength (v : Z) : Element -> Element :=
  setAttrs (fun a => mkAttrs (kind a) (id a) (nameAttr a) (disabled a) (readOnly a)
    (required a) (multiple a) v (min a) (max a) (placeholder a) (title a)
    (pattern a) (ariaLabel a) (ariaLabelledby a) (ariaRequired a) (htmlFor a)
    (display a) (visibility a)).
Definition withMax (v : string) : Element -> Element :=
  setAttrs (fun a => mkAttrs (kind a) (id a) (nameAttr a) (disabled a) (readOnly a)
    (required a) (multiple a) (maxLength a) (min a) v (placeholder a) (title a)
    (pattern a) (ariaLabel a) (ariaLabelledby a) (ariaRequired a) (htmlFor a)
    (display a) (visibility a)).
Definition withFor (v : string) : Element -> Element :=
  setAttrs (fun a => mkAttrs (kind a) (id a) (nameAttr a) (disabled a) (readOnly a)
    (required a) (multiple a) (maxLength a) (min a) (max a) (placeholder a) (title a)
    (pattern a) (ariaLabel a) (ariaLabelledby a) (ariaRequired a) (Some v)
    (display a) (visibility a)).

Definition withRequired (v : bool) : Element -> Element :=
  setAttrs (fun a => mkAttrs (kind a) (id a) (nameAttr a) (disabled a) (readOnly a)
    v (multiple a) (maxLength a) (min a) (max a) (placeholder a) (title a)
    (pattern a) (ariaLabel a) (ariaLabelledby a) (ariaRequired a) (htmlFor a)
    (display a) (visibility a)).
Definition withPattern (v : string) : Element -> Element :=
  setAttrs (fun a => mkAttrs (kind a) (id a) (nameAttr a) (disabled a) (readOnly a)
    (required a) (multiple a) (maxLength a) (min a) (max a) (placeholder a) (title a)
    v (ariaLabel a) (ariaLabelledby a) (ariaRequired a) (htmlFor a)
    (display a) (visibility a)).
Definition holding (v : string) (e : Element) : Element :=
  mkElement (attrs e) (withValue v (live e)).

(** A node below the node at [p]. *)
Definition child (p : nat) (e : Element) : Node := mkNode (Some p) (Elem e).
Definition textChild (p : nat) (s : string) : Node := mkNode (Some p) (Text s).
Definition root (e : Element) : Node := mkNode None (Elem e).

(** A page at rest: nothing injected, no timer set, the clock at zero. *)
Definition page (doc : Document) : Injector.World :=
  Injector.mkWorld doc [] [] 0 [] [] 0 [].

Definition field (i : nat) (label type : string) : DetectedFormField :=
  mkField i label type false None None.

Definition answerFor (label text : string) : GeneratedAnswer :=
  mkAnswer label "text" text "0.9".

(** The state a computation ends in, returning or throwing. *)
Definition finalState {S A} (o : Eff.Outcome S A) : S :=
  match o with
  | Eff.Ok _ s => s
  | Eff.Throw _ s => s
  end.

Definition result {S A} (o : Eff.Outcome S A) : option A :=
  match o with
  | Eff.Ok a _ => Some a
  | Eff.Throw _ _ => None
  end.

End Example.

(* ===================================================================== *)
(** * The matcher as the specification words it                            *)
(* ===================================================================== *)

Module MatcherSpec.
Import Injector.

(** Step 1: the normalized labels are equal. *)
Definition equalLabels (normalizedAnswer : string) (field : DetectedFormField) : bool :=
  String.eqb (normalizeLabel (label field)) normalizedAnswer.






End MatcherSpec.

(* ===================================================================== *)
(** * What the statements about the scanner speak of                       *)
(* ===================================================================== *)

Module ScanSpec.
Import Eff Detector.

(** What the denylist of [shouldSkipField] holds. *)
Definition systemTokens : list string :=
  ["csrf"; "token"; "_token"; "authenticity_token"; "utf8"; "_method";
   "commit"; "submit"; "captcha"; "recaptcha"; "g-recaptcha-response"].

(** An element is free of the system tokens when neither its name nor its
    id, in lower case, contains one. *)
Definition freeOfSystemTokens (e : Dom.Element) : Prop :=
  Forall (fun token =>
            JS.includes (JS.toLowerCase (Dom.name e)) token = false
            /\ JS.includes (JS.toLowerCase (Dom.id (Dom.attrs e))) token = false)
         systemTokens.

(** The detector after the warning of [extractFieldInfo]. *)
Definition warned (s : State) : State :=
  mkState (detectedFields s) (console s ++ [mkLog Warn "Error extracting field info:"]).

(** The record describes an element of the document that [shouldSkipField]
    let pass. *)
Definition fromDocument (doc : Dom.Document) (f : DetectedFormField) : Prop :=
  exists e, Dom.element doc (element f) = Some e
            /\ type f = getFieldType e /\ shouldSkipField e = false.

(** The record is not classified as a button. *)
Definition notAButton (f : DetectedFormField) : Prop :=
  JS.inList (JS.toLowerCase (type f)) ["submit"; "button"; "reset"; "image"] = false.

End ScanSpec.

(* ===================================================================== *)
(** * What the statements about the writer speak of                        *)
(* ===================================================================== *)

Module WriteSpec.
Import Eff Injector.

(** Two elements that differ in their inline style at most. *)
Definition sameData (e e' : Dom.Element) : Prop :=
  Dom.attrs e = Dom.attrs e'
  /\ Dom.l_value (Dom.live e) = Dom.l_value (Dom.live e')
  /\ Dom.l_checked (Dom.live e) = Dom.l_checked (Dom.live e')
  /\ Dom.l_options (Dom.live e) = Dom.l_options (Dom.live e').

(** The second document has the elements of the first, with the same
    attributes, values, checked states and options. *)
Definition styleOnly (doc doc' : Dom.Document) : Prop :=
  forall (i : nat) (e : Dom.Element),
    Dom.element doc i = Some e ->
    exists e', Dom.element doc' i = Some e' /\ sameData e e'.

(** [isElementInteractable] on the element itself. *)
Definition interactable (e : Dom.Element) : bool :=
  (negb (String.eqb (Dom.display (Dom.attrs e)) "none")
   && negb (String.eqb (Dom.visibility (Dom.attrs e)) "hidden")
   && negb (Dom.disabled (Dom.attrs e))
   && negb (Dom.readOnly (Dom.attrs e)))%bool.

(** The state in which the writer of a field runs: the element has been
    focused and 100 ms have passed. *)
Definition ready (i : nat) (w : World) : World :=
  elapse 100 (withEvents (fun es => es ++ [Focus i]) w).

(** The queue holds the timers by due time. *)
Fixpoint sortedQueue (q : list Timer) : Prop :=
  match q with
  | [] => True
  | tm :: rest => Forall (fun tm' => due tm <= due tm') rest /\ sortedQueue rest
  end.

Definition isHide (tm : Timer) : Prop :=
  match callback tm with
  | HideNotification _ => True
  | _ => False
  end.

(** Every timer of the queue, and the timer it may set, is due by [t]. *)
Definition drains (t : nat) (w : World) : Prop :=
  sortedQueue (timers w)
  /\ Forall (fun tm => due tm <= t) (timers w)
  /\ Forall (fun tm => isHide tm -> due tm + 300 <= t) (timers w)
  /\ (Exists isHide (timers w) -> now w + 300 <= t).


(** What [clearAllInjections] makes of an element of the registry: an
    [INPUT] or a [TEXTAREA] gets the empty value, a [SELECT] gets its
    first option selected and no other. *)
Definition cleared (e : Dom.Element) : Dom.Element :=
  if (String.eqb (Dom.tagName e) "INPUT" || String.eqb (Dom.tagName e) "TEXTAREA")%bool
  then Dom.setValue "" e
  else if String.eqb (Dom.tagName e) "SELECT"
       then Dom.setLive (fun l => Dom.withOptions
                                    (Dom.setSelectedIndex 0 (Dom.l_options l)) l) e
       else e.

(** The document after the elements at the positions [keys] were cleared
    one after the other. *)
Definition clearedAt (keys : list nat) (doc : Dom.Document) : Dom.Document :=
  fold_left (fun d i => Dom.update i cleared d) keys doc.

End WriteSpec.

(* ===================================================================== *)
(** * The batch as the specification words it                              *)
(* ===================================================================== *)

Module BatchSpec.
Import Eff Injector.

(** What becomes of one answer: no field matched it, or the write to the
    matched field failed, or it succeeded. *)
Inductive Attempt :=
| Dropped
| Failed (field : DetectedFormField)
| Written (field : DetectedFormField).

Definition isWritten (a : Attempt) : bool :=
  match a with
  | Written _ => true
  | _ => false
  end.

Definition isAttempt (a : Attempt) : bool :=
  match a with
  | Dropped => false
  | _ => true
  end.

(** For each answer in turn: the matcher, then the writer on the page as
    the answers before left it. *)
Fixpoint attempts `{Host} (answers : list GeneratedAnswer)
         (formFields : list DetectedFormField) (w : World) : list Attempt :=
  match answers with
  | [] => []
  | answer_ :: rest =>
      match findMatchingField (fieldLabel answer_) formFields with
      | None => Dropped :: attempts rest formFields w
      | Some field =>
          match injectSingleField field (answer answer_) w with
          | Ok true w' =>
              Written field
              :: attempts rest formFields
                   (withInjected (mapSet (element field) (answer answer_)) w')
          | Ok false w' | Throw _ w' => Failed field :: attempts rest formFields w'
          end
      end
  end.

(** The page when the loop of [injectAnswers] starts: the opening line is
    on the console. *)
Definition started (w : World) : World :=
  withConsole (fun c => c ++ [mkLog Info "Starting form field injection"]) w.

(** The answers the matcher binds to a field. *)
Definition matched (formFields : list DetectedFormField) (answers : list GeneratedAnswer)
  : list GeneratedAnswer :=
  List.filter (fun a => bool_decide (is_Some (findMatchingField (fieldLabel a) formFields)))
              answers.

End BatchSpec.

(* ===================================================================== *)
(** * What the further statements speak of                                 *)
(* ===================================================================== *)

(** ** The shape of a label *)

Module Shape.

(** The character at the head of [s] is white space. *)
Definition headIsSpace (s : string) : bool :=
  match s with
  | EmptyString => false
  | String c _ => JS.isSpace c
  end.

(** Every character of [s] is a space or satisfies [p], the characters
    that satisfy [p] are no white space, and no space follows a space;
    [afterSpace] tells that a space stands before [s]. *)
Fixpoint spaced (p : ascii -> bool) (afterSpace : bool) (s : string) : bool :=
  match s with
  | EmptyString => true
  | String c r =>
      if Ascii.eqb c " " then (negb afterSpace && spaced p true r)%bool
      else (p c && negb (JS.isSpace c) && spaced p false r)%bool
  end.

(** What [normalizeLabel] keeps besides the space. *)
Definition isAlnum (c : ascii) : bool := (JS.isLower c || JS.isDigit c)%bool.

(** What [cleanLabelText] keeps besides the space. *)
Definition isInk (c : ascii) : bool := negb (JS.isSpace c).

(** Neither an underscore nor a hyphen. *)
Definition noDash (c : ascii) : bool := negb (Ascii.eqb c "_" || Ascii.eqb c "-").

End Shape.

(** ** What an injection leaves alone *)

Module FrameSpec.
Import Injector.

(** The page but for its document and its console. *)
Definition around (w : World) :=
  (injectedFields w, events w, now w, timers w, notifications w, created w).

(** The second document has the elements of the first, with the same
    attributes and the same inline style. *)
Definition sameStyle (doc doc' : Dom.Document) : Prop :=
  forall (i : nat) (e : Dom.Element),
    Dom.element doc i = Some e ->
    exists e', Dom.element doc' i = Some e'
      /\ Dom.attrs e' = Dom.attrs e
      /\ Dom.border e' = Dom.border e /\ Dom.boxShadow e' = Dom.boxShadow e.

(** What [triggerChangeEvents] dispatches on the element at [i]. *)
Definition changeEvents (i : nat) : list DomEvent :=
  [Dispatch i "input"; Dispatch i "change"; Dispatch i "blur";
   DispatchRetargeted i "input"].

(** A writer returns, changes the document and the console at most,
    leaves the document alone when it answers [false], and changes no
    attribute and no inline style. *)
Definition wellBehaved (writer : nat -> string -> Eff.M World bool) : Prop :=
  forall (i : nat) (content : string) (w : World),
    exists (b : bool) (w' : World),
      writer i content w = Eff.Ok b w'
      /\ around w' = around w
      /\ (b = false -> document w' = document w)
      /\ sameStyle (document w) (document w').

End FrameSpec.

(** ** Timers and notifications *)

Module QueueSpec.
Import Injector WriteSpec.

(** Every notification on the page has a timer pending that hides or
    removes it. *)
Definition covered (w : World) : Prop :=
  forall n, In n (notifications w) ->
    exists tm, In tm (timers w)
      /\ (callback tm = HideNotification (n_id n)
          \/ callback tm = RemoveNotification (n_id n)).

(** The timers are queued by due time and cover the notifications. *)
Definition orderly (w : World) : Prop := sortedQueue (timers w) /\ covered w.

End QueueSpec.

(** ** The catalog of a document *)

Module CatalogSpec.
Import Eff Detector.

(** The selector [label[for="..."]] built from the id of the element is
    well formed, or the element has no id and none is built. *)
Definition wellFormedId `{Host} (e : Dom.Element) : bool :=
  (negb (truthy (Dom.id (Dom.attrs e)))
   || bool_decide (is_Some (cssAttrValue (Dom.id (Dom.attrs e)))))%bool.

(** The computation returns from every state, having added the records
    [added] to the detected fields and the lines [logged] to the console. *)
Definition appends (m : M State unit) (added : list DetectedFormField)
           (logged : list LogEntry) : Prop :=
  forall s, m s = Ok tt (mkState (detectedFields s ++ added) (console s ++ logged)).

(** The records [added] are those of the candidates that
    [shouldSkipField] lets pass and whose id makes a well-formed selector:
    each record describes such a candidate, and each such candidate has a
    record. *)
Definition recordsAmong `{Host} (candidates : list (nat * Dom.Element))
           (added : list DetectedFormField) : Prop :=
  (forall f, In f added ->
     exists e, In (element f, e) candidates /\ shouldSkipField e = false
               /\ wellFormedId e = true /\ type f = getFieldType e)
  /\ (forall i e, In (i, e) candidates -> shouldSkipField e = false ->
        wellFormedId e = true -> exists f, In f added /\ element f = i).

(** The element at [i] is one the scan lists: an [input], a [textarea] or
    a [select] that [shouldSkipField] lets pass, whose id makes a
    well-formed selector, and whose type is not that of a button. *)
Definition listed `{Host} (doc : Dom.Document) (i : nat) (e : Dom.Element) : Prop :=
  Dom.element doc i = Some e /\ Dom.isField e = true
  /\ shouldSkipField e = false /\ wellFormedId e = true
  /\ JS.inList (JS.toLowerCase (getFieldType e)) ["submit"; "button"; "reset"; "image"]
     = false.

(** What the two loops of [detectFields] go through: the fields of every
    form, form by form, then the fields that lie in no form. *)
Definition candidates (doc : Dom.Document) : list (nat * Dom.Element) :=
  flat_map (fun form => Dom.querySelectorAll doc (Some (fst form)) Dom.isField)
           (Dom.querySelectorAll doc None Dom.isForm)
  ++ List.filter (fun input => negb (bool_decide
                    (is_Some (Dom.closest doc Dom.isForm (fst input)))))
                 (Dom.querySelectorAll doc None Dom.isField).

End CatalogSpec.

(* ===================================================================== *)
(** * Pages for the examples                                              *)
(* ===================================================================== *)

Module Pages.
Import Dom Example.

Definition body : Node := root (blank (Other "BODY")).

(** A page with one text input of maximum length 10. *)
Definition shortText : Element := withMaxLength 10 (withName "nick" (blank (Input text))).
Definition textPage : Injector.World := page [body; child 0 shortText].
Definition textField : DetectedFormField := field 1 "Nickname" "text".

(** A page with one number input of maximum 100. *)
Definition bounded : Element := withMax "100" (withName "count" (blank (Input number))).
Definition numberPage : Injector.World := page [body; child 0 bounded].
Definition numberField : DetectedFormField := field 1 "Count" "number".

(** A page with one checkbox. *)
Definition box : Element := withName "agree" (blank (Input checkbox)).
Definition boxPage : Injector.World := page [body; child 0 box].
Definition boxField : DetectedFormField := field 1 "Agree" "checkbox".

(** A page with one date input. *)
Definition birthday : Element := withName "dob" (blank (Input date)).
Definition datePage : Injector.World := page [body; child 0 birthday].
Definition dateField : DetectedFormField := field 1 "Date of birth" "date".

(** A page with one text input, and one answer for it. *)
Definition nameInput : Element := withName "fullName" (blank (Input text)).
Definition namePage : Injector.World := page [body; child 0 nameInput].
Definition nameCatalog : list DetectedFormField := [field 1 "Full Name" "text"].
Definition nameAnswers : list GeneratedAnswer := [answerFor "Full Name" "Jane Doe"].


(** The sign-up form of the specification: a name, a required e-mail
    address and comments of at most 50 characters, each under its label. *)
Definition signupDoc : Document :=
  [ body;
    child 0 (blank Form);
    child 1 (withFor "fn" (blank Label));
    textChild 2 "Full Name";
    child 1 (withId "fn" (withName "fullName" (blank (Input text))));
    child 1 (withFor "em" (blank Label));
    textChild 5 "Email Address";
    child 1 (withRequired true (withId "em" (withName "email" (blank (Input email)))));
    child 1 (withFor "cm" (blank Label));
    textChild 8 "Comments";
    child 1 (withMaxLength 50 (withId "cm" (withName "comments" (blank Textarea)))) ].

(** Sixty characters. *)
Definition sixty : string :=
  "012345678901234567890123456789012345678901234567890123456789"%string.

Definition signupAnswers : list GeneratedAnswer :=
  [answerFor "Full Name" "Jane Doe"; answerFor "Email Address" "jane@x.com";
   answerFor "Comments" sixty].

(** The radio group of the specification: two buttons named [gender],
    each followed by its text. *)
Definition genderDoc : Document :=
  [ body;
    child 0 (blank Form);
    child 1 (holding "male" (withName "gender" (blank (Input radio))));
    textChild 1 " Male ";
    child 1 (holding "female" (withName "gender" (blank (Input radio))));
    textChild 1 " Female " ].

(** A text input with a length hint in its pattern and no [maxlength]. *)
Definition hinted : Element := withPattern "[a-z]{3,5}" (withName "code" (blank (Input text))).
Definition hintedDoc : Document := [body; child 0 hinted].

(** The catalog a scan of the document yields. *)
Definition scan `{Host} (doc : Document) : list DetectedFormField :=
  default [] (result (Detector.detectFields doc (Detector.mkState [] []))).

(** The page after [injectAnswers] ran. *)
Definition inject `{Host} (w : Injector.World) : Injector.World :=
  finalState (Injector.injectAnswers nameAnswers nameCatalog w).

(** One run, then every timer fires. *)
Definition once `{Host} : Injector.World := Injector.settle (inject namePage).

(** Two runs, the second as soon as the first has returned, then every
    timer fires. *)
Definition twice `{Host} : Injector.World := Injector.settle (inject (inject namePage)).

(** Two runs, the second after the timers of the first have fired. *)
Definition twiceApart `{Host} : Injector.World :=
  Injector.settle (inject (Injector.settle (inject namePage))).

(** What the code writes to an element, and its inline border. *)
Definition look (w : Injector.World) (i : nat) : option (string * bool * string) :=
  e ← Dom.element (Injector.document w) i;
  Some (Dom.value e, Dom.checked e, Dom.border e).

(** A page with one disabled text input. *)
Definition locked : Element := withDisabled true (withName "nick" (blank (Input text))).
Definition lockedPage : Injector.World := page [body; child 0 locked].

(** A page with one [select] of three options, the first selected. *)
Definition countries : Element :=
  mkElement (attrs (withName "country" (blank Select)))
            (mkLive "" false
               [mkOption "Choose" "" true; mkOption "France" "fr" false;
                mkOption "Germany" "de" false] "" "").
Definition countryPage : Injector.World := page [body; child 0 countries].

(** A number input with no label and no name, behind a [span] that says
    what it is for. *)
Definition ageDoc : Document :=
  [body; child 0 (blank (Other "SPAN")); textChild 1 " Your age "; child 0 (blank (Input number))].

End Pages.

(* ===================================================================== *)
(** * Theorems                                                            *)
(* ===================================================================== *)

Import ScanSpec WriteSpec.

(** ** The matcher *)

Section MatcherFacts.
Import Injector MatcherSpec.




Lemma exactLoop_find (na : string) (fields : list DetectedFormField) :
  exactLoop na fields = List.find (equalLabels na) fields.
Proof.
  induction fields as [|field rest IH]; simpl; [reflexivity|].
  unfold equalLabels at 1. destruct (String.eqb _ _); [reflexivity|exact IH].
Qed.


Lemma find_ext_Qeq (kw : list string) (a b : Q) (fields : list DetectedFormField) :
  (a == b)%Q ->
  List.find (fun f => Qeq_bool (fieldScore kw f) a) fields
  = List.find (fun f => Qeq_bool (fieldScore kw f) b) fields.
Proof.
  intros Hab. induction fields as [|field rest IH]; simpl; [reflexivity|].
  rewrite IH.
  destruct (Qeq_bool (fieldScore kw field) a) eqn:Ha,
           (Qeq_bool (fieldScore kw field) b) eqn:Hb; try reflexivity.
  - apply Qeq_bool_iff in Ha. apply not_true_iff_false in Hb.
    rewrite Qeq_bool_iff in Hb. exfalso. apply Hb. lra.
  - apply Qeq_bool_iff in Hb. apply not_true_iff_false in Ha.
    rewrite Qeq_bool_iff in Ha. exfalso. apply Ha. lra.
Qed.


End MatcherFacts.


(** ** The first numeric token *)

Section NumberTokenFacts.
Import JS.







End NumberTokenFacts.

(** ** Computations that cannot throw *)

Ltac eff_unfold :=
  unfold mbind, M_bind, mret, M_ret, Eff.bind, Eff.ret, Eff.throw, Eff.tryCatch,
    Eff.gets, Eff.get, Eff.modify in *.

Section Returns.
Import Eff.
Context {S : Type}.

Lemma returns_ret {A} (a : A) : returns (mret a : M S A).
Proof. intros s. exists a, s. reflexivity. Qed.

Lemma returns_bind {A B} (m : M S A) (k : A -> M S B) :
  returns m -> (forall a, returns (k a)) -> returns (m ≫= k).
Proof.
  intros Hm Hk s. destruct (Hm s) as (a & s1 & Hs).
  destruct (Hk a s1) as (b & s2 & Hs2).
  exists b, s2. eff_unfold. rewrite Hs. exact Hs2.
Qed.

Lemma returns_modify (f : S -> S) : returns (modify f).
Proof. intros s. exists tt, (f s). reflexivity. Qed.

Lemma returns_gets {A} (f : S -> A) : returns (gets f).
Proof. intros s. exists (f s), s. reflexivity. Qed.

(** A [try] whose handler returns, returns. *)
Lemma returns_tryCatch {A} (m : M S A) (h : Exception -> M S A) :
  (forall e, returns (h e)) -> returns (tryCatch m h).
Proof.
  intros Hh s. unfold tryCatch. destruct (m s) as [a s1|e s1].
  - exists a, s1. reflexivity.
  - apply Hh.
Qed.

Lemma returns_forEach {A} (body : A -> M S unit) (xs : list A) :
  (forall x, returns (body x)) -> returns (forEach body xs).
Proof.
  intros Hb. induction xs as [|x r IH]; simpl.
  - apply (returns_ret tt).
  - apply (returns_bind (body x) (fun _ => forEach body r)); auto.
Qed.

End Returns.

(** ** The scanner *)

Section DetectorFacts.
Import Eff Detector.
Context `{Host}.
Variable doc : Dom.Document.

(** Resolving a label reads the document and leaves the detector alone. *)
Lemma findFieldLabel_pure (i : nat) (e : Dom.Element) (s : State) :
  (exists l, findFieldLabel doc i e s = Ok l s)
  \/ (exists err, findFieldLabel doc i e s = Throw err s).
Proof.
  unfold findFieldLabel, queryLabelFor. eff_unfold.
  destruct (truthy (Dom.id (Dom.attrs e))); [|left; eauto].
  destruct (cssAttrValue (Dom.id (Dom.attrs e))); [left|right]; eauto.
Qed.

Lemma isFieldRequired_pure (i : nat) (e : Dom.Element) (s : State) :
  (exists b, isFieldRequired doc i e s = Ok b s)
  \/ (exists err, isFieldRequired doc i e s = Throw err s).
Proof.
  unfold isFieldRequired.
  destruct (Dom.required (Dom.attrs e)); [left; eexists; reflexivity|].
  destruct (bool_decide _); [left; eexists; reflexivity|].
  destruct (findFieldLabel_pure i e s) as [[l Hl]|[err Herr]]; eff_unfold.
  - left. rewrite Hl. destruct (_ || _)%bool; eauto.
  - right. rewrite Herr. eauto.
Qed.

(** The [try] block either builds the record of the element or throws;
    it changes nothing. *)
Lemma readFieldInfo_cases (i : nat) (e : Dom.Element) (s : State) :
  (exists f, readFieldInfo doc i e s = Ok (Some f) s
             /\ element f = i /\ type f = getFieldType e)
  \/ (exists err, readFieldInfo doc i e s = Throw err s).
Proof.
  unfold readFieldInfo.
  destruct (findFieldLabel_pure i e s) as [[l Hl]|[err Herr]]; eff_unfold.
  - rewrite Hl.
    destruct (isFieldRequired_pure i e s) as [[b Hb]|[err Herr]]; eff_unfold.
    + rewrite Hb. left. eexists. split; [reflexivity|]. split; reflexivity.
    + rewrite Herr. right. eauto.
  - rewrite Herr. right. eauto.
Qed.

(** A throw of the [try] block is caught: [extractFieldInfo] logs a
    warning and returns [null]. *)
Lemma extractFieldInfo_caught (i : nat) (e : Dom.Element) (s : State) (err : Exception) :
  readFieldInfo doc i e s = Throw err s ->
  extractFieldInfo doc i e s = Ok None (warned s).
Proof.
  intros Hthrow. unfold extractFieldInfo, tryCatch. rewrite Hthrow. reflexivity.
Qed.

Lemma extractFieldInfo_cases (i : nat) (e : Dom.Element) (s : State) :
  (exists f, extractFieldInfo doc i e s = Ok (Some f) s
             /\ element f = i /\ type f = getFieldType e)
  \/ (exists err, readFieldInfo doc i e s = Throw err s
                  /\ extractFieldInfo doc i e s = Ok None (warned s)).
Proof.
  destruct (readFieldInfo_cases i e s) as [(f & Hf & Hel & Hty)|[err Herr]].
  - left. exists f. unfold extractFieldInfo, tryCatch. rewrite Hf. auto.
  - right. exists err. split; [exact Herr|]. eapply extractFieldInfo_caught, Herr.
Qed.

(** What [processFieldElement] adds to the detected fields: nothing, or
    the record of its element, which it did not skip. *)
Lemma processFieldElement_cases (i : nat) (e : Dom.Element) (s : State) :
  exists (added : list DetectedFormField) (logged : list LogEntry),
    processFieldElement doc (i, e) s
    = Ok tt (mkState (detectedFields s ++ added) (console s ++ logged))
    /\ Forall (fun f => element f = i /\ type f = getFieldType e
                        /\ shouldSkipField e = false) added.
Proof.
  unfold processFieldElement.
  destruct (shouldSkipField e) eqn:Hskip.
  - exists [], []. rewrite !app_nil_r. destruct s. split; [reflexivity|constructor].
  - destruct (extractFieldInfo_cases i e s) as [(f & Hf & Hel & Hty)|(err & _ & Hn)];
      eff_unfold.
    + rewrite Hf. exists [f]. eexists. split; [reflexivity|].
      constructor; [auto|constructor].
    + rewrite Hn. exists []. eexists. unfold warned. rewrite app_nil_r.
      split; [reflexivity|constructor].
Qed.

Lemma forEach_process (guard : nat * Dom.Element -> bool)
      (candidates : list (nat * Dom.Element)) :
  Forall (fun ie => Dom.element doc (fst ie) = Some (snd ie)) candidates ->
  forall s, exists added logged,
    forEach (fun ie => if guard ie then processFieldElement doc ie else mret tt)
            candidates s
    = Ok tt (mkState (detectedFields s ++ added) (console s ++ logged))
    /\ Forall (fromDocument doc) added.
Proof.
  induction 1 as [|[i e] rest Hie _ IH]; intros s.
  - exists [], []. rewrite !app_nil_r. destruct s. split; [reflexivity|constructor].
  - cbn [forEach]. unfold Eff.bind.
    destruct (guard (i, e)).
    + destruct (processFieldElement_cases i e s) as (a1 & l1 & Hp & Ha1).
      rewrite Hp.
      destruct (IH (mkState (detectedFields s ++ a1) (console s ++ l1)))
        as (a2 & l2 & Hrest & Ha2).
      rewrite Hrest. cbn [detectedFields console].
      exists (a1 ++ a2), (l1 ++ l2). rewrite !app_assoc. split; [reflexivity|].
      apply Forall_app. split; [|exact Ha2].
      eapply Forall_impl; [exact Ha1|].
      intros f (Hel & Hty & Hskip). exists e. rewrite Hel. auto.
    + destruct (IH s) as (a2 & l2 & Hrest & Ha2).
      eff_unfold. rewrite Hrest. eauto.
Qed.

End DetectorFacts.

Section ScanFacts.
Import Eff Detector.
Context `{Host}.
Variable doc : Dom.Document.

Lemma elementsWhere_element (p : nat -> Dom.Element -> bool) (i : nat) (e : Dom.Element) :
  (i, e) ∈ Dom.elementsWhere doc p -> Dom.element doc i = Some e /\ p i e = true.
Proof.
  unfold Dom.elementsWhere. intros Hin.
  apply list_elem_of_omap in Hin as ([j n] & Hjn & Hsome).
  apply elem_of_lookup_imap in Hjn as (k & n' & Heq & Hk).
  injection Heq as -> ->.
  destruct n' as [par [d|e']]; simpl in Hsome; [discriminate|].
  destruct (p k e') eqn:Hp; [|discriminate].
  injection Hsome as <- <-.
  unfold Dom.element. rewrite Hk. auto.
Qed.

Lemma querySelectorAll_elements (scope : option nat) (p : Dom.Element -> bool) :
  Forall (fun ie => Dom.element doc (fst ie) = Some (snd ie))
         (Dom.querySelectorAll doc scope p).
Proof.
  apply Forall_forall. intros [i e] Hin.
  apply elementsWhere_element in Hin. tauto.
Qed.

Lemma processFormElements_adds (form : nat * Dom.Element) (s : State) :
  exists added logged,
    processFormElements doc form s
    = Ok tt (mkState (detectedFields s ++ added) (console s ++ logged))
    /\ Forall (fromDocument doc) added.
Proof.
  unfold processFormElements. eff_unfold.
  destruct (forEach_process doc (fun _ => true)
              (Dom.querySelectorAll doc (Some form.1) Dom.isField)
              (querySelectorAll_elements _ _) s) as (added & logged & Hrun & Hadded).
  cbv beta iota in Hrun.
  change (forEach (λ ie, processFieldElement doc ie)) with (forEach (processFieldElement doc)) in Hrun.
  rewrite Hrun. unfold log, modify. cbn [detectedFields console].
  exists added. eexists. rewrite <- app_assoc. split; [reflexivity|exact Hadded].
Qed.

Lemma forEach_forms (forms : list (nat * Dom.Element)) :
  forall s, exists added logged,
    forEach (processFormElements doc) forms s
    = Ok tt (mkState (detectedFields s ++ added) (console s ++ logged))
    /\ Forall (fromDocument doc) added.
Proof.
  induction forms as [|form rest IH]; intros s.
  - exists [], []. rewrite !app_nil_r. destruct s. split; [reflexivity|constructor].
  - cbn [forEach]. unfold Eff.bind.
    destruct (processFormElements_adds form s) as (a1 & l1 & Hp & Ha1). rewrite Hp.
    destruct (IH (mkState (detectedFields s ++ a1) (console s ++ l1)))
      as (a2 & l2 & Hrest & Ha2).
    rewrite Hrest. cbn [detectedFields console].
    exists (a1 ++ a2), (l1 ++ l2). rewrite !app_assoc. split; [reflexivity|].
    apply Forall_app. auto.
Qed.

(** The loop keeps first occurrences only, and no button. *)
Lemma filterLoop_keeps (fields : list DetectedFormField) :
  forall (seen : gset nat) (filtered : list DetectedFormField),
    (forall x, x ∈ seen <-> x ∈ map element filtered) ->
    NoDup (map element filtered) ->
    NoDup (map element (filterLoop fields seen filtered))
    /\ forall f, f ∈ filterLoop fields seen filtered ->
                 f ∈ filtered \/ (f ∈ fields /\ notAButton f).
Proof.
  induction fields as [|field rest IH]; intros seen filtered Hseen Hnd; cbn [filterLoop].
  - split; [exact Hnd|]. auto.
  - case_bool_decide as Hin.
    + destruct (IH seen filtered Hseen Hnd) as [IH1 IH2]. split; [exact IH1|].
      intros f Hf. destruct (IH2 f Hf) as [?|[? ?]]; [auto|].
      right. split; [right; assumption|assumption].
    + destruct (JS.inList _ _) eqn:Hbutton.
      * destruct (IH seen filtered Hseen Hnd) as [IH1 IH2]. split; [exact IH1|].
        intros f Hf. destruct (IH2 f Hf) as [?|[? ?]]; [auto|].
        right. split; [right; assumption|assumption].
      * destruct (IH ({[element field]} ∪ seen) (filtered ++ [field])) as [IH1 IH2].
        -- intros x. rewrite map_app, elem_of_app, elem_of_union, elem_of_singleton.
           cbn [map]. rewrite list_elem_of_singleton, Hseen. tauto.
        -- rewrite map_app. apply NoDup_app. split; [exact Hnd|].
           split; [|cbn; apply NoDup_singleton].
           intros x Hx Hx'. cbn in Hx'. apply list_elem_of_singleton in Hx'. subst x.
           apply Hin, Hseen, Hx.
        -- split; [exact IH1|].
           intros f Hf. destruct (IH2 f Hf) as [Hf'|[? ?]].
           ++ apply elem_of_app in Hf' as [?|Hf']; [auto|].
              apply list_elem_of_singleton in Hf'. subst f.
              right. split; [left|exact Hbutton].
           ++ right. split; [right; assumption|assumption].
Qed.

Lemma filterAndDeduplicateFields_keeps (fields : list DetectedFormField) :
  NoDup (map element (filterAndDeduplicateFields fields))
  /\ forall f, f ∈ filterAndDeduplicateFields fields -> f ∈ fields /\ notAButton f.
Proof.
  unfold filterAndDeduplicateFields.
  destruct (filterLoop_keeps fields ∅ []) as [Hnd Hin].
  - intros x. cbn. rewrite elem_of_empty, elem_of_nil. tauto.
  - constructor.
  - split; [exact Hnd|]. intros f Hf.
    destruct (Hin f Hf) as [Hnil|?]; [|assumption].
    apply elem_of_nil in Hnil. contradiction.
Qed.

(** The scan as a whole: it returns, and hands out the filtered records
    of what the two loops collected. *)
Lemma detectFields_result (s : State) :
  exists (collected : list DetectedFormField) (logged : list LogEntry),
    detectFields doc s
    = Ok (filterAndDeduplicateFields collected)
         (mkState (filterAndDeduplicateFields collected) logged)
    /\ Forall (fromDocument doc) collected.
Proof.
  unfold detectFields. eff_unfold. unfold setDetected, log, modify.
  cbn [detectedFields console].
  match goal with
  | |- context [forEach (processFormElements doc) ?forms ?s0] =>
      destruct (forEach_forms forms s0) as (a1 & l1 & H1 & Ha1)
  end.
  rewrite H1. cbn [detectedFields console].
  match goal with
  | |- context [forEach ?body ?inputs ?s0] =>
      destruct (forEach_process doc
                  (fun input => negb (bool_decide
                     (is_Some (Dom.closest doc Dom.isForm input.1))))
                  inputs (querySelectorAll_elements _ _) s0) as (a2 & l2 & H2 & Ha2)
  end.
  eff_unfold. rewrite H2. cbn [detectedFields console app].
  exists (a1 ++ a2). eexists. split; [reflexivity|].
  apply Forall_app. auto.
Qed.

End ScanFacts.

Lemma shouldSkipField_false (e : Dom.Element) :
  Detector.shouldSkipField e = false ->
  String.eqb (Dom.type e) "hidden" = false
  /\ Dom.disabled (Dom.attrs e) = false
  /\ freeOfSystemTokens e.
Proof.
  unfold Detector.shouldSkipField.
  destruct (String.eqb (Dom.type e) "hidden"); [discriminate|].
  destruct (Dom.disabled (Dom.attrs e)); [discriminate|].
  destruct (_ && _ && _)%bool; [discriminate|].
  destruct (existsb _ Detector.skipNames) eqn:Hdeny; [discriminate|].
  intros _. split; [reflexivity|]. split; [reflexivity|].
  unfold freeOfSystemTokens, systemTokens.
  apply Forall_forall. intros token Hin.
  apply list_elem_of_In in Hin.
  destruct (JS.includes (JS.toLowerCase (Dom.name e)) token
            || JS.includes (JS.toLowerCase (Dom.id (Dom.attrs e))) token)%bool eqn:Hor.
  - exfalso. rewrite <- not_true_iff_false in Hdeny. apply Hdeny.
    apply existsb_exists. exists token. split; [exact Hin|exact Hor].
  - apply orb_false_iff in Hor. exact Hor.
Qed.

(** A record the filter kept is not classified as a button. *)
Lemma notAButton_type (f : DetectedFormField) :
  notAButton f -> JS.inList (type f) ["submit"; "button"; "reset"; "image"] = false.
Proof.
  unfold notAButton. intros Hlow.
  destruct (JS.inList (type f) _) eqn:Hin; [|reflexivity].
  unfold JS.inList in Hin. apply existsb_exists in Hin as (x & Hx & Heq).
  apply String.eqb_eq in Heq. rewrite Heq in Hlow.
  cbn in Hx. destruct Hx as [<-|[<-|[<-|[<-|[]]]]]; vm_compute in Hlow; discriminate.
Qed.

(** C2. For every document, [detectFields] returns a catalog in which no
    two records refer to the same element, and every record refers to an
    element of the document whose type is not [hidden], that is not
    disabled, and whose name and id, in lower case, contain none of the
    system tokens; and no record is classified as submit, button, reset or
    image. *)
Theorem scan_excludes_system_fields `{Host} (doc : Dom.Document) (s : Detector.State) :
  exists (fields : list DetectedFormField) (s' : Detector.State),
    Detector.detectFields doc s = Eff.Ok fields s'
    /\ NoDup (map element fields)
    /\ Forall (fun f =>
         (exists e, Dom.element doc (element f) = Some e
                    /\ String.eqb (Dom.type e) "hidden" = false
                    /\ Dom.disabled (Dom.attrs e) = false
                    /\ freeOfSystemTokens e)
         /\ JS.inList (type f) ["submit"; "button"; "reset"; "image"] = false)
       fields.
Proof.
  destruct (detectFields_result doc s) as (collected & logged & Hrun & Hcollected).
  destruct (filterAndDeduplicateFields_keeps collected) as [Hnd Hkept].
  eexists. eexists. split; [exact Hrun|]. split; [exact Hnd|].
  apply Forall_forall. intros f Hf.
  destruct (Hkept f Hf) as [Hin Hbutton].
  rewrite Forall_forall in Hcollected.
  destruct (Hcollected f Hin) as (e & He & _ & Hskip).
  apply shouldSkipField_false in Hskip as (Hhidden & Hdisabled & Htokens).
  split; [exists e; auto|]. apply notAButton_type, Hbutton.
Qed.


(** ** The document under the writes *)

Section DomFacts.
Import Dom.

Lemma sameData_refl (e : Element) : sameData e e.
Proof. repeat split. Qed.

Lemma sameData_trans (e1 e2 e3 : Element) :
  sameData e1 e2 -> sameData e2 e3 -> sameData e1 e3.
Proof.
  intros (A1 & V1 & C1 & O1) (A2 & V2 & C2 & O2).
  repeat split; congruence.
Qed.


Lemma sameData_style (e : Element) (b s : string) :
  sameData e (setLive (withStyle b s) e).
Proof. repeat split. Qed.

Lemma styleOnly_refl (doc : Document) : styleOnly doc doc.
Proof. intros i e He. exists e. split; [exact He|apply sameData_refl]. Qed.

Lemma styleOnly_trans (d1 d2 d3 : Document) :
  styleOnly d1 d2 -> styleOnly d2 d3 -> styleOnly d1 d3.
Proof.
  intros H12 H23 i e He.
  destruct (H12 i e He) as (e2 & He2 & S12).
  destruct (H23 i e2 He2) as (e3 & He3 & S23).
  exists e3. split; [exact He3|]. eapply sameData_trans; eassumption.
Qed.

(** Reading after a write: the element written to is the image of the old
    one; every other element is as it was. *)
Lemma element_update (j : nat) (f : Element -> Element) (doc : Document) (i : nat) :
  element (update j f doc) i
  = if decide (i = j) then f <$> element doc i else element doc i.
Proof.
  unfold update, element.
  destruct (doc !! j) as [[p [d|e]]|] eqn:Hj.
  - destruct (decide (i = j)) as [->|Hne]; [rewrite Hj|]; reflexivity.
  - destruct (decide (i = j)) as [->|Hne].
    + rewrite list_lookup_insert_eq by (eapply lookup_lt_Some; eassumption).
      rewrite Hj. reflexivity.
    + rewrite list_lookup_insert_ne by congruence. reflexivity.
  - destruct (decide (i = j)) as [->|Hne]; [rewrite Hj|]; reflexivity.
Qed.

Lemma element_update_same (j : nat) (f : Element -> Element) (doc : Document)
      (e : Element) :
  element doc j = Some e -> element (update j f doc) j = Some (f e).
Proof.
  intros He. rewrite element_update. destruct (decide (j = j)); [|congruence].
  rewrite He. reflexivity.
Qed.

Lemma update_styleOnly (j : nat) (b s : string) (doc : Document) :
  styleOnly doc (update j (setLive (withStyle b s)) doc).
Proof.
  intros i e He. rewrite element_update.
  destruct (decide (i = j)) as [->|Hne].
  - rewrite He. eexists. split; [reflexivity|]. apply sameData_style.
  - exists e. split; [exact He|apply sameData_refl].
Qed.

(** After [element.checked = b] the element is checked or not as [b]
    says and is otherwise as before. *)
Lemma element_setChecked (i : nat) (b : bool) (doc : Document) (e : Element) :
  element doc i = Some e ->
  element (setChecked i b doc) i = Some (setLive (withChecked b) e).
Proof.
  intros He. unfold setChecked. rewrite He.
  destruct (b && isRadio e)%bool eqn:Hradio.
  - apply andb_true_iff in Hradio as [-> _].
    unfold element in *. rewrite list_lookup_imap.
    destruct (doc !! i) as [[p [d|e0]]|]; try discriminate.
    injection He as ->. cbn. rewrite Nat.eqb_refl. reflexivity.
  - apply element_update_same, He.
Qed.

End DomFacts.

(** ** Timers and the writers *)

Section InjectorFacts.
Import Eff Injector.
Context `{Host}.

Lemma fire_styleOnly (cb : Callback) (w : World) :
  styleOnly (document w) (document (fire cb w)).
Proof.
  destruct cb as [target b s|id|id]; cbn [fire].
  - apply update_styleOnly.
  - destruct (attached id w); apply styleOnly_refl.
  - destruct (attached id w); apply styleOnly_refl.
Qed.

Lemma runUntil_styleOnly (fuel t : nat) :
  forall w, styleOnly (document w) (document (runUntil fuel t w)).
Proof.
  induction fuel as [|k IH]; intros w; cbn [runUntil].
  - destruct (timers w); apply styleOnly_refl.
  - destruct (timers w) as [|tm rest]; [apply styleOnly_refl|].
    destruct (Nat.leb (due tm) t); [|apply styleOnly_refl].
    eapply styleOnly_trans; [|apply IH].
    apply (fire_styleOnly (callback tm)
             (withTimers (fun _ => rest) (withNow (Nat.max (now w) (due tm)) w))).
Qed.

(** While time passes, timers restore styles and nothing else of the
    document changes. *)
Lemma elapse_styleOnly (ms : nat) (w : World) :
  styleOnly (document w) (document (elapse ms w)).
Proof. apply runUntil_styleOnly. Qed.

Lemma triggerChangeEvents_run (i : nat) (w : World) :
  exists w', triggerChangeEvents i w = Ok tt w' /\ document w' = document w.
Proof. eexists. split; reflexivity. Qed.

Lemma addSuccessHighlight_run (i : nat) (w : World) :
  exists w', addSuccessHighlight i w = Ok tt w'
             /\ styleOnly (document w) (document w').
Proof.
  unfold addSuccessHighlight, getElement, updateElement, tryCatch. eff_unfold.
  destruct (Dom.element (document w) i) as [e|].
  - eexists. split; [reflexivity|]. cbn. apply update_styleOnly.
  - eexists. split; [reflexivity|]. cbn. apply styleOnly_refl.
Qed.

Lemma ready_styleOnly (i : nat) (w : World) :
  styleOnly (document w) (document (ready i w)).
Proof. apply (elapse_styleOnly 100 (withEvents _ w)). Qed.

(** [injectSingleField] never throws.  It returns [false] without a write
    when the element is missing or not interactable or the type has no
    writer; otherwise the writer runs in the [ready] state, its answer is
    the answer of [injectSingleField], and what follows touches styles
    only. *)
Lemma injectSingleField_cases (f : DetectedFormField) (content : string) (w : World) :
  (exists w', injectSingleField f content w = Ok false w'
              /\ styleOnly (document w) (document w')
              /\ (Dom.element (document w) (element f) = None
                  \/ (exists e, Dom.element (document w) (element f) = Some e
                                /\ interactable e = false)
                  \/ writerFor (type f) = None))
  \/ (exists e writer,
        Dom.element (document w) (element f) = Some e
        /\ interactable e = true
        /\ writerFor (type f) = Some writer
        /\ match writer (element f) content (ready (element f) w) with
           | Ok b w2 => exists w', injectSingleField f content w = Ok b w'
                                   /\ styleOnly (document w2) (document w')
           | Throw err w2 => exists w', injectSingleField f content w = Ok false w'
                                        /\ document w' = document w2
           end).
Proof.
  unfold injectSingleField, isElementInteractable, getElement, tryCatch. eff_unfold.
  destruct (Dom.element (document w) (element f)) as [e|] eqn:He.
  - fold (interactable e). destruct (interactable e) eqn:Hint; cbn [negb].
    + unfold focusElement, dispatch, sleep, tryCatch. eff_unfold.
      fold (ready (element f) w).
      destruct (writerFor (type f)) as [writer|] eqn:Hwriter.
      * right. exists e, writer.
        split; [reflexivity|]. split; [exact Hint|]. split; [reflexivity|].
        destruct (writer (element f) content (ready (element f) w)) as [[|] w2|err w2].
        -- destruct (triggerChangeEvents_run (element f) w2) as (w3 & -> & Hdoc3).
           destruct (addSuccessHighlight_run (element f) w3) as (w4 & -> & Hdoc4).
           eexists. split; [reflexivity|]. cbn. rewrite <- Hdoc3. exact Hdoc4.
        -- eexists. split; [reflexivity|]. apply styleOnly_refl.
        -- eexists. split; reflexivity.
      * left. eexists. split; [reflexivity|]. split; [|auto].
        cbn. apply ready_styleOnly.
    + left. eexists. split; [reflexivity|]. split; [apply styleOnly_refl|].
      right. left. eauto.
  - left. eexists. split; [reflexivity|]. split; [apply styleOnly_refl|auto].
Qed.

Lemma injectSingleField_returns (f : DetectedFormField) (content : string) :
  returns (injectSingleField f content).
Proof.
  intros w.
  destruct (injectSingleField_cases f content w)
    as [(w' & Hrun & _)|(e & writer & _ & _ & _ & Hrun)]; [eauto|].
  destruct (writer _ _ _) as [b w2|err w2]; destruct Hrun as (w' & Hrun & _); eauto.
Qed.

End InjectorFacts.

Section TimerFacts.
Import Injector.

Lemma enqueue_Forall (P : Timer -> Prop) (t : Timer) (q : list Timer) :
  P t -> Forall P q -> Forall P (enqueue t q).
Proof.
  intros Ht Hq. induction Hq as [|t' r Ht' Hr IH]; cbn.
  - constructor; [exact Ht|constructor].
  - destruct (Nat.leb (due t') (due t)); repeat constructor; auto.
Qed.

Lemma enqueue_sorted (t : Timer) (q : list Timer) :
  sortedQueue q -> sortedQueue (enqueue t q).
Proof.
  induction q as [|t' r IH]; cbn.
  - intros _. split; [constructor|exact I].
  - intros [Hall Hsorted]. destruct (Nat.leb (due t') (due t)) eqn:Hle.
    + cbn. split; [|apply IH, Hsorted].
      apply enqueue_Forall; [apply Nat.leb_le, Hle|exact Hall].
    + apply Nat.leb_gt in Hle. cbn. split; [|split; [exact Hall|exact Hsorted]].
      constructor; [lia|].
      eapply Forall_impl; [exact Hall|]. cbn. intros; lia.
Qed.

Lemma enqueue_weight (t : Timer) (q : list Timer) :
  list_sum (map weight (enqueue t q)) = weight t + list_sum (map weight q).
Proof.
  unfold list_sum.
  induction q as [|t' r IH]; cbn [enqueue map fold_right]; [lia|].
  destruct (Nat.leb (due t') (due t)); cbn [map fold_right]; [rewrite IH|]; lia.
Qed.

Lemma enqueue_Exists (P : Timer -> Prop) (t : Timer) (q : list Timer) :
  Exists P (enqueue t q) -> P t \/ Exists P q.
Proof.
  induction q as [|t' r IH]; cbn.
  - intros Hex. apply Exists_cons in Hex as [?|Hnil]; [auto|].
    apply Exists_nil in Hnil. contradiction.
  - destruct (Nat.leb (due t') (due t)).
    + intros Hex. apply Exists_cons in Hex as [?|Hex].
      * right. apply Exists_cons. auto.
      * destruct (IH Hex) as [?|?]; [auto|]. right. apply Exists_cons. auto.
    + intros Hex. apply Exists_cons in Hex as [?|Hex]; auto.
Qed.

Lemma weight_positive (tm : Timer) : 1 <= weight tm.
Proof. unfold weight. destruct (callback tm); lia. Qed.

(** With fuel for every timer, the run empties such a queue. *)
Lemma runUntil_drains (fuel t : nat) :
  forall w, drains t w -> enoughFuel w <= fuel -> timers (runUntil fuel t w) = [].
Proof.
  induction fuel as [|k IH]; intros w (Hsorted & Hdue & Hhide & Hnow) Hfuel.
  - cbn. unfold enoughFuel in Hfuel.
    destruct (timers w) as [|tm rest] eqn:Hq; cbn; [congruence|].
    unfold list_sum in Hfuel. cbn [map fold_right] in Hfuel.
    pose proof (weight_positive tm). lia.
  - cbn [runUntil]. unfold enoughFuel in Hfuel.
    destruct (timers w) as [|tm rest] eqn:Hq; [cbn; congruence|].
    unfold list_sum in Hfuel. cbn [map fold_right] in Hfuel.
    apply Forall_cons in Hdue as [Hdue1 Hdue].
    apply Forall_cons in Hhide as [Hhide1 Hhide].
    destruct Hsorted as [Hhead Hsorted].
    assert (Nat.leb (due tm) t = true) as -> by (apply Nat.leb_le, Hdue1).
    assert (Exists isHide rest -> Nat.max (now w) (due tm) + 300 <= t) as Hlater.
    { intros Hex. assert (now w + 300 <= t) by (apply Hnow; right; exact Hex).
      apply Exists_exists in Hex as (h & Hin & Hh).
      rewrite Forall_forall in Hhead, Hhide.
      pose proof (Hhead h Hin). pose proof (Hhide h Hin Hh). lia. }
    apply IH.
    + unfold fire. destruct (callback tm) as [target b s|id|id] eqn:Hcb.
      * cbn. repeat split; assumption.
      * assert (isHide tm) as Htm by (unfold isHide; rewrite Hcb; exact I).
        assert (Nat.max (now w) (due tm) + 300 <= t) as Hbound.
        { assert (now w + 300 <= t) by (apply Hnow; left; exact Htm).
          pose proof (Hhide1 Htm). lia. }
        destruct (attached id _); cbn; [|repeat split; assumption].
        split; [apply enqueue_sorted, Hsorted|].
        split; [apply enqueue_Forall; [exact Hbound|exact Hdue]|].
        split; [apply enqueue_Forall; [cbn; contradiction|exact Hhide]|].
        intros Hex. apply enqueue_Exists in Hex as [Hfalse|Hex];
          [cbn in Hfalse; contradiction|]. exact Hbound.
      * destruct (attached id _); cbn; repeat split; assumption.
    + assert (weight tm = match callback tm with
                          | HideNotification _ => 2
                          | _ => 1
                          end) as Hweight by reflexivity.
      unfold enoughFuel, fire.
      destruct (callback tm) as [target b s|id|id];
        [|destruct (attached id _)|destruct (attached id _)];
        cbn [timers withDocument withTimers withNow withNotifications setTimeout];
        rewrite ?enqueue_weight; unfold list_sum; cbn [weight callback]; lia.
Qed.

Lemma sortedQueue_last (q : list Timer) (tl : Timer) :
  sortedQueue q -> last q = Some tl -> Forall (fun tm => due tm <= due tl) q.
Proof.
  induction q as [|tm rest IH]; [constructor|].
  intros [Hhead Hsorted] Hlast. destruct rest as [|tm' rest'].
  - cbn in Hlast. injection Hlast as ->. constructor; [lia|constructor].
  - assert (last (tm' :: rest') = Some tl) as Hlast' by exact Hlast.
    pose proof (IH Hsorted Hlast') as Hall.
    constructor; [|exact Hall].
    apply Forall_cons in Hhead as [Hle _]. apply Forall_cons in Hall as [Hle' _]. lia.
Qed.

(** Once the page has settled no timer is pending. *)
Lemma settle_no_timer (w : World) : sortedQueue (timers w) -> timers (settle w) = [].
Proof.
  intros Hsorted. unfold settle. apply runUntil_drains; [|lia].
  unfold drains, horizon. split; [exact Hsorted|].
  destruct (last (timers w)) as [tl|] eqn:Hlast.
  - pose proof (sortedQueue_last _ _ Hsorted Hlast) as Hall.
    split; [|split].
    + eapply Forall_impl; [exact Hall|]. cbn. intros; lia.
    + eapply Forall_impl; [exact Hall|]. cbn. intros; lia.
    + intros _. lia.
  - apply last_None in Hlast. rewrite Hlast.
    split; [constructor|]. split; [constructor|].
    intros Hex. apply Exists_nil in Hex. contradiction.
Qed.

End TimerFacts.

Section WriterFacts.
Import Eff Injector.
Context `{Host}.



Lemma injectCheckbox_run (i : nat) (content : string) (w : World) (e : Dom.Element) :
  Dom.element (document w) i = Some e ->
  injectCheckbox i content w
  = Ok true (withDocument
               (Dom.setChecked i (JS.inList (JS.trim (JS.toLowerCase content)) affirmative))
               w).
Proof.
  intros He. unfold injectCheckbox, getElement, tryCatch. eff_unfold.
  rewrite He. reflexivity.
Qed.



(** An [input] or a [textarea] holds the value last written to it. *)
Lemma value_setValue (v : string) (e : Dom.Element) :
  Dom.isSelect e = false -> Dom.value (Dom.setValue v e) = v.
Proof.
  intros Hsel. unfold Dom.value, Dom.setValue. rewrite Hsel.
  unfold Dom.isSelect in *. cbn. rewrite Hsel. reflexivity.
Qed.



Lemma sameData_interactable (e e' : Dom.Element) :
  sameData e e' -> interactable e' = interactable e.
Proof. intros (A & _). unfold interactable. rewrite A. reflexivity. Qed.



End WriterFacts.


Section FailureFacts.
Import Eff Injector.
Context `{Host}.



End FailureFacts.


Section DateFacts.
Import Eff Injector.
Context `{Host}.



End DateFacts.

(** C7. For a checkbox field whose element exists, [injectCheckbox]
    answers [true] whatever the content, and leaves the element checked
    exactly when the content, in lower case and trimmed, is one of yes,
    true, 1, checked, on, agree; so does [injectSingleField] when the
    element is interactable.  The content Yes checks the box and the
    content No clears it. *)
Theorem checkbox_injection_always_succeeds `{Host}
        (f : DetectedFormField) (content : string) (w : Injector.World) (e : Dom.Element) :
  type f = "checkbox" ->
  Dom.element (Injector.document w) (element f) = Some e ->
  let shouldCheck :=
    JS.inList (JS.trim (JS.toLowerCase content))
              ["yes"; "true"; "1"; "checked"; "on"; "agree"] in
  (exists w1 e1, Injector.injectCheckbox (element f) content w = Eff.Ok true w1
     /\ Dom.element (Injector.document w1) (element f) = Some e1
     /\ Dom.checked e1 = shouldCheck)
  /\ (interactable e = true ->
      exists w' e', Injector.injectSingleField f content w = Eff.Ok true w'
        /\ Dom.element (Injector.document w') (element f) = Some e'
        /\ Dom.checked e' = shouldCheck)
  /\ JS.inList (JS.trim (JS.toLowerCase "Yes")) Injector.affirmative = true
  /\ JS.inList (JS.trim (JS.toLowerCase "No")) Injector.affirmative = false.
Proof.
  intros Htype He shouldCheck.
  split; [|split; [|split; reflexivity]].
  - rewrite (injectCheckbox_run _ _ _ e He).
    eexists. eexists. split; [reflexivity|]. cbn [Injector.document Injector.withDocument].
    split; [apply element_setChecked, He|]. reflexivity.
  - intros Hint.
    destruct (injectSingleField_cases f content w)
      as [(w0 & _ & _ & Hwhy)|(e0 & writer & He0 & _ & Hwriter & Hcase)].
    + exfalso. rewrite Htype in Hwhy.
      destruct Hwhy as [Hnone|[(e0 & He0 & Hint0)|Hnone]];
        [congruence| |discriminate].
      assert (e0 = e) as -> by congruence. congruence.
    + rewrite Htype in Hwriter. injection Hwriter as <-.
      destruct (ready_styleOnly (element f) w _ _ He) as (e1 & He1 & Hsame).
      rewrite (injectCheckbox_run _ _ _ e1 He1) in Hcase.
      destruct Hcase as (w' & Hinj & Hstyle).
      destruct (Hstyle (element f) (Dom.setLive (Dom.withChecked shouldCheck) e1))
        as (e' & He' & Hsame').
      { cbn [Injector.document Injector.withDocument]. apply element_setChecked, He1. }
      exists w', e'. split; [exact Hinj|]. split; [exact He'|].
      destruct Hsame' as (_ & _ & Hchecked & _). unfold Dom.checked.
      rewrite <- Hchecked. reflexivity.
Qed.

(** ** The batch *)

Section BatchFacts.
Import Eff Injector BatchSpec.
Context `{Host}.

Lemma answersLoop_counts (formFields : list DetectedFormField)
      (answers : list GeneratedAnswer) :
  forall (successCount totalAttempts : nat) (w : World),
    exists w',
      answersLoop answers formFields successCount totalAttempts w
      = Ok (successCount + length (List.filter isWritten (attempts answers formFields w)),
            totalAttempts + length (List.filter isAttempt (attempts answers formFields w)))
           w'.
Proof.
  induction answers as [|a rest IH]; intros sc ta w; cbn [answersLoop attempts].
  - exists w. cbn. rewrite !Nat.add_0_r. reflexivity.
  - destruct (findMatchingField (fieldLabel a) formFields) as [field|].
    + destruct (injectSingleField_returns field (answer a) w) as (b & w1 & Hinj).
      eff_unfold. rewrite Hinj. destruct b.
      * unfold modify.
        destruct (IH (S sc) (S ta) (withInjected (mapSet (element field) (answer a)) w1))
          as (w' & Hrest).
        exists w'. rewrite Hrest. cbn [List.filter isWritten isAttempt length].
        f_equal. f_equal; lia.
      * destruct (IH sc (S ta) w1) as (w' & Hrest).
        exists w'. rewrite Hrest. cbn [List.filter isWritten isAttempt length].
        f_equal. f_equal; lia.
    + destruct (IH sc ta w) as (w' & Hrest).
      exists w'. rewrite Hrest. reflexivity.
Qed.

Lemma attempts_matched (formFields : list DetectedFormField)
      (answers : list GeneratedAnswer) :
  forall w, length (List.filter isAttempt (attempts answers formFields w))
            = length (matched formFields answers).
Proof.
  unfold matched.
  induction answers as [|a rest IH]; intros w; cbn [attempts List.filter]; [reflexivity|].
  destruct (findMatchingField (fieldLabel a) formFields) as [field|].
  - rewrite bool_decide_true by eauto.
    destruct (injectSingleField field (answer a) w) as [[|] w1|err w1];
      cbn [List.filter isAttempt length]; rewrite IH; reflexivity.
  - rewrite bool_decide_false by (intros [? ?]; discriminate).
    cbn [List.filter isAttempt]. apply IH.
Qed.

Lemma existsb_count {A} (p : A -> bool) (l : list A) :
  existsb p l = Nat.ltb 0 (length (List.filter p l)).
Proof.
  induction l as [|x r IH]; cbn; [reflexivity|].
  destruct (p x); cbn; [reflexivity|exact IH].
Qed.

Lemma filter_written_attempt (l : list Attempt) :
  length (List.filter isWritten l) <= length (List.filter isAttempt l).
Proof.
  induction l as [|[|f|f] r IH]; cbn; lia.
Qed.

End BatchFacts.

(** C1. For every answer list and field catalog, [injectAnswers] returns,
    and returns [true] exactly when the write of some answer succeeded.
    Its loop ends with the number of successful writes as the success
    count and the number of answers the matcher bound to a field as the
    attempts total: an answer with no matching field adds to neither, a
    matched answer whose write fails adds to the attempts only. *)
Theorem injectAnswers_true_iff_a_write_succeeded `{Host}
        (answers : list GeneratedAnswer) (formFields : list DetectedFormField)
        (w : Injector.World) :
  let outcomes := BatchSpec.attempts answers formFields (BatchSpec.started w) in
  let successCount := length (List.filter BatchSpec.isWritten outcomes) in
  let totalAttempts := length (List.filter BatchSpec.isAttempt outcomes) in
  (exists w1, Injector.answersLoop answers formFields 0 0 (BatchSpec.started w)
              = Eff.Ok (successCount, totalAttempts) w1)
  /\ (exists w', Injector.injectAnswers answers formFields w
                 = Eff.Ok (existsb BatchSpec.isWritten outcomes) w')
  /\ totalAttempts = length (BatchSpec.matched formFields answers)
  /\ successCount <= totalAttempts.
Proof.
  cbv zeta.
  destruct (answersLoop_counts formFields answers 0 0 (BatchSpec.started w))
    as (w1 & Hloop).
  cbn [Nat.add] in Hloop.
  split; [eauto|]. split; [|split].
  - unfold Injector.injectAnswers, Injector.log, Eff.tryCatch. eff_unfold.
    fold (BatchSpec.started w). rewrite Hloop. rewrite existsb_count.
    eexists. reflexivity.
  - apply attempts_matched.
  - apply filter_written_attempt.
Qed.

(** ** The rollback *)

Section RollbackFacts.
Import Eff Injector.
Context `{Host}.

Lemma tagName_not_select (e : Dom.Element) :
  (String.eqb (Dom.tagName e) "INPUT" || String.eqb (Dom.tagName e) "TEXTAREA")%bool = true ->
  Dom.isSelect e = false.
Proof.
  unfold Dom.tagName, Dom.isSelect. destruct (Dom.kind (Dom.attrs e)); cbn; congruence.
Qed.

Lemma setSelectedIndex_twice (i : nat) (os : list Dom.OptionEl) :
  Dom.setSelectedIndex i (Dom.setSelectedIndex i os) = Dom.setSelectedIndex i os.
Proof.
  unfold Dom.setSelectedIndex. apply list_eq. intros j.
  rewrite !list_lookup_imap. destruct (os !! j); reflexivity.
Qed.

(** Clearing twice is clearing once. *)
Lemma cleared_twice (e : Dom.Element) : cleared (cleared e) = cleared e.
Proof.
  unfold cleared.
  destruct (String.eqb (Dom.tagName e) "INPUT" || String.eqb (Dom.tagName e) "TEXTAREA")%bool
    eqn:Htext.
  - pose proof (tagName_not_select e Htext) as Hsel.
    unfold Dom.setValue. rewrite Hsel.
    replace (Dom.tagName (Dom.setLive (Dom.withValue "") e)) with (Dom.tagName e)
      by reflexivity.
    rewrite Htext.
    replace (Dom.isSelect (Dom.setLive (Dom.withValue "") e)) with (Dom.isSelect e)
      by reflexivity.
    rewrite Hsel. reflexivity.
  - destruct (String.eqb (Dom.tagName e) "SELECT") eqn:Hselect.
    + match goal with
      | |- context [Dom.tagName (Dom.setLive ?g e)] =>
          replace (Dom.tagName (Dom.setLive g e)) with (Dom.tagName e) by reflexivity
      end.
      rewrite Htext, Hselect. unfold Dom.setLive, Dom.withOptions.
      cbn [Dom.live Dom.attrs Dom.l_options Dom.l_value Dom.l_checked Dom.l_border
           Dom.l_boxShadow].
      rewrite setSelectedIndex_twice. reflexivity.
    + rewrite Htext, Hselect. reflexivity.
Qed.

Lemma update_at_element (i : nat) (f g : Dom.Element -> Dom.Element)
      (doc : Dom.Document) (e : Dom.Element) :
  Dom.element doc i = Some e -> f e = g e -> Dom.update i f doc = Dom.update i g doc.
Proof.
  unfold Dom.update, Dom.element. intros He Hfg.
  destruct (doc !! i) as [[p [d|e0]]|]; try discriminate.
  injection He as ->. rewrite Hfg. reflexivity.
Qed.

Lemma update_no_element (i : nat) (f : Dom.Element -> Dom.Element) (doc : Dom.Document) :
  Dom.element doc i = None -> Dom.update i f doc = doc.
Proof.
  unfold Dom.update, Dom.element. intros He.
  destruct (doc !! i) as [[p [d|e0]]|]; try discriminate; reflexivity.
Qed.

(** One turn of the loop clears the element at the key, reads nothing of
    the stored value, and leaves the registry alone. *)
Lemma clearOne_run (i : nat) (stored : string) (w : World) :
  exists w', clearOne (i, stored) w = Ok tt w'
             /\ document w' = Dom.update i cleared (document w)
             /\ injectedFields w' = injectedFields w.
Proof.
  unfold clearOne, getElement, updateElement, tryCatch. eff_unfold.
  destruct (Dom.element (document w) i) as [e|] eqn:He.
  - assert (forall g, g e = cleared e ->
              Dom.update i g (document w) = Dom.update i cleared (document w)) as Hupd.
    { intros g Hg. apply (update_at_element _ _ _ _ e He Hg). }
    destruct (String.eqb (Dom.tagName e) "INPUT") eqn:Hin;
      [|destruct (String.eqb (Dom.tagName e) "TEXTAREA") eqn:Hta;
        [|destruct (String.eqb (Dom.tagName e) "SELECT") eqn:Hsel]];
      (eexists; split; [reflexivity|]; split; [|reflexivity]);
      cbn [document withDocument withEvents].
    + apply Hupd. unfold cleared. rewrite Hin. reflexivity.
    + apply Hupd. unfold cleared. rewrite Hin, Hta. reflexivity.
    + apply Hupd. unfold cleared. rewrite Hin, Hta, Hsel. reflexivity.
    + rewrite <- (Hupd (fun x => x)).
      * unfold Dom.update, Dom.element in *.
        destruct (document w !! i) as [[p [d|e0]]|] eqn:Hi; try discriminate.
        injection He as ->. symmetry. apply list_insert_id. exact Hi.
      * unfold cleared. rewrite Hin, Hta, Hsel. reflexivity.
  - eexists. split; [reflexivity|]. cbn. split; [|reflexivity].
    symmetry. apply update_no_element, He.
Qed.

Lemma forEach_clearOne (entries : list (nat * string)) :
  forall w, exists w',
    forEach clearOne entries w = Ok tt w'
    /\ document w' = clearedAt (map fst entries) (document w)
    /\ injectedFields w' = injectedFields w.
Proof.
  induction entries as [|[i stored] rest IH]; intros w.
  - exists w. repeat split.
  - cbn [forEach]. unfold Eff.bind.
    destruct (clearOne_run i stored w) as (w1 & -> & Hdoc1 & Hreg1).
    destruct (IH w1) as (w' & -> & Hdoc & Hreg).
    exists w'. split; [reflexivity|]. split.
    + rewrite Hdoc, Hdoc1. reflexivity.
    + congruence.
Qed.

(** In the document cleared at [keys], an element at one of the keys is
    cleared and every other element is as it was. *)
Lemma element_clearedAt (keys : list nat) :
  forall (doc : Dom.Document) (i : nat),
    Dom.element (clearedAt keys doc) i
    = if bool_decide (i ∈ keys) then cleared <$> Dom.element doc i
      else Dom.element doc i.
Proof.
  unfold clearedAt.
  induction keys as [|k rest IH]; intros doc i; cbn [fold_left].
  - rewrite bool_decide_false by apply not_elem_of_nil. reflexivity.
  - rewrite IH, element_update.
    destruct (decide (i = k)) as [->|Hne].
    + rewrite (bool_decide_true (k ∈ k :: rest)) by left.
      destruct (bool_decide (k ∈ rest)); destruct (Dom.element doc k);
        cbn; rewrite ?cleared_twice; reflexivity.
    + destruct (bool_decide (i ∈ rest)) eqn:Hrest.
      * apply bool_decide_eq_true in Hrest.
        rewrite bool_decide_true by (right; exact Hrest). reflexivity.
      * apply bool_decide_eq_false in Hrest.
        rewrite bool_decide_false; [reflexivity|].
        intros Hin. apply elem_of_cons in Hin as [?|?]; contradiction.
Qed.

End RollbackFacts.

Section RollbackResult.
Import Eff Injector.
Context `{Host}.

Lemma clearAllInjections_run (w : World) :
  exists w', clearAllInjections w = Ok tt w'
             /\ injectedFields w' = []
             /\ document w' = clearedAt (map fst (injectedFields w)) (document w).
Proof.
  unfold clearAllInjections, log. eff_unfold.
  destruct (forEach_clearOne (injectedFields w) w) as (w1 & -> & Hdoc & _).
  eexists. split; [reflexivity|]. split; [reflexivity|]. exact Hdoc.
Qed.

Lemma value_cleared (e : Dom.Element) :
  (String.eqb (Dom.tagName e) "INPUT" || String.eqb (Dom.tagName e) "TEXTAREA")%bool = true ->
  Dom.value (cleared e) = "".
Proof.
  intros Htag. unfold cleared. rewrite Htag.
  apply value_setValue, tagName_not_select, Htag.
Qed.

Lemma options_cleared (e : Dom.Element) :
  String.eqb (Dom.tagName e) "SELECT" = true ->
  Dom.options (cleared e) = Dom.setSelectedIndex 0 (Dom.options e).
Proof.
  intros Htag. unfold cleared.
  apply String.eqb_eq in Htag. rewrite Htag. reflexivity.
Qed.

End RollbackResult.

(** C10. [clearAllInjections] returns and leaves the registry empty.  The
    document it leaves is the old one with the elements at the keys of the
    registry cleared, whatever the values the registry stored and whatever
    the elements held before: every [INPUT] and [TEXTAREA] of the registry
    ends with the empty value, every [SELECT] with its first option
    selected and no other; and a registry with the same keys and other
    stored values leads to the same document. *)
Theorem clearAllInjections_blanks_every_entry `{Host} (w : Injector.World) :
  exists w',
    Injector.clearAllInjections w = Eff.Ok tt w'
    /\ Injector.injectedFields w' = []
    /\ Injector.document w'
       = clearedAt (map fst (Injector.injectedFields w)) (Injector.document w)
    /\ (forall (i : nat) (stored : string) (e : Dom.Element),
          (i, stored) ∈ Injector.injectedFields w ->
          Dom.element (Injector.document w) i = Some e ->
          exists e', Dom.element (Injector.document w') i = Some e'
            /\ (Dom.tagName e = "INPUT" \/ Dom.tagName e = "TEXTAREA" -> Dom.value e' = "")
            /\ (Dom.tagName e = "SELECT" ->
                Dom.options e' = Dom.setSelectedIndex 0 (Dom.options e)))
    /\ (forall w2 : Injector.World,
          map fst (Injector.injectedFields w2) = map fst (Injector.injectedFields w) ->
          Injector.document w2 = Injector.document w ->
          exists w2', Injector.clearAllInjections w2 = Eff.Ok tt w2'
                      /\ Injector.document w2' = Injector.document w').
Proof.
  destruct (clearAllInjections_run w) as (w' & Hrun & Hreg & Hdoc).
  exists w'. split; [exact Hrun|]. split; [exact Hreg|]. split; [exact Hdoc|]. split.
  - intros i stored e Hin He. rewrite Hdoc, element_clearedAt.
    rewrite bool_decide_true.
    2: { apply list_elem_of_fmap. exists (i, stored). split; [reflexivity|exact Hin]. }
    rewrite He. exists (cleared e). split; [reflexivity|]. split.
    + intros Htag. apply value_cleared.
      destruct Htag as [-> | ->]; reflexivity.
    + intros Htag. apply options_cleared. rewrite Htag. reflexivity.
  - intros w2 Hkeys Hdoc2.
    destruct (clearAllInjections_run w2) as (w2' & Hrun2 & _ & Hdoc2').
    exists w2'. split; [exact Hrun2|]. rewrite Hdoc2', Hdoc, Hkeys, Hdoc2. reflexivity.
Qed.

(** C5. In a zone one hour east of Greenwich, the injection of the answer
    [on 5 March 2024] into a date field succeeds and writes [2024-03-04]:
    the engine reads the date as midnight local time, and the code prints
    the date this instant has in UTC, the day before.  At Greenwich the
    same injection writes [2024-03-05]. *)
Theorem date_written_a_day_early_east_of_Greenwich :
  (exists w', @Injector.injectSingleField (Example.hostIn 60) Pages.dateField
                "on 5 March 2024" Pages.datePage = Eff.Ok true w'
              /\ Pages.look w' 1 = Some ("2024-03-04", false, "2px solid #10b981"))
  /\ (exists w', @Injector.injectSingleField (Example.hostIn 0) Pages.dateField
                   "on 5 March 2024" Pages.datePage = Eff.Ok true w'
                 /\ Pages.look w' 1 = Some ("2024-03-05", false, "2px solid #10b981")).
Proof.
  split; (eexists; split; [vm_compute; reflexivity|vm_compute; reflexivity]).
Qed.

(** C9. On a page with one text input and one answer for it: after one
    run of [injectAnswers] and the firing of every timer, the input holds
    the answer and its border is as before, empty; after two runs, the
    second as soon as the first has returned, and the firing of every
    timer, the input holds the answer and the success border stays.  Two
    runs with the timers fired in between end as one run does. *)
Theorem second_injection_leaves_the_highlight :
  Pages.look (@Pages.once (Example.hostIn 0)) 1 = Some ("Jane Doe", false, "")
  /\ Pages.look (@Pages.twice (Example.hostIn 0)) 1
     = Some ("Jane Doe", false, "2px solid #10b981")
  /\ Injector.timers (@Pages.once (Example.hostIn 0)) = []
  /\ Injector.timers (@Pages.twice (Example.hostIn 0)) = []
  /\ Injector.document (@Pages.twiceApart (Example.hostIn 0))
     = Injector.document (@Pages.once (Example.hostIn 0)).
Proof.
  repeat split; vm_compute; reflexivity.
Qed.

(** ** The theorems at work *)



(** A checkbox that receives [Yes] ends checked. *)
Lemma checkbox_injection_always_succeeds_witness :
  exists w' e',
    @Injector.injectSingleField (Example.hostIn 0) Pages.boxField "Yes" Pages.boxPage
    = Eff.Ok true w'
    /\ Dom.element (Injector.document w') 1 = Some e'
    /\ Dom.checked e' = true.
Proof.
  exact (proj1 (proj2 (@checkbox_injection_always_succeeds (Example.hostIn 0)
                         Pages.boxField "Yes" Pages.boxPage Pages.box eq_refl eq_refl))
               eq_refl).
Defined.


(** ** The code on the examples of the specification *)

Example normalize_ignores_case_and_punctuation :
  Injector.normalizeLabel "Full Name:" = Injector.normalizeLabel "full name".
Proof. reflexivity. Qed.

(** The sign-up form: three records, three writes, the comments cut to
    50 characters, and the notice of full success. *)
Example signup_form_is_filled :
  let host := Example.hostIn 0 in
  let catalog := @Pages.scan host Pages.signupDoc in
  let run := @Injector.injectAnswers host Pages.signupAnswers catalog
               (Example.page Pages.signupDoc) in
  map (fun f => (element f, label f, type f, required f, maxLength f)) catalog
  = [(4, "Full Name", "text", false, None);
     (7, "Email Address", "email", true, None);
     (10, "Comments", "textarea", false, Some 50%Z)]
  /\ Example.result run = Some true
  /\ map (fun i => fst <$> (fst <$> Pages.look (Example.finalState run) i)) [4; 7; 10]
     = [Some "Jane Doe"; Some "jane@x.com"; Some (JS.substring0 50 Pages.sixty)]
  /\ map Injector.n_text (Injector.notifications (Example.finalState run))
     = ["All 3 fields filled successfully!"].
Proof. repeat split; vm_compute; reflexivity. Qed.

(** The radio group: both buttons are catalogued under the label made of
    their name; the answer [female] goes to the first of them, and the
    writer checks the first button whose text the answer contains or is
    contained in.  The answer [female] contains [male]: the button Male,
    which comes first, is checked, and the button Female is not. *)
Example radio_female_checks_the_button_male :
  let host := Example.hostIn 0 in
  let catalog := @Pages.scan host Pages.genderDoc in
  let run := @Injector.injectAnswers host [Example.answerFor "Gender" "female"] catalog
               (Example.page Pages.genderDoc) in
  map (fun f => (element f, label f, type f)) catalog
  = [(2, "Gender", "radio"); (4, "Gender", "radio")]
  /\ Example.result run = Some true
  /\ (snd <$> (fst <$> Pages.look (Example.finalState run) 2)) = Some true
  /\ (snd <$> (fst <$> Pages.look (Example.finalState run) 4)) = Some false.
Proof. repeat split; vm_compute; reflexivity. Qed.

(** The catalog takes a maximum length from a pattern when the element
    declares none; the writer reads the element alone and cuts nothing. *)
Example pattern_hint_is_not_enforced :
  let host := Example.hostIn 0 in
  let catalog := @Pages.scan host Pages.hintedDoc in
  let run := @Injector.injectAnswers host [Example.answerFor "Code" "abcdefgh"] catalog
               (Example.page Pages.hintedDoc) in
  map (fun f => (element f, label f, maxLength f)) catalog = [(1, "Code", Some 5%Z)]
  /\ (fst <$> (fst <$> Pages.look (Example.finalState run) 1)) = Some "abcdefgh".
Proof. repeat split; vm_compute; reflexivity. Qed.

(* ===================================================================== *)
(** * Further properties of the code                                       *)
(* ===================================================================== *)



Section ShapeFacts.
Import JS Shape.

Lemma space_isSpace : isSpace " " = true.
Proof. reflexivity. Qed.

Lemma eqb_space (c : ascii) : isSpace c = false -> Ascii.eqb c " " = false.
Proof.
  intros Hc. destruct (Ascii.eqb c " ") eqn:Heq; [|reflexivity].
  apply Ascii.eqb_eq in Heq. subst c. discriminate.
Qed.

Lemma collapseFrom_spaced (p : ascii -> bool) (s : string) :
  forall inRun, allChars (fun c => (p c || isSpace c)%bool) s = true ->
                spaced p inRun (collapseFrom inRun s) = true.
Proof.
  induction s as [|c r IH]; intros inRun Hall; [reflexivity|].
  cbn [allChars] in Hall. apply andb_true_iff in Hall as [Hc Hr].
  cbn [collapseFrom]. destruct (isSpace c) eqn:Hsp.
  - destruct inRun; [apply IH, Hr|].
    cbn [spaced]. rewrite Ascii.eqb_refl. cbn. apply IH, Hr.
  - cbn [spaced]. rewrite (eqb_space c Hsp), Hsp.
    rewrite orb_false_r in Hc. rewrite Hc. cbn. apply IH, Hr.
Qed.

Lemma spaced_head (p : ascii -> bool) (a : bool) (c : ascii) (r : string) :
  spaced p a (String c r) = true ->
  (c = " "%char /\ a = false /\ spaced p true r = true)
  \/ (Ascii.eqb c " " = false /\ p c = true /\ isSpace c = false
      /\ spaced p false r = true).
Proof.
  cbn [spaced]. destruct (Ascii.eqb c " ") eqn:Heq.
  - apply Ascii.eqb_eq in Heq. intros Hs. apply andb_true_iff in Hs as [Ha Hr].
    left. destruct a; [discriminate|]. auto.
  - intros Hs. apply andb_true_iff in Hs as [Hs Hr].
    apply andb_true_iff in Hs as [Hp Hsp]. apply negb_true_iff in Hsp. right. auto.
Qed.

Lemma trimStart_spaced (p : ascii -> bool) (s : string) :
  forall a, spaced p a s = true -> spaced p false (trimStart s) = true.
Proof.
  induction s as [|c r IH]; intros a Hs; [reflexivity|].
  destruct (spaced_head _ _ _ _ Hs) as [(-> & _ & Hr)|(Heq & Hp & Hsp & Hr)].
  - cbn [trimStart]. rewrite space_isSpace. eapply IH, Hr.
  - cbn [trimStart]. rewrite Hsp. cbn [spaced]. rewrite Heq, Hp, Hsp, Hr. reflexivity.
Qed.

Lemma trimEnd_spaced (p : ascii -> bool) (s : string) :
  forall a, spaced p a s = true -> spaced p a (trimEnd s) = true.
Proof.
  induction s as [|c r IH]; intros a Hs; [reflexivity|].
  cbn [trimEnd].
  destruct (spaced_head _ _ _ _ Hs) as [(-> & -> & Hr)|(Heq & Hp & Hsp & Hr)].
  - pose proof (IH _ Hr) as Hr'. destruct (trimEnd r); [reflexivity|].
    cbn [spaced]. rewrite Ascii.eqb_refl. exact Hr'.
  - pose proof (IH _ Hr) as Hr'. rewrite Hsp. destruct (trimEnd r).
    + cbn [spaced]. rewrite Heq, Hp, Hsp. reflexivity.
    + cbn [spaced] in *. rewrite Heq, Hp, Hsp. exact Hr'.
Qed.

Lemma stripTrailingMarks_spaced (p : ascii -> bool) (s : string) :
  forall a, spaced p a s = true -> spaced p a (stripTrailingMarks s) = true.
Proof.
  induction s as [|c r IH]; intros a Hs; [reflexivity|].
  cbn [stripTrailingMarks].
  destruct (spaced_head _ _ _ _ Hs) as [(-> & -> & Hr)|(Heq & Hp & Hsp & Hr)].
  - pose proof (IH _ Hr) as Hr'. destruct (stripTrailingMarks r); [reflexivity|].
    cbn [spaced]. rewrite Ascii.eqb_refl. exact Hr'.
  - pose proof (IH _ Hr) as Hr'. destruct (stripTrailingMarks r).
    + destruct (_ || _)%bool; [reflexivity|].
      cbn [spaced]. rewrite Heq, Hp, Hsp. reflexivity.
    + cbn [spaced] in *. rewrite Heq, Hp, Hsp. exact Hr'.
Qed.

(** [trim] is idempotent. *)
Lemma trimEnd_twice (s : string) : trimEnd (trimEnd s) = trimEnd s.
Proof.
  induction s as [|c r IH]; [reflexivity|].
  cbn [trimEnd]. destruct (trimEnd r) as [|d r'] eqn:Hr.
  - destruct (isSpace c) eqn:Hsp; [reflexivity|]. cbn [trimEnd]. rewrite Hsp. reflexivity.
  - cbn [trimEnd] in *. rewrite IH. reflexivity.
Qed.

Lemma headIsSpace_trimStart (s : string) : headIsSpace (trimStart s) = false.
Proof.
  induction s as [|c r IH]; [reflexivity|].
  cbn [trimStart]. destruct (isSpace c) eqn:Hsp; [exact IH|]. cbn. exact Hsp.
Qed.

Lemma headIsSpace_trimEnd (s : string) :
  headIsSpace s = false -> headIsSpace (trimEnd s) = false.
Proof.
  destruct s as [|c r]; [reflexivity|]. cbn [headIsSpace trimEnd]. intros Hsp.
  rewrite Hsp. destruct (trimEnd r); cbn; exact Hsp.
Qed.

Lemma trimStart_id (s : string) : headIsSpace s = false -> trimStart s = s.
Proof.
  destruct s as [|c r]; [reflexivity|]. cbn. intros ->. reflexivity.
Qed.

Lemma trim_twice (s : string) : trim (trim s) = trim s.
Proof.
  unfold trim.
  rewrite (trimStart_id (trimEnd (trimStart s))).
  - apply trimEnd_twice.
  - apply headIsSpace_trimEnd, headIsSpace_trimStart.
Qed.

Lemma spaced_allChars (p : ascii -> bool) (s : string) :
  forall a, spaced p a s = true ->
            allChars (fun c => (p c || Ascii.eqb c " ")%bool) s = true.
Proof.
  induction s as [|c r IH]; intros a Hs; [reflexivity|].
  cbn [allChars].
  destruct (spaced_head _ _ _ _ Hs) as [(-> & _ & Hr)|(Heq & Hp & Hsp & Hr)].
  - rewrite Ascii.eqb_refl, orb_true_r. cbn. eapply IH, Hr.
  - rewrite Hp. cbn. eapply IH, Hr.
Qed.

Lemma prefix_two_spaces (c : ascii) (r : string) :
  String.prefix "  " (String c r) = true ->
  c = " "%char /\ exists d r', r = String d r' /\ d = " "%char.
Proof.
  cbn [String.prefix]. destruct (Ascii.ascii_dec " " c) as [Hc|Hne]; [subst c|discriminate].
  destruct r as [|d r']; [discriminate|].
  cbn [String.prefix]. destruct (Ascii.ascii_dec " " d) as [Hd|Hne]; [subst d|discriminate].
  intros _. split; [reflexivity|]. exists " "%char, r'. auto.
Qed.

Lemma spaced_no_double (p : ascii -> bool) (s : string) :
  forall a, spaced p a s = true -> includes s "  " = false.
Proof.
  induction s as [|c r IH]; intros a Hs; [reflexivity|].
  cbn [includes].
  destruct (String.prefix "  " (String c r)) eqn:Hpre.
  - exfalso. apply prefix_two_spaces in Hpre as (-> & d & r' & -> & ->).
    cbn in Hs. rewrite andb_false_r in Hs. discriminate.
  - cbn [orb].
    destruct (spaced_head _ _ _ _ Hs) as [(-> & _ & Hr)|(Heq & Hp & Hsp & Hr)];
      eapply IH, Hr.
Qed.

Lemma collapseFrom_id (p : ascii -> bool) (s : string) :
  forall a, spaced p a s = true -> collapseFrom a s = s.
Proof.
  induction s as [|c r IH]; intros a Hs; [reflexivity|].
  cbn [collapseFrom].
  destruct (spaced_head _ _ _ _ Hs) as [(-> & -> & Hr)|(Heq & Hp & Hsp & Hr)].
  - rewrite space_isSpace, (IH _ Hr). reflexivity.
  - rewrite Hsp, (IH _ Hr). reflexivity.
Qed.

Lemma filterChars_allChars (keep : ascii -> bool) (s : string) :
  allChars keep (filterChars keep s) = true.
Proof.
  induction s as [|c r IH]; [reflexivity|].
  cbn [filterChars]. destruct (keep c) eqn:Hc; [|exact IH].
  cbn [allChars]. rewrite Hc. exact IH.
Qed.

Lemma filterChars_id (keep : ascii -> bool) (s : string) :
  allChars keep s = true -> filterChars keep s = s.
Proof.
  induction s as [|c r IH]; [reflexivity|].
  cbn [allChars filterChars]. intros Hall. apply andb_true_iff in Hall as [-> Hr].
  rewrite (IH Hr). reflexivity.
Qed.

Lemma allChars_impl (p q : ascii -> bool) (s : string) :
  (forall c, p c = true -> q c = true) -> allChars p s = true -> allChars q s = true.
Proof.
  intros Hpq. induction s as [|c r IH]; [reflexivity|].
  cbn [allChars]. intros Hall. apply andb_true_iff in Hall as [Hc Hr].
  rewrite (Hpq c Hc), (IH Hr). reflexivity.
Qed.

(** A small letter, a digit and the space are their own lower case. *)
Lemma toLowerChar_alnum (c : ascii) :
  (isAlnum c || Ascii.eqb c " ")%bool = true -> toLowerChar c = c.
Proof.
  destruct c as [[] [] [] [] [] [] [] []]; vm_compute; intros Hc;
    first [reflexivity|discriminate].
Qed.

Lemma isSpace_alnum (c : ascii) : isAlnum c = true -> isSpace c = false.
Proof.
  destruct c as [[] [] [] [] [] [] [] []]; vm_compute; intros Hc;
    first [reflexivity|discriminate].
Qed.

Lemma toLowerCase_id (s : string) :
  allChars (fun c => (isAlnum c || Ascii.eqb c " ")%bool) s = true -> toLowerCase s = s.
Proof.
  induction s as [|c r IH]; [reflexivity|].
  cbn [allChars toLowerCase]. intros Hall. apply andb_true_iff in Hall as [Hc Hr].
  rewrite (toLowerChar_alnum c Hc), (IH Hr). reflexivity.
Qed.

Lemma normalizeLabel_spaced (label : string) :
  spaced isAlnum false (Injector.normalizeLabel label) = true.
Proof.
  unfold Injector.normalizeLabel, trim, collapseSpaces.
  apply trimEnd_spaced. eapply trimStart_spaced.
  apply collapseFrom_spaced. apply (filterChars_allChars _ (toLowerCase label)).
Qed.

Lemma cleanLabelText_spaced (text : string) :
  spaced isInk false (Detector.cleanLabelText text) = true.
Proof.
  unfold Detector.cleanLabelText, trim at 1, collapseSpaces.
  apply trimEnd_spaced. eapply trimStart_spaced.
  apply stripTrailingMarks_spaced. apply collapseFrom_spaced.
  generalize (trim text). intros s. induction s as [|c r IH]; [reflexivity|].
  cbn [allChars]. rewrite IH. unfold isInk. destruct (isSpace c); reflexivity.
Qed.

End ShapeFacts.

(** X7. The label [normalizeLabel] returns is made of small letters,
    digits and spaces, with no two spaces in a row and no space at either
    end. *)
Theorem normalizeLabel_shape (label : string) :
  let normalized := Injector.normalizeLabel label in
  JS.allChars (fun c => (JS.isLower c || JS.isDigit c || Ascii.eqb c " ")%bool) normalized
  = true
  /\ JS.includes normalized "  " = false
  /\ JS.trim normalized = normalized.
Proof.
  cbv zeta. pose proof (normalizeLabel_spaced label) as Hs.
  split; [|split].
  - exact (spaced_allChars _ _ _ Hs).
  - exact (spaced_no_double _ _ _ Hs).
  - unfold Injector.normalizeLabel. apply trim_twice.
Qed.

(** X8. [normalizeLabel] is idempotent: a normalized label is its own
    normal form, so the matcher finds for a normalized label what it finds
    for the label itself. *)
Theorem normalizeLabel_idempotent (label : string) :
  Injector.normalizeLabel (Injector.normalizeLabel label) = Injector.normalizeLabel label
  /\ forall formFields : list DetectedFormField,
       Injector.findMatchingField (Injector.normalizeLabel label) formFields
       = Injector.findMatchingField label formFields.
Proof.
  assert (Injector.normalizeLabel (Injector.normalizeLabel label)
          = Injector.normalizeLabel label) as Hidem.
  { pose proof (normalizeLabel_spaced label) as Hs.
    pose proof (spaced_allChars _ _ _ Hs) as Hall.
    set (n := Injector.normalizeLabel label) in *.
    unfold Injector.normalizeLabel at 1.
    rewrite (toLowerCase_id n Hall).
    unfold JS.stripNonAlnum. rewrite filterChars_id.
    - unfold JS.collapseSpaces. rewrite (collapseFrom_id _ _ _ Hs).
      unfold n, Injector.normalizeLabel. apply trim_twice.
    - eapply allChars_impl; [|exact Hall]. intros c Hc. cbv beta in *.
      apply orb_true_iff in Hc as [Hc|Hc].
      + unfold Shape.isAlnum in Hc. rewrite Hc. reflexivity.
      + apply Ascii.eqb_eq in Hc. subst c. reflexivity. }
  split; [exact Hidem|].
  intros formFields. unfold Injector.findMatchingField. rewrite Hidem. reflexivity.
Qed.

(** X26. In the label [cleanLabelText] returns every white-space character
    is a space, no two spaces stand in a row, and none stands at either
    end: a cleaned label is one line. *)
Theorem cleanLabelText_shape (text : string) :
  let cleaned := Detector.cleanLabelText text in
  JS.allChars (fun c => (negb (JS.isSpace c) || Ascii.eqb c " ")%bool) cleaned = true
  /\ JS.includes cleaned "  " = false
  /\ JS.trim cleaned = cleaned.
Proof.
  cbv zeta. pose proof (cleanLabelText_spaced text) as Hs.
  split; [|split].
  - exact (spaced_allChars _ _ _ Hs).
  - exact (spaced_no_double _ _ _ Hs).
  - unfold Detector.cleanLabelText. apply trim_twice.
Qed.
Section ScoreFacts.
Import Injector.

Lemma countMatches_le (keywords1 keywords2 : list string) :
  countMatches keywords1 keywords2 <= length keywords1.
Proof. unfold countMatches. apply filter_length_le. Qed.

Lemma includes_empty (s : string) : JS.includes s "" = true.
Proof. destruct s; reflexivity. Qed.

Lemma countMatches_self (keywords : list string) :
  countMatches keywords keywords = length keywords.
Proof.
  unfold countMatches.
  rewrite forallb_filter_id; [reflexivity|].
  apply forallb_forall. intros k Hk. apply existsb_exists. exists k.
  split; [exact Hk|]. unfold keywordsMatch. rewrite String.eqb_refl. reflexivity.
Qed.

End ScoreFacts.

(** X9. The score of [calculateMatchScore] lies between 0 and 1; it is 0
    when either list of keywords is empty, and 1 for a list of keywords,
    not empty, against itself. *)
Theorem calculateMatchScore_bounds (keywords1 keywords2 : list string) :
  (0 <= Injector.calculateMatchScore keywords1 keywords2)%Q
  /\ (Injector.calculateMatchScore keywords1 keywords2 <= 1)%Q
  /\ Injector.calculateMatchScore [] keywords2 = 0%Q
  /\ Injector.calculateMatchScore keywords1 [] = 0%Q
  /\ forall keyword : string,
       (Injector.calculateMatchScore (keyword :: keywords1) (keyword :: keywords1) == 1)%Q.
Proof.
  split; [|split; [|split; [|split]]].
  - unfold Injector.calculateMatchScore. destruct (_ || _)%bool; [lra|].
    unfold Qle. cbn. lia.
  - unfold Injector.calculateMatchScore.
    destruct (Nat.eqb (length keywords1) 0 || Nat.eqb (length keywords2) 0)%bool eqn:Hempty;
      [lra|].
    apply orb_false_iff in Hempty as [H1 H2]. apply Nat.eqb_neq in H1, H2.
    pose proof (countMatches_le keywords1 keywords2) as Hle.
    unfold Qle. cbn [Qnum Qden]. rewrite Z.mul_1_r, Z.mul_1_l.
    rewrite <- positive_nat_Z, Nat2Pos.id by lia. lia.
  - reflexivity.
  - unfold Injector.calculateMatchScore. rewrite orb_true_r. reflexivity.
  - intros keyword. unfold Injector.calculateMatchScore.
    cbn [length Nat.eqb orb]. rewrite countMatches_self, Nat.max_id.
    unfold Qeq. cbn [Qnum Qden length]. rewrite Z.mul_1_r, Z.mul_1_l.
    rewrite <- positive_nat_Z, Nat2Pos.id by lia. reflexivity.
Qed.

Section MatchFacts.
Import Injector.

Lemma exactLoop_cases (na : string) (fields : list DetectedFormField) :
  match exactLoop na fields with
  | Some f => In f fields /\ normalizeLabel (label f) = na
  | None => Forall (fun f => String.eqb (normalizeLabel (label f)) na = false) fields
  end.
Proof.
  induction fields as [|field rest IH]; cbn [exactLoop]; [constructor|].
  destruct (String.eqb (normalizeLabel (label field)) na) eqn:Heq.
  - split; [left; reflexivity|apply String.eqb_eq, Heq].
  - destruct (exactLoop na rest) as [f|].
    + destruct IH. split; [right; assumption|assumption].
    + constructor; assumption.
Qed.

Lemma partialLoop_cases (na : string) (fields : list DetectedFormField) :
  match partialLoop na fields with
  | Some f => In f fields
  | None => Forall (fun f => JS.includes (normalizeLabel (label f)) na = false
                             /\ JS.includes na (normalizeLabel (label f)) = false) fields
  end.
Proof.
  induction fields as [|field rest IH]; cbn [partialLoop]; [constructor|].
  destruct (_ || _)%bool eqn:Hor.
  - left; reflexivity.
  - apply orb_false_iff in Hor. destruct (partialLoop na rest) as [f|].
    + right; assumption.
    + constructor; assumption.
Qed.

Lemma fuzzyLoop_member (kw : list string) (fields : list DetectedFormField) :
  forall best bestScore f,
    fuzzyLoop kw fields best bestScore = Some f -> best = Some f \/ In f fields.
Proof.
  induction fields as [|field rest IH]; intros best bestScore f; cbn [fuzzyLoop].
  - auto.
  - destruct (_ && _)%bool; intros Hf; apply IH in Hf as [Hf|Hf].
    + injection Hf as <-. right. left. reflexivity.
    + right. right. exact Hf.
    + left. exact Hf.
    + right. right. exact Hf.
Qed.

End MatchFacts.

(** X5. [findMatchingField] hands out fields of the catalog it was given
    and no other; from an empty catalog it returns no field. *)
Theorem findMatchingField_picks_from_the_catalog
        (answerLabel : string) (formFields : list DetectedFormField) :
  (forall field, Injector.findMatchingField answerLabel formFields = Some field ->
                 In field formFields)
  /\ Injector.findMatchingField answerLabel [] = None.
Proof.
  split; [|reflexivity]. intros field Hfound.
  unfold Injector.findMatchingField in Hfound. cbv zeta in Hfound.
  pose proof (exactLoop_cases (Injector.normalizeLabel answerLabel) formFields) as Hexact.
  destruct (Injector.exactLoop _ formFields) as [f|].
  - injection Hfound as <-. apply Hexact.
  - pose proof (partialLoop_cases (Injector.normalizeLabel answerLabel) formFields)
      as Hpartial.
    destruct (Injector.partialLoop _ formFields) as [f|].
    + injection Hfound as <-. exact Hpartial.
    + apply fuzzyLoop_member in Hfound as [Hnone|Hin]; [discriminate|exact Hin].
Qed.

(** X6. An answer whose label holds no letter and no digit is bound to a
    field whenever the catalog is not empty: to the first field whose
    label holds none either, and to the first field of the catalog when
    there is no such field.  And when some field of the catalog has a
    label with no letter and no digit, every answer is bound to a field. *)
Theorem label_without_letters_matches
        (answerLabel : string) (first : DetectedFormField) (rest : list DetectedFormField) :
  (Injector.normalizeLabel answerLabel = "" ->
   Injector.findMatchingField answerLabel (first :: rest)
   = Some (default first
             (List.find (fun f => String.eqb (Injector.normalizeLabel (label f)) "")
                        (first :: rest))))
  /\ (Exists (fun f => Injector.normalizeLabel (label f) = "") (first :: rest) ->
      is_Some (Injector.findMatchingField answerLabel (first :: rest))).
Proof.
  split.
  - intros Hblank. unfold Injector.findMatchingField. cbv zeta. rewrite Hblank.
    rewrite exactLoop_find. unfold MatcherSpec.equalLabels.
    destruct (List.find _ (first :: rest)) as [f|]; [reflexivity|].
    cbn [Injector.partialLoop default]. rewrite includes_empty. reflexivity.
  - intros Hex. unfold Injector.findMatchingField. cbv zeta.
    destruct (Injector.exactLoop _ _); [eauto|].
    pose proof (partialLoop_cases (Injector.normalizeLabel answerLabel) (first :: rest))
      as Hpartial.
    destruct (Injector.partialLoop _ _); [eauto|].
    exfalso. apply Exists_exists in Hex as (f & Hin & Hf).
    rewrite Forall_forall in Hpartial. destruct (Hpartial f Hin) as [_ Hno].
    rewrite Hf, includes_empty in Hno. discriminate.
Qed.


Section FrameFacts.
Import Eff Injector FrameSpec.
Context `{Host}.

Lemma sameStyle_refl (doc : Dom.Document) : sameStyle doc doc.
Proof. intros i e He. exists e. auto. Qed.

Lemma update_sameStyle (j : nat) (f : Dom.Element -> Dom.Element) (doc : Dom.Document) :
  (forall e, Dom.attrs (f e) = Dom.attrs e /\ Dom.border (f e) = Dom.border e
             /\ Dom.boxShadow (f e) = Dom.boxShadow e) ->
  sameStyle doc (Dom.update j f doc).
Proof.
  intros Hf i e He. rewrite element_update.
  destruct (decide (i = j)) as [->|Hne].
  - rewrite He. exists (f e). split; [reflexivity|apply Hf].
  - exists e. auto.
Qed.

Lemma setValue_style (v : string) (e : Dom.Element) :
  Dom.attrs (Dom.setValue v e) = Dom.attrs e
  /\ Dom.border (Dom.setValue v e) = Dom.border e
  /\ Dom.boxShadow (Dom.setValue v e) = Dom.boxShadow e.
Proof. unfold Dom.setValue. destruct (Dom.isSelect e); repeat split. Qed.

Lemma setChecked_sameStyle (i : nat) (b : bool) (doc : Dom.Document) :
  sameStyle doc (Dom.setChecked i b doc).
Proof.
  unfold Dom.setChecked. destruct (Dom.element doc i) as [ei|]; [|apply sameStyle_refl].
  destruct (b && Dom.isRadio ei)%bool.
  - intros j e He. unfold Dom.element in *. rewrite list_lookup_imap.
    destruct (doc !! j) as [[p [d|e0]]|]; try discriminate.
    injection He as ->. cbn.
    destruct (Nat.eqb j i); [eexists; split; [reflexivity|repeat split]|].
    destruct (Dom.sameRadioGroup _ _ _ _ _); eexists; split; try reflexivity; repeat split.
  - apply update_sameStyle. intros e. repeat split.
Qed.

Lemma injectTextInput_wellBehaved : wellBehaved injectTextInput.
Proof.
  intros i content w. unfold injectTextInput, getElement, updateElement, tryCatch.
  eff_unfold. destruct (Dom.element (document w) i) as [e|].
  - eexists. eexists. split; [reflexivity|]. split; [reflexivity|].
    split; [discriminate|]. cbn. apply update_sameStyle, setValue_style.
  - eexists. eexists. split; [reflexivity|]. split; [reflexivity|].
    split; [reflexivity|apply sameStyle_refl].
Qed.

Lemma injectTextarea_wellBehaved : wellBehaved injectTextarea.
Proof.
  intros i content w. unfold injectTextarea, getElement, updateElement, tryCatch.
  eff_unfold. destruct (Dom.element (document w) i) as [e|].
  - eexists. eexists. split; [reflexivity|]. split; [reflexivity|].
    split; [discriminate|]. cbn. apply update_sameStyle, setValue_style.
  - eexists. eexists. split; [reflexivity|]. split; [reflexivity|].
    split; [reflexivity|apply sameStyle_refl].
Qed.

Lemma injectSelect_wellBehaved : wellBehaved injectSelect.
Proof.
  intros i content w. unfold injectSelect, getElement, updateElement, tryCatch.
  eff_unfold. destruct (Dom.element (document w) i) as [e|].
  - destruct (Dom.isSelect e).
    + destruct (findIndex _ _).
      * eexists. eexists. split; [reflexivity|]. split; [reflexivity|].
        split; [discriminate|]. cbn. apply update_sameStyle. intros e0. repeat split.
      * eexists. eexists. split; [reflexivity|]. split; [reflexivity|].
        split; [reflexivity|apply sameStyle_refl].
    + eexists. eexists. split; [reflexivity|]. split; [reflexivity|].
      split; [reflexivity|apply sameStyle_refl].
  - eexists. eexists. split; [reflexivity|]. split; [reflexivity|].
    split; [reflexivity|apply sameStyle_refl].
Qed.

Lemma injectCheckbox_wellBehaved : wellBehaved injectCheckbox.
Proof.
  intros i content w. unfold injectCheckbox, getElement, tryCatch.
  eff_unfold. destruct (Dom.element (document w) i) as [e|].
  - eexists. eexists. split; [reflexivity|]. split; [reflexivity|].
    split; [discriminate|]. cbn. apply setChecked_sameStyle.
  - eexists. eexists. split; [reflexivity|]. split; [reflexivity|].
    split; [reflexivity|apply sameStyle_refl].
Qed.

(** Resolving the label of a radio button reads the page and leaves it
    alone. *)
Lemma findRadioLabel_pure (radio : nat) (e : Dom.Element) (w : World) :
  (exists l, findRadioLabel radio e w = Ok l w)
  \/ (exists err, findRadioLabel radio e w = Throw err w).
Proof.
  unfold findRadioLabel, queryLabelFor. eff_unfold.
  destruct (truthy (Dom.id (Dom.attrs e)));
    [destruct (cssAttrValue (Dom.id (Dom.attrs e))); [|right; eauto]|];
    left;
    repeat match goal with
           | |- context [match ?x with _ => _ end] => destruct x
           end; eauto.
Qed.

(** The loop over the group answers [false] or throws without a write,
    or checks one button of the group and answers [true]. *)
Lemma radioLoop_cases (normalizedContent : string) (radioGroup : list (nat * Dom.Element)) :
  forall w,
    radioLoop normalizedContent radioGroup w = Ok false w
    \/ (exists err, radioLoop normalizedContent radioGroup w = Throw err w)
    \/ (exists j e, In (j, e) radioGroup
          /\ radioLoop normalizedContent radioGroup w
             = Ok true (withDocument (Dom.setChecked j true) w)).
Proof.
  induction radioGroup as [|[j e] rest IH]; intros w; [left; reflexivity|].
  cbn [radioLoop]. eff_unfold.
  destruct (findRadioLabel_pure j e w) as [[l ->]|[err ->]]; [|right; left; eauto].
  destruct (_ || _)%bool.
  - right. right. exists j, e. split; [left; reflexivity|reflexivity].
  - destruct (IH w) as [IHw|[(err & IHw)|(j' & e' & Hin & IHw)]].
    + left. exact IHw.
    + right. left. eauto.
    + right. right. exists j', e'. split; [right; exact Hin|exact IHw].
Qed.

Lemma injectRadio_wellBehaved : wellBehaved injectRadio.
Proof.
  intros i content w. unfold injectRadio, getElement, queryRadioGroup, tryCatch.
  eff_unfold. destruct (Dom.element (document w) i) as [e|].
  - destruct (cssAttrValue (Dom.name e)) as [v|].
    + match goal with
      | |- context [radioLoop ?nc ?group w] =>
          destruct (radioLoop_cases nc group w) as [->|[(err & ->)|(j & ej & _ & ->)]]
      end.
      * eexists. eexists. split; [reflexivity|]. split; [reflexivity|].
        split; [reflexivity|apply sameStyle_refl].
      * eexists. eexists. split; [reflexivity|]. split; [reflexivity|].
        split; [reflexivity|apply sameStyle_refl].
      * eexists. eexists. split; [reflexivity|]. split; [reflexivity|].
        split; [discriminate|]. cbn. apply setChecked_sameStyle.
    + eexists. eexists. split; [reflexivity|]. split; [reflexivity|].
      split; [reflexivity|apply sameStyle_refl].
  - eexists. eexists. split; [reflexivity|]. split; [reflexivity|].
    split; [reflexivity|apply sameStyle_refl].
Qed.

Lemma injectDate_wellBehaved : wellBehaved injectDate.
Proof.
  intros i content w. unfold injectDate, getElement, updateElement, tryCatch.
  eff_unfold. destruct (parseDate content) as [dateString|].
  - destruct (truthy dateString).
    + destruct (Dom.element (document w) i) as [e|].
      * eexists. eexists. split; [reflexivity|]. split; [reflexivity|].
        split; [discriminate|]. cbn. apply update_sameStyle, setValue_style.
      * eexists. eexists. split; [reflexivity|]. split; [reflexivity|].
        split; [reflexivity|apply sameStyle_refl].
    + eexists. eexists. split; [reflexivity|]. split; [reflexivity|].
      split; [reflexivity|apply sameStyle_refl].
  - eexists. eexists. split; [reflexivity|]. split; [reflexivity|].
    split; [reflexivity|apply sameStyle_refl].
Qed.

Lemma injectNumber_wellBehaved : wellBehaved injectNumber.
Proof.
  intros i content w. unfold injectNumber, getElement, updateElement, tryCatch.
  eff_unfold. destruct (JS.matchNumber content) as [token|].
  - destruct (Dom.element (document w) i) as [e|].
    + destruct (_ && _)%bool; [|destruct (_ && _)%bool].
      * eexists. eexists. split; [reflexivity|]. split; [reflexivity|].
        split; [reflexivity|apply sameStyle_refl].
      * eexists. eexists. split; [reflexivity|]. split; [reflexivity|].
        split; [reflexivity|apply sameStyle_refl].
      * eexists. eexists. split; [reflexivity|]. split; [reflexivity|].
        split; [discriminate|]. cbn. apply update_sameStyle, setValue_style.
    + eexists. eexists. split; [reflexivity|]. split; [reflexivity|].
      split; [reflexivity|apply sameStyle_refl].
  - eexists. eexists. split; [reflexivity|]. split; [reflexivity|].
    split; [reflexivity|apply sameStyle_refl].
Qed.

(** Every writer of the [switch] is well behaved. *)
Lemma writerFor_wellBehaved (type : string) (writer : nat -> string -> M World bool) :
  writerFor type = Some writer -> wellBehaved writer.
Proof.
  unfold writerFor.
  repeat match goal with
         | |- context [if ?c then _ else _] => destruct c
         end;
    intros Hw; try discriminate; injection Hw as <-;
    auto using injectTextInput_wellBehaved, injectTextarea_wellBehaved,
      injectSelect_wellBehaved, injectCheckbox_wellBehaved, injectRadio_wellBehaved,
      injectDate_wellBehaved, injectNumber_wellBehaved.
Qed.

(** How one injection runs: it is refused before anything happens, or it
    finds no writer once the element is focused, or its writer runs on the
    focused page; a writer that succeeded is followed by the four events,
    the highlight and the timer that removes it. *)
Lemma injectSingleField_anatomy (f : DetectedFormField) (content : string) (w : World) :
  let i := element f in
  (exists w', injectSingleField f content w = Ok false w'
     /\ document w' = document w /\ around w' = around w
     /\ (Dom.element (document w) i = None
         \/ exists e, Dom.element (document w) i = Some e /\ interactable e = false))
  \/ (exists e w', Dom.element (document w) i = Some e /\ interactable e = true
        /\ writerFor (type f) = None
        /\ injectSingleField f content w = Ok false w'
        /\ document w' = document (ready i w) /\ around w' = around (ready i w))
  \/ (exists e writer b w2 e2,
        Dom.element (document w) i = Some e /\ interactable e = true
        /\ writerFor (type f) = Some writer
        /\ writer i content (ready i w) = Ok b w2
        /\ Dom.element (document w2) i = Some e2
        /\ exists w', injectSingleField f content w = Ok b w'
           /\ injectedFields w' = injectedFields w2 /\ now w' = now w2
           /\ notifications w' = notifications w2 /\ created w' = created w2
           /\ if b then
                document w'
                = Dom.update i (Dom.setLive (Dom.withStyle
                    "2px solid #10b981" "0 0 0 3px rgba(16, 185, 129, 0.1)")) (document w2)
                /\ events w' = events w2 ++ changeEvents i
                /\ timers w'
                   = enqueue (mkTimer (now w2 + 2000)
                                (RestoreStyle i (Dom.border e2) (Dom.boxShadow e2)))
                             (timers w2)
              else document w' = document w2 /\ events w' = events w2
                   /\ timers w' = timers w2).
Proof.
  cbv zeta.
  destruct (Dom.element (document w) (element f)) as [e|] eqn:He.
  - destruct (interactable e) eqn:Hint.
    + destruct (writerFor (type f)) as [writer|] eqn:Hwriter.
      * right. right.
        destruct (writerFor_wellBehaved _ _ Hwriter (element f) content
                    (ready (element f) w)) as (b & w2 & Hrun & _ & _ & Hstyle).
        destruct (ready_styleOnly (element f) w _ _ He) as (e1 & He1 & _).
        destruct (Hstyle _ _ He1) as (e2 & He2 & _).
        exists e, writer, b, w2, e2.
        split; [reflexivity|]. split; [exact Hint|]. split; [reflexivity|].
        split; [exact Hrun|]. split; [exact He2|].
        unfold injectSingleField, isElementInteractable, getElement, tryCatch. eff_unfold.
        rewrite He. fold (interactable e). rewrite Hint. cbn [negb].
        unfold focusElement, dispatch, sleep, tryCatch. eff_unfold.
        fold (ready (element f) w). rewrite Hwriter, Hrun.
        destruct b.
        -- unfold triggerChangeEvents, addSuccessHighlight, getElement, updateElement,
             dispatch, tryCatch. cbn [forEach]. eff_unfold.
           cbn [document withEvents]. rewrite He2.
           eexists. split; [reflexivity|]. cbn.
           repeat split. rewrite <- !app_assoc. reflexivity.
        -- eexists. split; [reflexivity|]. cbn. repeat split.
      * right. left. exists e. eexists.
        split; [reflexivity|]. split; [exact Hint|]. split; [reflexivity|].
        unfold injectSingleField, isElementInteractable, getElement, tryCatch. eff_unfold.
        rewrite He. fold (interactable e). rewrite Hint. cbn [negb].
        unfold focusElement, dispatch, sleep, tryCatch. eff_unfold.
        fold (ready (element f) w). rewrite Hwriter.
        split; [reflexivity|]. split; reflexivity.
    + left. eexists. split.
      * unfold injectSingleField, isElementInteractable, getElement, tryCatch. eff_unfold.
        rewrite He. fold (interactable e). rewrite Hint. reflexivity.
      * split; [reflexivity|]. split; [reflexivity|]. right. eauto.
  - left. eexists. split.
    + unfold injectSingleField, isElementInteractable, getElement, tryCatch. eff_unfold.
      rewrite He. reflexivity.
    + split; [reflexivity|]. split; [reflexivity|]. left. reflexivity.
Qed.

End FrameFacts.

Section ClockFacts.
Import Eff Injector FrameSpec.

Lemma runUntil_keeps (fuel t : nat) :
  forall w, injectedFields (runUntil fuel t w) = injectedFields w
            /\ events (runUntil fuel t w) = events w
            /\ created (runUntil fuel t w) = created w
            /\ now (runUntil fuel t w) = Nat.max (now w) t.
Proof.
  induction fuel as [|k IH]; intros w; cbn [runUntil].
  - destruct (timers w); repeat split.
  - destruct (timers w) as [|tm rest]; [repeat split|].
    destruct (Nat.leb (due tm) t) eqn:Hdue; [|repeat split].
    apply Nat.leb_le in Hdue.
    match goal with |- context [runUntil k t ?w1] => destruct (IH w1) as (-> & -> & -> & ->) end.
    destruct (callback tm) as [target b s|id|id]; cbn [fire];
      repeat match goal with |- context [attached ?a ?b] => destruct (attached a b) end;
      cbn; repeat split; lia.
Qed.

(** On a page with no timer pending, time passes and nothing else. *)
Lemma elapse_quiet (ms : nat) (w : World) :
  timers w = [] -> elapse ms w = withNow (now w + ms) w.
Proof.
  intros Hq. unfold elapse, enoughFuel. rewrite Hq. cbn.
  rewrite Nat.max_r by lia. reflexivity.
Qed.

Lemma ready_quiet (i : nat) (w : World) :
  timers w = [] ->
  ready i w = withNow (now w + 100) (withEvents (fun es => es ++ [Focus i]) w).
Proof. intros Hq. unfold ready. rewrite elapse_quiet; [reflexivity|exact Hq]. Qed.

Lemma ready_keeps (i : nat) (w : World) :
  injectedFields (ready i w) = injectedFields w
  /\ events (ready i w) = events w ++ [Focus i]
  /\ created (ready i w) = created w.
Proof.
  unfold ready, elapse.
  match goal with |- context [runUntil ?k ?t ?w1] =>
    destruct (runUntil_keeps k t w1) as (-> & -> & -> & _) end.
  repeat split.
Qed.

End ClockFacts.

Section InjectionFacts.
Import Eff Injector FrameSpec.
Context `{Host}.

Lemma around_fields (w w' : World) :
  around w' = around w ->
  injectedFields w' = injectedFields w /\ events w' = events w /\ now w' = now w
  /\ timers w' = timers w /\ notifications w' = notifications w /\ created w' = created w.
Proof. unfold around. intros Heq. injection Heq as -> -> -> -> -> ->. repeat split. Qed.

End InjectionFacts.

(** X10. An injection into an element that is not displayed, not visible,
    disabled or read-only is refused before anything happens: it answers
    [false], and the document, the registry, the events, the clock, the
    timers and the notifications are as before; only the console has a
    line more. *)
Theorem refused_injection_touches_nothing `{Host}
        (f : DetectedFormField) (content : string) (w : Injector.World) (e : Dom.Element) :
  Dom.element (Injector.document w) (element f) = Some e ->
  interactable e = false ->
  exists w', Injector.injectSingleField f content w = Eff.Ok false w'
    /\ Injector.document w' = Injector.document w
    /\ FrameSpec.around w' = FrameSpec.around w.
Proof.
  intros He Hint.
  destruct (injectSingleField_anatomy f content w)
    as [(w' & Hrun & Hdoc & Haround & _)
       |[(e0 & w' & He0 & Hint0 & _)|(e0 & writer & b & w2 & e2 & He0 & Hint0 & _)]].
  - eauto.
  - congruence.
  - congruence.
Qed.

(** X11. What the page hears of an injection.  An element that is not
    interactable hears nothing; an interactable one is focused; after a
    write that succeeded it receives [input], [change], [blur] and a second
    [input], in this order, and after a write that failed nothing more. *)
Theorem injection_dispatches_events `{Host}
        (f : DetectedFormField) (content : string) (w : Injector.World) (e : Dom.Element) :
  Dom.element (Injector.document w) (element f) = Some e ->
  exists (b : bool) (w' : Injector.World),
    Injector.injectSingleField f content w = Eff.Ok b w'
    /\ Injector.events w'
       = Injector.events w
         ++ (if interactable e
             then Injector.Focus (element f)
                  :: (if b then FrameSpec.changeEvents (element f) else [])
             else []).
Proof.
  intros He.
  destruct (injectSingleField_anatomy f content w)
    as [(w' & Hrun & Hdoc & Haround & Hwhy)
       |[(e0 & w' & He0 & Hint0 & _ & Hrun & _ & Haround)
        |(e0 & writer & b & w2 & e2 & He0 & Hint0 & Hwriter & Hw2 & _ & w' & Hrun
          & _ & _ & _ & _ & Hb)]].
  - exists false, w'. split; [exact Hrun|].
    apply around_fields in Haround as (_ & -> & _).
    destruct Hwhy as [Hnone|(e0 & He0 & Hint0)]; [congruence|].
    assert (e0 = e) as -> by congruence. rewrite Hint0, app_nil_r. reflexivity.
  - exists false, w'. split; [exact Hrun|].
    assert (e0 = e) as -> by congruence. rewrite Hint0.
    apply around_fields in Haround as (_ & -> & _).
    apply ready_keeps.
  - exists b, w'. split; [exact Hrun|].
    assert (e0 = e) as -> by congruence. rewrite Hint0.
    destruct (writerFor_wellBehaved _ _ Hwriter (element f) content
                (WriteSpec.ready (element f) w)) as (b' & w2' & Hrun' & Haround & _).
    rewrite Hw2 in Hrun'. injection Hrun' as <- <-.
    apply around_fields in Haround as (_ & Hev & _).
    destruct (ready_keeps (element f) w) as (_ & Hfocus & _).
    destruct b.
    + destruct Hb as (_ & -> & _). rewrite Hev, Hfocus, <- app_assoc. reflexivity.
    + destruct Hb as (_ & -> & _). rewrite Hev, Hfocus. reflexivity.
Qed.

(** X12. An injection that answers [false] has written nothing: every
    element keeps its attributes, value, checked state and options, and the
    registry is as before.  When no timer was pending the document is the
    same and no timer is pending after. *)
Theorem failed_injection_writes_nothing `{Host}
        (f : DetectedFormField) (content : string) (w w' : Injector.World) :
  Injector.injectSingleField f content w = Eff.Ok false w' ->
  styleOnly (Injector.document w) (Injector.document w')
  /\ Injector.injectedFields w' = Injector.injectedFields w
  /\ (Injector.timers w = [] ->
      Injector.document w' = Injector.document w /\ Injector.timers w' = []).
Proof.
  intros Hfalse.
  assert (Injector.timers w = [] ->
          Injector.document (WriteSpec.ready (element f) w) = Injector.document w
          /\ Injector.timers (WriteSpec.ready (element f) w) = []) as Hquiet.
  { intros Hq. rewrite (ready_quiet _ _ Hq). split; [reflexivity|exact Hq]. }
  destruct (ready_keeps (element f) w) as (Hreg & _).
  destruct (injectSingleField_anatomy f content w)
    as [(w0 & Hrun & Hdoc & Haround & _)
       |[(e0 & w0 & _ & _ & _ & Hrun & Hdoc & Haround)
        |(e0 & writer & b & w2 & e2 & _ & _ & Hwriter & Hw2 & _ & w0 & Hrun
          & Hreg0 & _ & _ & _ & Hb)]].
  - assert (w0 = w') as -> by congruence.
    apply around_fields in Haround as (Hr & _ & _ & Ht & _).
    rewrite Hdoc. split; [apply styleOnly_refl|]. split; [exact Hr|].
    intros Hq. split; [reflexivity|congruence].
  - assert (w0 = w') as -> by congruence.
    apply around_fields in Haround as (Hr & _ & _ & Ht & _).
    rewrite Hdoc. split; [apply ready_styleOnly|]. split; [congruence|].
    intros Hq. destruct (Hquiet Hq). split; congruence.
  - assert (b = false /\ w0 = w') as [-> ->] by (split; congruence).
    destruct Hb as (Hdoc & _ & Ht).
    destruct (writerFor_wellBehaved _ _ Hwriter (element f) content
                (WriteSpec.ready (element f) w)) as (b' & w2' & Hrun' & Haround & Hsame & _).
    rewrite Hw2 in Hrun'. injection Hrun' as <- <-.
    apply around_fields in Haround as (Hr & _ & _ & Ht2 & _).
    rewrite Hdoc, (Hsame eq_refl).
    split; [apply ready_styleOnly|]. split; [congruence|].
    intros Hq. destruct (Hquiet Hq). split; congruence.
Qed.




Section QueueFacts.
Import Eff Injector FrameSpec QueueSpec.
Context `{Host}.

Lemma In_enqueue (t x : Timer) (q : list Timer) :
  In x (enqueue t q) <-> x = t \/ In x q.
Proof.
  induction q as [|t' r IH]; cbn.
  - intuition.
  - destruct (Nat.leb (due t') (due t)); cbn; [rewrite IH|]; intuition.
Qed.

Lemma sortedQueue_tail (tm : Timer) (rest : list Timer) :
  sortedQueue (tm :: rest) -> sortedQueue rest.
Proof. intros [_ Hrest]. exact Hrest. Qed.

(** Firing the timer at the head of the queue keeps the queue in order
    and every notification covered. *)
Lemma fire_orderly (tm : Timer) (rest : list Timer) (t : nat) (w : World) :
  timers w = tm :: rest -> orderly w ->
  orderly (fire (callback tm) (withTimers (fun _ => rest) (withNow t w))).
Proof.
  intros Hq [Hsorted Hcov]. rewrite Hq in Hsorted.
  pose proof (sortedQueue_tail _ _ Hsorted) as Hrest.
  assert (forall n, In n (notifications w) ->
            (callback tm = HideNotification (n_id n)
             \/ callback tm = RemoveNotification (n_id n))
            \/ exists tm', In tm' rest
                 /\ (callback tm' = HideNotification (n_id n)
                     \/ callback tm' = RemoveNotification (n_id n))) as Hcov'.
  { intros n Hn. destruct (Hcov n Hn) as (tm' & Hin & Hcb). rewrite Hq in Hin.
    destruct Hin as [<-|Hin]; [left; exact Hcb|right; eauto]. }
  assert (forall id n, In n (notifications w) -> n_id n = id ->
            attached id (withTimers (fun _ => rest) (withNow t w)) = true) as Hattached.
  { intros id n Hn Hid. unfold attached. apply existsb_exists. exists n.
    split; [exact Hn|]. apply Nat.eqb_eq, Hid. }
  destruct (callback tm) as [target b s|id|id] eqn:Hcb; cbn [fire].
  - split; [exact Hrest|]. intros n Hn. cbn in Hn |- *.
    destruct (Hcov' n Hn) as [[Hc|Hc]|Hc]; [discriminate|discriminate|exact Hc].
  - destruct (attached id _) eqn:Hatt.
    + split; [cbn; apply enqueue_sorted, Hrest|].
      intros n Hn. cbn in Hn |- *. apply in_map_iff in Hn as (n0 & Hn0 & Hin0).
      assert (n_id n = n_id n0) as ->.
      { subst n. destruct (Nat.eqb (n_id n0) id); reflexivity. }
      destruct (Hcov' n0 Hin0) as [[Hc|Hc]|(tm' & Hin' & Hc)].
      * injection Hc as <-. eexists. split; [apply In_enqueue; left; reflexivity|].
        right. reflexivity.
      * discriminate.
      * exists tm'. split; [apply In_enqueue; right; exact Hin'|exact Hc].
    + split; [exact Hrest|]. intros n Hn. cbn in Hn |- *.
      destruct (Hcov' n Hn) as [[Hc|Hc]|Hc]; [|discriminate|exact Hc].
      injection Hc as Hid. rewrite (Hattached id n Hn (eq_sym Hid)) in Hatt. discriminate.
  - destruct (attached id _) eqn:Hatt.
    + split; [exact Hrest|]. intros n Hn. cbn in Hn |- *.
      apply filter_In in Hn as [Hn Hid]. apply negb_true_iff, Nat.eqb_neq in Hid.
      destruct (Hcov' n Hn) as [[Hc|Hc]|Hc]; [discriminate| |exact Hc].
      injection Hc as Hid'. congruence.
    + split; [exact Hrest|]. intros n Hn. cbn in Hn |- *.
      destruct (Hcov' n Hn) as [[Hc|Hc]|Hc]; [discriminate| |exact Hc].
      injection Hc as Hid. rewrite (Hattached id n Hn (eq_sym Hid)) in Hatt. discriminate.
Qed.

Lemma runUntil_orderly (fuel t : nat) :
  forall w, orderly w -> orderly (runUntil fuel t w).
Proof.
  induction fuel as [|k IH]; intros w Hw; cbn [runUntil].
  - destruct (timers w); exact Hw.
  - destruct (timers w) as [|tm rest] eqn:Hq; [exact Hw|].
    destruct (Nat.leb (due tm) t); [|exact Hw].
    apply IH. apply fire_orderly; assumption.
Qed.

Lemma orderly_around (w w' : World) :
  timers w' = timers w -> notifications w' = notifications w -> orderly w -> orderly w'.
Proof. unfold orderly, covered. intros -> ->. auto. Qed.

Lemma enqueue_orderly (tm : Timer) (w w' : World) :
  timers w' = enqueue tm (timers w) -> notifications w' = notifications w ->
  orderly w -> orderly w'.
Proof.
  unfold orderly, covered. intros -> -> [Hsorted Hcov].
  split; [apply enqueue_sorted, Hsorted|].
  intros n Hn. destruct (Hcov n Hn) as (tm' & Hin & Hcb).
  exists tm'. split; [apply In_enqueue; right; exact Hin|exact Hcb].
Qed.

Lemma ready_orderly (i : nat) (w : World) : orderly w -> orderly (ready i w).
Proof.
  intros Hw. unfold ready, elapse. apply runUntil_orderly.
  eapply orderly_around; [| |exact Hw]; reflexivity.
Qed.

Lemma injectSingleField_orderly (f : DetectedFormField) (content : string)
      (w w' : World) (b : bool) :
  injectSingleField f content w = Ok b w' ->
  (orderly w -> orderly w')
  /\ injectedFields w' = injectedFields w /\ created w' = created w.
Proof.
  intros Hinj.
  destruct (ready_keeps (element f) w) as (Hreg & _ & Hcr).
  destruct (injectSingleField_anatomy f content w)
    as [(w0 & Hrun & _ & Haround & _)
       |[(e0 & w0 & _ & _ & _ & Hrun & _ & Haround)
        |(e0 & writer & b0 & w2 & e2 & _ & _ & Hwriter & Hw2 & _ & w0 & Hrun
          & Hreg0 & _ & Hnote & Hcr0 & Hb)]].
  - assert (w0 = w') as -> by congruence.
    apply around_fields in Haround as (Hr & _ & _ & Ht & Hn & Hc).
    split; [apply orderly_around; assumption|]. split; assumption.
  - assert (w0 = w') as -> by congruence.
    apply around_fields in Haround as (Hr & _ & _ & Ht & Hn & Hc).
    split; [|split; congruence].
    intros Hw. eapply orderly_around; [exact Ht|exact Hn|]. apply ready_orderly, Hw.
  - assert (w0 = w') as -> by congruence.
    destruct (writerFor_wellBehaved _ _ Hwriter (element f) content
                (ready (element f) w)) as (b' & w2' & Hrun' & Haround & _).
    rewrite Hw2 in Hrun'. injection Hrun' as <- <-.
    apply around_fields in Haround as (Hr & _ & _ & Ht & Hn & Hc).
    split; [|split; congruence].
    intros Hw.
    assert (orderly w2) as Hw2o.
    { eapply orderly_around; [exact Ht|exact Hn|]. apply ready_orderly, Hw. }
    destruct b0.
    + destruct Hb as (_ & _ & Htimers).
      eapply enqueue_orderly; [exact Htimers|exact Hnote|exact Hw2o].
    + destruct Hb as (_ & _ & Htimers).
      eapply orderly_around; [exact Htimers|exact Hnote|exact Hw2o].
Qed.

(** The loop over the answers returns; it keeps the timers in order and
    the notifications as they were, and makes no notification. *)
Lemma answersLoop_orderly (formFields : list DetectedFormField)
      (answers : list GeneratedAnswer) :
  forall (successCount totalAttempts : nat) (w : World),
    exists counts w',
      answersLoop answers formFields successCount totalAttempts w = Ok counts w'
      /\ (orderly w -> orderly w') /\ created w' = created w.
Proof.
  induction answers as [|a rest IH]; intros sc ta w; cbn [answersLoop].
  - eexists. eexists. split; [reflexivity|]. auto.
  - destruct (findMatchingField (fieldLabel a) formFields) as [field|]; [|apply IH].
    destruct (injectSingleField_returns field (answer a) w) as (b & w1 & Hinj).
    destruct (injectSingleField_orderly _ _ _ _ _ Hinj) as (Ho & _ & Hc).
    eff_unfold. rewrite Hinj. destruct b.
    + unfold modify.
      destruct (IH (S sc) (S ta) (withInjected (mapSet (element field) (answer a)) w1))
        as (counts & w' & Hrest & Ho' & Hc').
      exists counts, w'. split; [exact Hrest|]. split; [|cbn in Hc'; congruence].
      intros Hw. apply Ho'. eapply orderly_around; [| |exact (Ho Hw)]; reflexivity.
    + destruct (IH sc (S ta) w1) as (counts & w' & Hrest & Ho' & Hc').
      exists counts, w'. split; [exact Hrest|]. split; [auto|congruence].
Qed.

(** Once the page has settled no notification is left on it. *)
Lemma settle_clears (w : World) :
  orderly w -> notifications (settle w) = [] /\ timers (settle w) = [].
Proof.
  intros Hw. pose proof (settle_no_timer w (proj1 Hw)) as Hq.
  split; [|exact Hq].
  destruct (runUntil_orderly (enoughFuel w) (horizon w) w Hw) as [_ Hcov].
  fold (settle w) in Hcov. unfold covered in Hcov. rewrite Hq in Hcov.
  destruct (notifications (settle w)) as [|n ns]; [reflexivity|].
  destruct (Hcov n (or_introl eq_refl)) as (tm & [] & _).
Qed.

End QueueFacts.

(** X4. Every run of [injectAnswers] puts a notification on the page,
    and the timers take it off again: on a page whose timers are queued by
    due time and cover its notifications, as they do on a page at rest, the
    run returns with a new notification, the last on the page, and once
    every timer has fired no notification and no timer is left. *)
Theorem notification_is_removed `{Host}
        (answers : list GeneratedAnswer) (formFields : list DetectedFormField)
        (w : Injector.World) :
  QueueSpec.orderly w ->
  exists (b : bool) (w' : Injector.World),
    Injector.injectAnswers answers formFields w = Eff.Ok b w'
    /\ (exists n earlier, Injector.notifications w' = earlier ++ [n]
                          /\ Injector.n_id n = Injector.created w)
    /\ Injector.notifications (Injector.settle w') = []
    /\ Injector.timers (Injector.settle w') = [].
Proof.
  intros Hw.
  unfold Injector.injectAnswers, Injector.log, Eff.tryCatch. eff_unfold.
  match goal with
  | |- context [Injector.answersLoop answers formFields 0 0 ?w0] =>
      destruct (answersLoop_orderly formFields answers 0 0 w0)
        as ([sc ta] & w1 & Hloop & Ho & Hc);
      assert (QueueSpec.orderly w0) as Hw0
        by (eapply orderly_around; [| |exact Hw]; reflexivity)
  end.
  rewrite Hloop. specialize (Ho Hw0). cbn [Injector.created Injector.withConsole] in Hc.
  unfold Injector.showInjectionFeedback, Eff.tryCatch. eff_unfold.
  eexists. eexists. split; [reflexivity|].
  split.
  - eexists. eexists. cbn. split; [reflexivity|]. cbn. exact Hc.
  - apply settle_clears.
    destruct Ho as [Hsorted Hcov]. split.
    + cbn. apply enqueue_sorted, Hsorted.
    + intros n Hn. cbn in Hn |- *. apply in_app_or in Hn as [Hn|[<-|[]]].
      * destruct (Hcov n Hn) as (tm & Hin & Hcb).
        exists tm. split; [apply In_enqueue; right; exact Hin|exact Hcb].
      * eexists. split; [apply In_enqueue; left; reflexivity|]. left. reflexivity.
Qed.

Section RegistryFacts.
Import Eff Injector FrameSpec BatchSpec.
Context `{Host}.





End RegistryFacts.



(** X20. A second [clearAllInjections] finds the registry empty and does
    nothing: but for one more line on the console, the page is as the
    first call left it. *)
Theorem second_rollback_does_nothing `{Host} (w : Injector.World) :
  exists w1 w2 : Injector.World,
    Injector.clearAllInjections w = Eff.Ok tt w1
    /\ Injector.clearAllInjections w1 = Eff.Ok tt w2
    /\ Injector.document w2 = Injector.document w1
    /\ FrameSpec.around w2 = FrameSpec.around w1.
Proof.
  destruct (clearAllInjections_run w) as (w1 & Hrun & Hreg & _).
  exists w1. eexists. split; [exact Hrun|].
  unfold Injector.clearAllInjections, Injector.log. eff_unfold. rewrite Hreg.
  cbn [Eff.forEach Eff.ret]. split; [reflexivity|]. split; [reflexivity|].
  unfold FrameSpec.around. cbn. rewrite Hreg. reflexivity.
Qed.

Section BatchEdge.
Import Eff Injector.
Context `{Host}.

Lemma answersLoop_unmatched (formFields : list DetectedFormField)
      (answers : list GeneratedAnswer) (successCount totalAttempts : nat) (w : World) :
  Forall (fun a => findMatchingField (fieldLabel a) formFields = None) answers ->
  answersLoop answers formFields successCount totalAttempts w
  = Ok (successCount, totalAttempts) w.
Proof.
  induction 1 as [|a rest Ha _ IH]; cbn [answersLoop]; [reflexivity|].
  rewrite Ha. exact IH.
Qed.

End BatchEdge.

(** X2. A run in which the matcher binds no answer to a field, as with
    no answer or with an empty catalog, writes nothing and answers
    [false], and yet puts up the green notification of full success:
    0 of 0 fields count as all. *)
Theorem unmatched_run_reports_success `{Host}
        (answers : list GeneratedAnswer) (formFields : list DetectedFormField)
        (w : Injector.World) :
  Forall (fun a => Injector.findMatchingField (fieldLabel a) formFields = None) answers ->
  exists w' : Injector.World,
    Injector.injectAnswers answers formFields w = Eff.Ok false w'
    /\ Injector.document w' = Injector.document w
    /\ Injector.events w' = Injector.events w
    /\ Injector.injectedFields w' = Injector.injectedFields w
    /\ Injector.notifications w'
       = Injector.notifications w
         ++ [Injector.mkNotification (Injector.created w) "#10b981"
               "All 0 fields filled successfully!" "slideInRight 0.3s ease-out"].
Proof.
  intros Hnone.
  unfold Injector.injectAnswers, Injector.log, Eff.tryCatch. eff_unfold.
  rewrite (answersLoop_unmatched _ _ _ _ _ Hnone).
  unfold Injector.showInjectionFeedback, Eff.tryCatch. eff_unfold.
  eexists. split; [reflexivity|]. cbn. repeat split.
Qed.


Section CatalogFacts.
Import Eff Detector CatalogSpec.
Context `{Host}.
Variable doc : Dom.Document.

Lemma appends_ret : appends (mret tt) [] [].
Proof. intros [fs c]. cbn. rewrite !app_nil_r. reflexivity. Qed.

Lemma appends_bind (m : M State unit) (k : M State unit)
      (a1 a2 : list DetectedFormField) (l1 l2 : list LogEntry) :
  appends m a1 l1 -> appends k a2 l2 -> appends (m;; k) (a1 ++ a2) (l1 ++ l2).
Proof.
  intros Hm Hk s. eff_unfold. rewrite Hm, Hk. cbn. rewrite !app_assoc. reflexivity.
Qed.

Lemma appends_log (lv : Level) (msg : string) : appends (log lv msg) [] [mkLog lv msg].
Proof. intros s. cbn. rewrite app_nil_r. reflexivity. Qed.

(** Resolving the label throws exactly when the selector is malformed. *)
Lemma findFieldLabel_uniform (i : nat) (e : Dom.Element) :
  if wellFormedId e
  then exists l, forall s, findFieldLabel doc i e s = Ok l s
  else exists err, forall s, findFieldLabel doc i e s = Throw err s.
Proof.
  unfold wellFormedId, findFieldLabel, queryLabelFor. eff_unfold.
  destruct (truthy (Dom.id (Dom.attrs e))); cbn [negb orb]; [|eexists; reflexivity].
  destruct (cssAttrValue (Dom.id (Dom.attrs e))) as [v|].
  - rewrite bool_decide_true by eauto. eexists. reflexivity.
  - rewrite bool_decide_false by (intros [? ?]; discriminate). eexists. reflexivity.
Qed.

Lemma isFieldRequired_uniform (i : nat) (e : Dom.Element) :
  wellFormedId e = true -> exists b, forall s, isFieldRequired doc i e s = Ok b s.
Proof.
  intros Hid. unfold isFieldRequired.
  destruct (Dom.required (Dom.attrs e)); [eexists; reflexivity|].
  destruct (bool_decide _); [eexists; reflexivity|].
  pose proof (findFieldLabel_uniform i e) as Hlabel. rewrite Hid in Hlabel.
  destruct Hlabel as (l & Hl). eff_unfold.
  exists (JS.includes l "*" || JS.includes (JS.toLowerCase l) "required")%bool.
  intros s. rewrite Hl. destruct (_ || _)%bool; reflexivity.
Qed.

Lemma extractFieldInfo_uniform (i : nat) (e : Dom.Element) :
  if wellFormedId e
  then exists f, element f = i /\ type f = getFieldType e
                 /\ forall s, extractFieldInfo doc i e s = Ok (Some f) s
  else forall s, extractFieldInfo doc i e s = Ok None (warned s).
Proof.
  pose proof (findFieldLabel_uniform i e) as Hlabel.
  destruct (wellFormedId e) eqn:Hid.
  - destruct Hlabel as (l & Hl). destruct (isFieldRequired_uniform i e Hid) as (b & Hb).
    eexists. split; [|split]; [| |intros s; unfold extractFieldInfo, readFieldInfo, tryCatch;
                                   eff_unfold; rewrite Hl, Hb; reflexivity]; reflexivity.
  - destruct Hlabel as (err & Herr). intros s.
    unfold extractFieldInfo, readFieldInfo, tryCatch. eff_unfold. rewrite Herr. reflexivity.
Qed.

(** What [processFieldElement] adds, whatever the detector holds: the
    record of the element when the element passes and its id is well
    formed, and nothing otherwise. *)
Lemma processFieldElement_uniform (i : nat) (e : Dom.Element) :
  exists added logged,
    appends (processFieldElement doc (i, e)) added logged
    /\ if (negb (shouldSkipField e) && wellFormedId e)%bool
       then exists f, added = [f] /\ element f = i /\ type f = getFieldType e
       else added = [].
Proof.
  unfold processFieldElement.
  destruct (shouldSkipField e); cbn [negb andb].
  - exists [], []. split; [apply appends_ret|reflexivity].
  - pose proof (extractFieldInfo_uniform i e) as Hinfo.
    destruct (wellFormedId e).
    + destruct Hinfo as (f & Hel & Hty & Hf).
      exists [f]. eexists. split; [|eauto].
      intros s. eff_unfold. rewrite Hf. unfold push, log, modify. cbn. reflexivity.
    + exists []. eexists. split; [|reflexivity].
      intros s. eff_unfold. rewrite Hinfo. unfold warned. cbn.
      rewrite app_nil_r. reflexivity.
Qed.

Lemma recordsAmong_nil : recordsAmong [] [].
Proof. split; [intros f []|intros i e []]. Qed.

Lemma recordsAmong_app (c1 c2 : list (nat * Dom.Element))
      (a1 a2 : list DetectedFormField) :
  recordsAmong c1 a1 -> recordsAmong c2 a2 -> recordsAmong (c1 ++ c2) (a1 ++ a2).
Proof.
  intros [S1 C1] [S2 C2]. split.
  - intros f Hf. apply in_app_or in Hf as [Hf|Hf].
    + destruct (S1 f Hf) as (e & Hin & Hrest). exists e. split; [|exact Hrest].
      apply in_or_app. left. exact Hin.
    + destruct (S2 f Hf) as (e & Hin & Hrest). exists e. split; [|exact Hrest].
      apply in_or_app. right. exact Hin.
  - intros i e Hin Hskip Hid. apply in_app_or in Hin as [Hin|Hin].
    + destruct (C1 i e Hin Hskip Hid) as (f & Hf & Hel). exists f.
      split; [apply in_or_app; left; exact Hf|exact Hel].
    + destruct (C2 i e Hin Hskip Hid) as (f & Hf & Hel). exists f.
      split; [apply in_or_app; right; exact Hf|exact Hel].
Qed.

Lemma recordsAmong_one (i : nat) (e : Dom.Element) (added : list DetectedFormField) :
  (if (negb (shouldSkipField e) && wellFormedId e)%bool
   then exists f, added = [f] /\ element f = i /\ type f = getFieldType e
   else added = []) ->
  recordsAmong [(i, e)] added.
Proof.
  destruct (shouldSkipField e) eqn:Hskip; cbn [negb andb].
  - intros ->. split; [intros f []|]. intros i' e' [Heq|[]]. congruence.
  - destruct (wellFormedId e) eqn:Hid.
    + intros (f & -> & Hel & Hty). split.
      * intros f' [<-|[]]. exists e. rewrite Hel. split; [left; reflexivity|auto].
      * intros i' e' [Heq|[]] _ _. injection Heq as <- <-.
        exists f. split; [left; reflexivity|exact Hel].
    + intros ->. split; [intros f []|]. intros i' e' [Heq|[]]. congruence.
Qed.

(** A loop over candidates, some of them passed over. *)
Lemma forEach_uniform (guard : nat * Dom.Element -> bool)
      (inputs : list (nat * Dom.Element)) :
  exists added logged,
    appends (forEach (fun input => if guard input then processFieldElement doc input
                                   else mret tt) inputs) added logged
    /\ recordsAmong (List.filter guard inputs) added.
Proof.
  induction inputs as [|[i e] rest (a2 & l2 & Hrest & Hrec)].
  - exists [], []. split; [apply appends_ret|apply recordsAmong_nil].
  - cbn [forEach List.filter]. destruct (guard (i, e)).
    + destruct (processFieldElement_uniform i e) as (a1 & l1 & Hone & Hwhat).
      exists (a1 ++ a2), (l1 ++ l2). split.
      * apply (appends_bind (processFieldElement doc (i, e))); assumption.
      * apply (recordsAmong_app [(i, e)]); [apply recordsAmong_one, Hwhat|exact Hrec].
    + exists a2, l2. split; [|exact Hrec].
      apply (appends_bind (mret tt) _ [] a2 [] l2); [apply appends_ret|exact Hrest].
Qed.

Lemma processFormElements_uniform (form : nat * Dom.Element) :
  exists added logged,
    appends (processFormElements doc form) added logged
    /\ recordsAmong (Dom.querySelectorAll doc (Some (fst form)) Dom.isField) added.
Proof.
  destruct (forEach_uniform (fun _ => true)
              (Dom.querySelectorAll doc (Some (fst form)) Dom.isField))
    as (added & logged & Hloop & Hrec).
  rewrite forallb_filter_id in Hrec by (apply forallb_forall; reflexivity).
  exists added. eexists. split; [|exact Hrec].
  unfold processFormElements.
  rewrite <- (app_nil_r added).
  apply (appends_bind _ _ added [] logged); [exact Hloop|apply appends_log].
Qed.

Lemma forms_uniform (forms : list (nat * Dom.Element)) :
  exists added logged,
    appends (forEach (processFormElements doc) forms) added logged
    /\ recordsAmong
         (flat_map (fun form => Dom.querySelectorAll doc (Some (fst form)) Dom.isField)
                   forms) added.
Proof.
  induction forms as [|form rest (a2 & l2 & Hrest & Hrec)].
  - exists [], []. split; [apply appends_ret|apply recordsAmong_nil].
  - destruct (processFormElements_uniform form) as (a1 & l1 & Hone & Hrec1).
    exists (a1 ++ a2), (l1 ++ l2). split.
    + cbn [forEach]. apply (appends_bind (processFormElements doc form)); assumption.
    + cbn [flat_map]. apply recordsAmong_app; assumption.
Qed.

(** The scan, whatever the detector holds: it returns the filtered
    records of the candidates, and stores them. *)
Lemma detectFields_uniform :
  exists collected,
    recordsAmong (candidates doc) collected
    /\ forall s, exists logged,
         detectFields doc s
         = Ok (filterAndDeduplicateFields collected)
              (mkState (filterAndDeduplicateFields collected) logged).
Proof.
  destruct (forms_uniform (Dom.querySelectorAll doc None Dom.isForm))
    as (a1 & l1 & H1 & Hrec1).
  destruct (forEach_uniform
              (fun input => negb (bool_decide
                 (is_Some (Dom.closest doc Dom.isForm (fst input)))))
              (Dom.querySelectorAll doc None Dom.isField))
    as (a2 & l2 & H2 & Hrec2).
  exists (a1 ++ a2). split; [apply recordsAmong_app; assumption|].
  intros s. unfold detectFields. eff_unfold. unfold setDetected, log, modify.
  rewrite H1, H2. cbn [detectedFields console app].
  eexists. reflexivity.
Qed.

End CatalogFacts.

Section CandidateFacts.
Import Eff Detector CatalogSpec.
Context `{Host}.
Variable doc : Dom.Document.

Lemma elementsWhere_intro (p : nat -> Dom.Element -> bool) (i : nat) (e : Dom.Element) :
  Dom.element doc i = Some e -> p i e = true -> In (i, e) (Dom.elementsWhere doc p).
Proof.
  unfold Dom.element, Dom.elementsWhere. intros He Hp.
  destruct (doc !! i) as [[par [d|e0]]|] eqn:Hi; try discriminate.
  injection He as ->.
  apply list_elem_of_In, list_elem_of_omap. exists (i, Dom.mkNode par (Dom.Elem e)).
  split; [|cbn; rewrite Hp; reflexivity].
  apply elem_of_lookup_imap. eauto.
Qed.

Lemma querySelectorAll_iff (scope : option nat) (p : Dom.Element -> bool)
      (i : nat) (e : Dom.Element) :
  In (i, e) (Dom.querySelectorAll doc scope p)
  <-> Dom.element doc i = Some e /\ p e = true
      /\ match scope with
         | Some a => Dom.isDescendant doc a i = true
         | None => True
         end.
Proof.
  unfold Dom.querySelectorAll. split.
  - intros Hin. apply list_elem_of_In, elementsWhere_element in Hin as [He Hp].
    apply andb_true_iff in Hp as [Hp Hscope]. split; [exact He|]. split; [exact Hp|].
    destruct scope; [exact Hscope|exact I].
  - intros (He & Hp & Hscope). apply elementsWhere_intro; [exact He|].
    rewrite Hp. destruct scope; [exact Hscope|reflexivity].
Qed.

(** The nearest form around a node is a form of the document and the
    node lies in it. *)
Lemma closest_form (i a : nat) :
  Dom.closest doc Dom.isForm i = Some a ->
  exists ea, Dom.element doc a = Some ea /\ Dom.isForm ea = true
             /\ Dom.isDescendant doc a i = true.
Proof.
  unfold Dom.closest. intros Hfind. apply find_some in Hfind as [Hin Hform].
  destruct (Dom.element doc a) as [ea|]; [|discriminate].
  exists ea. split; [reflexivity|]. split; [exact Hform|].
  unfold Dom.isDescendant. apply existsb_exists. exists a.
  split; [exact Hin|apply Nat.eqb_refl].
Qed.

(** The two loops go through the fields of the document, and through
    nothing else. *)
Lemma candidates_iff (i : nat) (e : Dom.Element) :
  In (i, e) (candidates doc) <-> Dom.element doc i = Some e /\ Dom.isField e = true.
Proof.
  unfold candidates. rewrite in_app_iff, in_flat_map, filter_In. split.
  - intros [([a ea] & _ & Hin)|[Hin _]];
      apply querySelectorAll_iff in Hin as (He & Hp & _); auto.
  - intros [He Hfield].
    destruct (Dom.closest doc Dom.isForm i) as [a|] eqn:Hclosest.
    + left. destruct (closest_form i a Hclosest) as (ea & Hea & Hform & Hdesc).
      exists (a, ea). split; apply querySelectorAll_iff; auto.
    + right. split; [apply querySelectorAll_iff; auto|].
      cbn [fst]. rewrite Hclosest, bool_decide_false; [reflexivity|].
      intros [? ?]; discriminate.
Qed.

End CandidateFacts.

Section FilterFacts.
Import Detector.

Lemma filterLoop_app (fields : list DetectedFormField) :
  forall (seen : gset nat) (filtered : list DetectedFormField),
    filterLoop fields seen filtered = filtered ++ filterLoop fields seen [].
Proof.
  induction fields as [|field rest IH]; intros seen filtered; cbn [filterLoop].
  - rewrite app_nil_r. reflexivity.
  - destruct (bool_decide _); [apply IH|].
    destruct (JS.inList _ _); [apply IH|].
    rewrite (IH _ (filtered ++ [field])), (IH _ ([] ++ [field])), <- app_assoc.
    reflexivity.
Qed.

(** A record that is no button and whose element was not seen has its
    element in the filtered list. *)
Lemma filterLoop_complete (fields : list DetectedFormField) :
  forall (seen : gset nat) (f : DetectedFormField),
    In f fields -> notAButton f -> element f ∉ seen ->
    exists g, In g (filterLoop fields seen []) /\ element g = element f.
Proof.
  induction fields as [|field rest IH]; intros seen f Hin Hbutton Hseen; [destruct Hin|].
  cbn [filterLoop]. case_bool_decide as Hfield.
  - destruct Hin as [->|Hin]; [contradiction|]. apply IH; assumption.
  - destruct (JS.inList _ _) eqn:Hb.
    + destruct Hin as [->|Hin]; [unfold notAButton in Hbutton; congruence|].
      apply IH; assumption.
    + rewrite filterLoop_app. cbn [app].
      destruct (decide (element field = element f)) as [Heq|Hne].
      * exists field. split; [left; reflexivity|exact Heq].
      * destruct Hin as [->|Hin]; [congruence|].
        destruct (IH ({[element field]} ∪ seen) f Hin Hbutton) as (g & Hg & Hel).
        { rewrite elem_of_union, elem_of_singleton. intros [?|?]; [congruence|contradiction]. }
        exists g. split; [right; exact Hg|exact Hel].
Qed.

(** The loop keeps a list that holds no button and no element twice. *)
Lemma filterLoop_id (fields : list DetectedFormField) :
  forall seen : gset nat,
    NoDup (map element fields) ->
    (forall f, In f fields -> notAButton f /\ element f ∉ seen) ->
    filterLoop fields seen [] = fields.
Proof.
  induction fields as [|field rest IH]; intros seen Hnd Hall; [reflexivity|].
  cbn [filterLoop]. destruct (Hall field (or_introl eq_refl)) as [Hbutton Hseen].
  rewrite bool_decide_false by exact Hseen.
  unfold notAButton in Hbutton. rewrite Hbutton.
  rewrite filterLoop_app. cbn [app]. f_equal.
  cbn [map] in Hnd. apply NoDup_cons in Hnd as [Hnotin Hnd].
  apply IH; [exact Hnd|].
  intros f Hf. destruct (Hall f (or_intror Hf)) as [Hb Hs]. split; [exact Hb|].
  rewrite elem_of_union, elem_of_singleton. intros [Heq|?]; [|contradiction].
  apply Hnotin. rewrite <- Heq. apply list_elem_of_In, in_map, Hf.
Qed.

Lemma filterLoop_sublist (fields : list DetectedFormField) :
  forall seen : gset nat, sublist (filterLoop fields seen []) fields.
Proof.
  induction fields as [|field rest IH]; intros seen; cbn [filterLoop]; [constructor|].
  destruct (bool_decide _); [apply sublist_cons, IH|].
  destruct (JS.inList _ _); [apply sublist_cons, IH|].
  rewrite filterLoop_app. cbn [app]. apply sublist_skip, IH.
Qed.

End FilterFacts.

(** X25. [filterAndDeduplicateFields] keeps the order of the records: what
    it returns is the list it was given with some records left out.  For
    every record that is no button it keeps a record of the same element.
    And it is idempotent. *)
Theorem filterAndDeduplicateFields_idempotent (fields : list DetectedFormField) :
  sublist (Detector.filterAndDeduplicateFields fields) fields
  /\ (forall f, In f fields -> notAButton f ->
        exists g, In g (Detector.filterAndDeduplicateFields fields)
                  /\ element g = element f)
  /\ Detector.filterAndDeduplicateFields (Detector.filterAndDeduplicateFields fields)
     = Detector.filterAndDeduplicateFields fields.
Proof.
  unfold Detector.filterAndDeduplicateFields at 1 2 3.
  split; [apply filterLoop_sublist|]. split.
  - intros f Hin Hbutton. apply filterLoop_complete; [assumption|assumption|].
    apply not_elem_of_empty.
  - destruct (filterAndDeduplicateFields_keeps fields) as [Hnd Hkept].
    unfold Detector.filterAndDeduplicateFields in *.
    apply filterLoop_id; [exact Hnd|].
    intros f Hf. split; [|apply not_elem_of_empty].
    apply list_elem_of_In in Hf. apply (Hkept f Hf).
Qed.

Section ScanResult.
Import Eff Detector CatalogSpec.
Context `{Host}.
Variable doc : Dom.Document.

(** The catalog of the document: the scan returns it from every state of
    the detector; its records are those of the listed elements. *)
Lemma detectFields_catalog :
  exists fields,
    (forall s, exists logged, detectFields doc s = Ok fields (mkState fields logged))
    /\ (forall f, In f fields ->
          exists e, listed doc (element f) e /\ type f = getFieldType e)
    /\ (forall i e, listed doc i e ->
          exists f, In f fields /\ element f = i /\ type f = getFieldType e).
Proof.
  destruct (detectFields_uniform doc) as (collected & [Hsound Hcomplete] & Hrun).
  exists (filterAndDeduplicateFields collected). split; [exact Hrun|].
  destruct (filterAndDeduplicateFields_keeps collected) as [_ Hkept].
  assert (forall f, In f (filterAndDeduplicateFields collected) ->
            exists e, listed doc (element f) e /\ type f = getFieldType e) as Hlisted.
  { intros f Hf. apply list_elem_of_In in Hf. destruct (Hkept f Hf) as [Hin Hbutton].
    apply list_elem_of_In in Hin.
    destruct (Hsound f Hin) as (e & Hcand & Hskip & Hid & Hty).
    apply candidates_iff in Hcand as [He Hfield].
    exists e. split; [|exact Hty].
    unfold notAButton in Hbutton. rewrite Hty in Hbutton.
    repeat split; assumption. }
  split; [exact Hlisted|].
  intros i e (He & Hfield & Hskip & Hid & Hbutton).
  destruct (Hcomplete i e) as (f & Hf & Hel); [apply candidates_iff; auto|assumption..|].
  destruct (Hsound f Hf) as (e' & Hcand' & _ & _ & Hty).
  apply candidates_iff in Hcand' as [He' _].
  assert (e' = e) as -> by congruence.
  destruct (filterLoop_complete collected ∅ f Hf) as (g & Hg & Hgel).
  { unfold notAButton. rewrite Hty. exact Hbutton. }
  { apply not_elem_of_empty. }
  exists g. split; [exact Hg|]. split; [congruence|].
  destruct (Hlisted g Hg) as (eg & (Heg & _) & Htyg). congruence.
Qed.

End ScanResult.





(** The types [injectSingleField] has a case for. *)
Lemma writerFor_None `{Host} (type : string) :
  Injector.writerFor type = None
  <-> JS.inList type ["text"; "email"; "password"; "phone"; "url"; "search"; "textarea";
                      "select-one"; "select-multiple"; "checkbox"; "radio"; "date";
                      "datetime"; "number"] = false.
Proof.
  unfold Injector.writerFor, JS.inList. cbn [existsb].
  repeat match goal with
         | |- context [String.eqb type ?x] =>
             destruct (String.eqb type x); cbn [orb];
             [split; intros Habs; discriminate Habs|]
         end.
  split; reflexivity.
Qed.

(** X23. The types of the catalog and the cases of the writer.  For every
    record of the scan, [injectSingleField] has no case for its type
    exactly when the type is one of range, time, month, week, color and
    file; every other type of the catalog has a writer. *)
Theorem scanned_types_and_writers `{Host} (doc : Dom.Document) (s : Detector.State) :
  exists (fields : list DetectedFormField) (s' : Detector.State),
    Detector.detectFields doc s = Eff.Ok fields s'
    /\ Forall (fun f =>
         Injector.writerFor (type f) = None
         <-> JS.inList (type f) ["range"; "time"; "month"; "week"; "color"; "file"] = true)
       fields.
Proof.
  destruct (detectFields_catalog doc) as (fields & Hrun & Hsound & _).
  destruct (Hrun s) as (logged & Hs).
  exists fields. eexists. split; [exact Hs|].
  apply Forall_forall. intros f Hf. apply list_elem_of_In in Hf.
  destruct (Hsound f Hf) as (e & (_ & Hfield & Hskip & _ & Hbutton) & ->).
  apply shouldSkipField_false in Hskip as (Hhidden & _).
  clear Hrun Hs Hsound Hf. rewrite writerFor_None.
  unfold Detector.getFieldType, Dom.tagName, Dom.type, Dom.isField in *.
  destruct (Dom.kind (Dom.attrs e)) as [t| | | | |tag]; try discriminate Hfield.
  - destruct t;
      first [discriminate Hhidden|discriminate Hbutton
            |vm_compute; split; intros Habs; first [reflexivity|discriminate Habs]].
  - vm_compute; split; intros Habs; first [reflexivity|discriminate Habs].
  - destruct (Dom.multiple (Dom.attrs e)); vm_compute; split; intros Habs;
      first [reflexivity|discriminate Habs].
Qed.

(** X24. What the scan lists the writer can reach, read-only elements
    apart: every record of the scan describes an element that is
    interactable for [injectSingleField] exactly when it is not read-only;
    and a read-only [input] or [textarea] on the list is an [input] of type
    text. *)
Theorem scanned_fields_are_interactable `{Host} (doc : Dom.Document) (s : Detector.State) :
  exists (fields : list DetectedFormField) (s' : Detector.State),
    Detector.detectFields doc s = Eff.Ok fields s'
    /\ Forall (fun f =>
         exists e, Dom.element doc (element f) = Some e
           /\ interactable e = negb (Dom.readOnly (Dom.attrs e))
           /\ (Dom.readOnly (Dom.attrs e) = true -> Dom.isTextControl e = true ->
               Dom.type e = "text"))
       fields.
Proof.
  destruct (detectFields_catalog doc) as (fields & Hrun & Hsound & _).
  destruct (Hrun s) as (logged & Hs).
  exists fields. eexists. split; [exact Hs|].
  apply Forall_forall. intros f Hf. apply list_elem_of_In in Hf.
  destruct (Hsound f Hf) as (e & (He & _ & Hskip & _) & _).
  exists e. split; [exact He|].
  unfold Detector.shouldSkipField in Hskip. unfold interactable.
  destruct (String.eqb (Dom.type e) "hidden"); [discriminate|].
  destruct (Dom.disabled (Dom.attrs e)); [discriminate|].
  destruct (Dom.isTextControl e && Dom.readOnly (Dom.attrs e)
            && negb (String.eqb (Dom.type e) "text"))%bool eqn:Hro; [discriminate|].
  destruct (existsb _ Detector.skipNames); [discriminate|].
  destruct (String.eqb (Dom.display (Dom.attrs e)) "none"); [discriminate|].
  destruct (String.eqb (Dom.visibility (Dom.attrs e)) "hidden"); [discriminate|].
  split; [reflexivity|].
  intros Hread Htext. rewrite Hread, Htext in Hro. cbn in Hro.
  apply negb_false_iff, String.eqb_eq in Hro. exact Hro.
Qed.

Section NearbyFacts.
Import Detector.
Variable doc : Dom.Document.

Lemma truthy_length (s : string) : truthy s = true -> 0 < String.length s.
Proof. destruct s; [discriminate|]. cbn. lia. Qed.

Lemma nearbySibling_bounds (attempts : nat) :
  forall sibling text,
    nearbySibling doc attempts sibling = Some text ->
    0 < String.length text < 100 /\ JS.trim text = text.
Proof.
  induction attempts as [|k IH]; intros sibling text; cbn [nearbySibling];
    [discriminate|].
  destruct sibling as [j|]; [|discriminate].
  destruct (_ && _ && _)%bool eqn:Hok; [|apply IH].
  intros Hsome. injection Hsome as <-.
  apply andb_true_iff in Hok as [Hok Hlt]. apply andb_true_iff in Hok as [_ Hpos].
  apply Nat.ltb_lt in Hlt, Hpos. split; [lia|apply trim_twice].
Qed.

End NearbyFacts.

(** X28. The text [findNearbyText] hands out as a label is trimmed, not
    empty and shorter than 100 characters. *)
Theorem findNearbyText_bounds (doc : Dom.Document) (i : nat) (text : string) :
  Detector.findNearbyText doc i = Some text ->
  0 < String.length text < 100 /\ JS.trim text = text.
Proof.
  unfold Detector.findNearbyText.
  destruct (Detector.nearbySibling doc 3 _) as [t|] eqn:Hsibling.
  - intros Hsome. injection Hsome as <-. eapply nearbySibling_bounds, Hsibling.
  - destruct (Dom.parentElement doc i) as [parent|]; [|discriminate].
    destruct (_ && _)%bool eqn:Hok; [|discriminate].
    destruct (Nat.leb _ 10); [|discriminate].
    intros Hsome. injection Hsome as <-.
    apply andb_true_iff in Hok as [Htruthy Hlt]. apply Nat.ltb_lt in Hlt.
    apply truthy_length in Htruthy. split; [lia|apply trim_twice].
Qed.

Section SelectFacts.
Import Injector.

Lemma findIndex_Some {A} (p : A -> bool) (l : list A) :
  forall k, findIndex p l = Some k ->
            exists x, l !! k = Some x /\ p x = true
                      /\ forall j y, j < k -> l !! j = Some y -> p y = false.
Proof.
  induction l as [|x r IH]; intros k; cbn [findIndex]; [discriminate|].
  destruct (p x) eqn:Hx.
  - intros Hk. injection Hk as <-. exists x. split; [reflexivity|]. split; [exact Hx|].
    intros j y Hj. lia.
  - destruct (findIndex p r) as [k'|]; [|discriminate].
    intros Hk. injection Hk as <-. destruct (IH k' eq_refl) as (x' & Hk' & Hp & Hbefore).
    exists x'. split; [exact Hk'|]. split; [exact Hp|].
    intros [|j] y Hj Hy.
    + injection Hy as <-. exact Hx.
    + apply (Hbefore j y); [lia|exact Hy].
Qed.

Lemma findIndex_None {A} (p : A -> bool) (l : list A) :
  findIndex p l = None -> Forall (fun x => p x = false) l.
Proof.
  induction l as [|x r IH]; cbn [findIndex]; [constructor|].
  destruct (p x) eqn:Hx; [discriminate|].
  destruct (findIndex p r); [discriminate|]. constructor; auto.
Qed.

End SelectFacts.

(** X14. [injectSelect] selects the first option that matches.  On a
    [select], with the content in lower case and trimmed: when no option
    matches, the writer answers [false] and leaves the document alone; when
    one does, it answers [true], the first such option is selected, the
    options before it do not match, and the other options are cleared in a
    [select] that is not [multiple] and are as before in one that is.  A
    blank content matches the first option, whatever that is. *)
Theorem injectSelect_selects_the_first_match
        (select : nat) (content : string) (w : Injector.World) (e : Dom.Element) :
  Dom.element (Injector.document w) select = Some e ->
  Dom.isSelect e = true ->
  let wanted := JS.trim (JS.toLowerCase content) in
  match Injector.findIndex (Injector.optionMatches wanted) (Dom.options e) with
  | Some k =>
      exists w' e' o,
        Injector.injectSelect select content w = Eff.Ok true w'
        /\ Dom.element (Injector.document w') select = Some e'
        /\ Dom.options e !! k = Some o
        /\ Injector.optionMatches wanted o = true
        /\ Dom.options e' !! k = Some (Dom.selectOption true o)
        /\ (forall j o', j < k -> Dom.options e !! j = Some o' ->
              Injector.optionMatches wanted o' = false)
        /\ (forall j o', j <> k -> Dom.options e !! j = Some o' ->
              Dom.options e' !! j
              = Some (if Dom.multiple (Dom.attrs e) then o'
                      else Dom.selectOption false o'))
  | None =>
      exists w', Injector.injectSelect select content w = Eff.Ok false w'
                 /\ Injector.document w' = Injector.document w
  end
  /\ (wanted = "" -> forall o os, Dom.options e = o :: os ->
      Injector.findIndex (Injector.optionMatches wanted) (Dom.options e) = Some 0).
Proof.
  intros He Hsel wanted. split.
  - unfold Injector.injectSelect, Injector.getElement, Injector.updateElement,
      Eff.tryCatch. eff_unfold. rewrite He, Hsel. fold wanted.
    destruct (Injector.findIndex _ _) as [k|] eqn:Hfind.
    + destruct (findIndex_Some _ _ _ Hfind) as (o & Hk & Hmatch & Hbefore).
      eexists. eexists. exists o. split; [reflexivity|].
      cbn [Injector.document Injector.withDocument].
      split; [apply element_update_same, He|].
      split; [exact Hk|]. split; [exact Hmatch|].
      unfold Dom.options in *. cbn [Dom.live Dom.setLive Dom.l_options Dom.withOptions].
      unfold Dom.selectIndex. split; [|split; [exact Hbefore|]].
      * rewrite list_lookup_imap, Hk. cbn. rewrite Nat.eqb_refl. reflexivity.
      * intros j o' Hne Hj. rewrite list_lookup_imap, Hj. cbn.
        rewrite (proj2 (Nat.eqb_neq j k) Hne). reflexivity.
    + eexists. split; reflexivity.
  - intros Hblank o os Hos. rewrite Hos, Hblank. cbn [Injector.findIndex].
    unfold Injector.optionMatches. rewrite includes_empty. reflexivity.
Qed.


Section NumberEdge.
Import JS.

Lemma matchNumber_skip (pre s : string) :
  allChars (fun c => negb (isDigit c)) pre = true ->
  matchNumber (pre +:+ s) = matchNumber s.
Proof.
  induction pre as [|c r IH]; [reflexivity|].
  cbn [allChars]. intros Hall. apply andb_true_iff in Hall as [Hc Hr].
  apply negb_true_iff in Hc.
  change (String c r +:+ s) with (String c (r +:+ s)).
  cbn [matchNumber]. rewrite Hc. apply IH, Hr.
Qed.

End NumberEdge.

(** X18. The number writer reads nothing before the first digit: a text
    with no digit in it, put before the content, changes nothing in what
    [injectSingleField] does on a number field.  A minus sign is such a
    text: the answer -5 is written as the answer 5 is. *)
Theorem number_injection_ignores_the_sign `{Host}
        (f : DetectedFormField) (before content : string) (w : Injector.World) :
  type f = "number" ->
  JS.allChars (fun c => negb (JS.isDigit c)) before = true ->
  Injector.injectSingleField f (before +:+ content) w
  = Injector.injectSingleField f content w
  /\ Injector.injectSingleField f ("-" +:+ content) w
     = Injector.injectSingleField f content w.
Proof.
  intros Htype Hbefore.
  assert (forall pre, JS.allChars (fun c => negb (JS.isDigit c)) pre = true ->
            Injector.injectSingleField f (pre +:+ content) w
            = Injector.injectSingleField f content w) as Hskip.
  { intros pre Hpre. unfold Injector.injectSingleField. rewrite Htype.
    cbn [Injector.writerFor JS.inList existsb String.eqb Ascii.eqb Bool.eqb orb].
    unfold Injector.injectNumber. rewrite (matchNumber_skip pre content Hpre).
    reflexivity. }
  split; [apply Hskip, Hbefore|apply Hskip; reflexivity].
Qed.

Section DateWords.
Import JS.

Lemma removeWords_leading (word rest : string) :
  In word ["on"; "at"; "in"; "the"; "of"; "by"] ->
  removeWords ["on"; "at"; "in"; "the"; "of"; "by"] (word +:+ " " +:+ rest)
  = " " +:+ removeWords ["on"; "at"; "in"; "the"; "of"; "by"] rest.
Proof.
  intros Hword. cbn in Hword.
  destruct Hword as [<-|[<-|[<-|[<-|[<-|[<-|[]]]]]]]; reflexivity.
Qed.

End DateWords.

(** X17. A connective at the head of a date is not read: for each of the
    words on, at, in, the, of and by, [parseDate] gives for the word, a
    space and a text what it gives for the text alone. *)
Theorem parseDate_skips_a_leading_connective `{Host} (word rest : string) :
  In word ["on"; "at"; "in"; "the"; "of"; "by"] ->
  Injector.parseDate (word +:+ " " +:+ rest) = Injector.parseDate rest.
Proof.
  intros Hword. unfold Injector.parseDate.
  rewrite (removeWords_leading word rest Hword). reflexivity.
Qed.

Section ClockBounds.
Import Eff Injector FrameSpec BatchSpec.
Context `{Host}.

Lemma ready_clock (i : nat) (w : World) : now (ready i w) = now w + 100.
Proof.
  unfold ready, elapse.
  match goal with |- context [runUntil ?k ?t ?w1] =>
    destruct (runUntil_keeps k t w1) as (_ & _ & _ & ->) end.
  cbn. lia.
Qed.

(** An injection takes 100 ms when the element is interactable and no
    time when it is not. *)
Lemma injectSingleField_clock (f : DetectedFormField) (content : string)
      (w w' : World) (b : bool) :
  injectSingleField f content w = Ok b w' ->
  (now w' = now w \/ now w' = now w + 100) /\ (b = true -> now w' = now w + 100).
Proof.
  intros Hinj.
  destruct (injectSingleField_anatomy f content w)
    as [(w0 & Hrun & _ & Haround & _)
       |[(e0 & w0 & _ & _ & _ & Hrun & _ & Haround)
        |(e0 & writer & b0 & w2 & e2 & _ & _ & Hwriter & Hw2 & _ & w0 & Hrun
          & _ & Hnow & _)]].
  - assert (b = false /\ w0 = w') as [-> ->] by (split; congruence).
    apply around_fields in Haround as (_ & _ & -> & _). split; [auto|discriminate].
  - assert (b = false /\ w0 = w') as [-> ->] by (split; congruence).
    apply around_fields in Haround as (_ & _ & -> & _).
    rewrite ready_clock. split; [auto|discriminate].
  - assert (w0 = w') as -> by congruence.
    destruct (writerFor_wellBehaved _ _ Hwriter (element f) content
                (ready (element f) w)) as (b' & w2' & Hrun' & Haround & _).
    rewrite Hw2 in Hrun'. injection Hrun' as <- <-.
    apply around_fields in Haround as (_ & _ & Hnow2 & _).
    rewrite Hnow, Hnow2, ready_clock. auto.
Qed.

Lemma answersLoop_clock (formFields : list DetectedFormField)
      (answers : list GeneratedAnswer) :
  forall (successCount totalAttempts : nat) (w : World),
    exists counts w',
      answersLoop answers formFields successCount totalAttempts w = Ok counts w'
      /\ now w + 100 * length (List.filter isWritten (attempts answers formFields w))
         <= now w'
      /\ now w'
         <= now w + 100 * length (List.filter isAttempt (attempts answers formFields w)).
Proof.
  induction answers as [|a rest IH]; intros sc ta w; cbn [answersLoop attempts].
  - eexists. eexists. split; [reflexivity|]. cbn. lia.
  - destruct (findMatchingField (fieldLabel a) formFields) as [field|].
    + destruct (injectSingleField_returns field (answer a) w) as (b & w1 & Hinj).
      destruct (injectSingleField_clock _ _ _ _ _ Hinj) as (Hclock & Htrue).
      eff_unfold. rewrite Hinj. destruct b.
      * unfold modify.
        destruct (IH (S sc) (S ta) (withInjected (mapSet (element field) (answer a)) w1))
          as (counts & w' & Hrest & Hlo & Hhi).
        exists counts, w'. split; [exact Hrest|].
        cbn [List.filter isWritten isAttempt length now withInjected] in *.
        specialize (Htrue eq_refl). lia.
      * destruct (IH sc (S ta) w1) as (counts & w' & Hrest & Hlo & Hhi).
        exists counts, w'. split; [exact Hrest|].
        cbn [List.filter isWritten isAttempt length] in *. lia.
    + destruct (IH sc ta w) as (counts & w' & Hrest & Hlo & Hhi).
      exists counts, w'. split; [exact Hrest|]. cbn [List.filter isWritten isAttempt]. lia.
Qed.

End ClockBounds.

(** X3. How long a run takes.  [injectAnswers] waits 100 ms for every
    field it focuses and for nothing else: the clock advances by at least
    100 ms for each write that succeeded and by at most 100 ms for each
    answer the matcher bound to a field. *)
Theorem run_takes_100_ms_per_field `{Host}
        (answers : list GeneratedAnswer) (formFields : list DetectedFormField)
        (w : Injector.World) :
  let outcomes := BatchSpec.attempts answers formFields (BatchSpec.started w) in
  exists (b : bool) (w' : Injector.World),
    Injector.injectAnswers answers formFields w = Eff.Ok b w'
    /\ Injector.now w + 100 * length (List.filter BatchSpec.isWritten outcomes)
       <= Injector.now w'
    /\ Injector.now w'
       <= Injector.now w + 100 * length (List.filter BatchSpec.isAttempt outcomes).
Proof.
  cbv zeta.
  unfold Injector.injectAnswers, Injector.log, Eff.tryCatch. eff_unfold.
  fold (BatchSpec.started w).
  destruct (answersLoop_clock formFields answers 0 0 (BatchSpec.started w))
    as ([sc ta] & w1 & Hloop & Hlo & Hhi).
  rewrite Hloop.
  unfold Injector.showInjectionFeedback, Eff.tryCatch. eff_unfold.
  eexists. eexists. split; [reflexivity|]. cbn in *. lia.
Qed.

Section NameFacts.
Import JS Shape.

Lemma toLowerChar_noDash (c : ascii) : noDash c = true -> noDash (toLowerChar c) = true.
Proof.
  destruct c as [[] [] [] [] [] [] [] []]; vm_compute; intros Hc;
    first [reflexivity|discriminate].
Qed.

Lemma toUpperChar_noDash (c : ascii) : noDash c = true -> noDash (toUpperChar c) = true.
Proof.
  destruct c as [[] [] [] [] [] [] [] []]; vm_compute; intros Hc;
    first [reflexivity|discriminate].
Qed.

Lemma toLowerChar_not_upper (c : ascii) : isUpper (toLowerChar c) = false.
Proof. destruct c as [[] [] [] [] [] [] [] []]; vm_compute; reflexivity. Qed.

Lemma dashesToSpaces_noDash (s : string) : allChars noDash (dashesToSpaces s) = true.
Proof.
  unfold dashesToSpaces. induction s as [|c r IH]; [reflexivity|].
  cbn [mapChars allChars]. rewrite IH, andb_true_r. unfold noDash.
  destruct (Ascii.eqb c "_") eqn:Hu; destruct (Ascii.eqb c "-") eqn:Hh; cbn [orb];
    rewrite ?Hu, ?Hh; reflexivity.
Qed.

Lemma splitCamel_noDash (s : string) :
  allChars noDash s = true -> allChars noDash (splitCamel s) = true.
Proof.
  induction s as [|c r IH]; [reflexivity|].
  cbn [allChars]. intros Hall. apply andb_true_iff in Hall as [Hc Hr].
  cbn [splitCamel]. destruct r as [|d r'].
  - cbn. rewrite Hc. reflexivity.
  - destruct (isLower c && isUpper d)%bool; cbn [allChars]; rewrite Hc, (IH Hr);
      reflexivity.
Qed.

Lemma toLowerCase_shape (s : string) :
  allChars noDash s = true ->
  allChars noDash (toLowerCase s) = true
  /\ allChars (fun c => negb (isUpper c)) (toLowerCase s) = true.
Proof.
  induction s as [|c r IH]; [split; reflexivity|].
  cbn [allChars toLowerCase]. intros Hall. apply andb_true_iff in Hall as [Hc Hr].
  destruct (IH Hr) as [IH1 IH2].
  rewrite (toLowerChar_noDash c Hc), toLowerChar_not_upper, IH1, IH2. split; reflexivity.
Qed.

End NameFacts.

(** X27. The label [formatNameAsLabel] makes of a name holds no underscore
    and no hyphen; and when the name is written in ASCII, the label holds
    no capital letter after its first character. *)
Theorem formatNameAsLabel_shape (name : string) :
  let made := Detector.formatNameAsLabel name in
  JS.allChars (fun c => negb (Ascii.eqb c "_" || Ascii.eqb c "-")) made = true
  /\ (JS.allChars (JS.between 0 127) name = true ->
      JS.allChars (fun c => negb (JS.isUpper c)) (JS.dropChars 1 made) = true).
Proof.
  cbv zeta. unfold Detector.formatNameAsLabel.
  destruct (toLowerCase_shape (JS.splitCamel (JS.dashesToSpaces name)))
    as [Hdash Hupper].
  { apply splitCamel_noDash, dashesToSpaces_noDash. }
  destruct (JS.toLowerCase _) as [|c r]; [split; reflexivity|].
  cbn [JS.allChars] in Hdash, Hupper.
  apply andb_true_iff in Hdash as [Hc Hr]. apply andb_true_iff in Hupper as [_ Hu].
  unfold JS.capitalizeFirst. destruct (JS.isLineTerminator c).
  - cbn [JS.allChars JS.dropChars]. fold (Shape.noDash c). rewrite Hc.
    split; [exact Hr|intros _; exact Hu].
  - cbn [JS.allChars JS.dropChars]. fold (Shape.noDash (JS.toUpperChar c)).
    rewrite (toUpperChar_noDash c Hc). split; [exact Hr|intros _; exact Hu].
Qed.


(** ** These theorems at work *)

(** A disabled input is left alone. *)
Lemma refused_injection_touches_nothing_witness :
  exists w',
    @Injector.injectSingleField (Example.hostIn 0) Pages.textField "Jo" Pages.lockedPage
    = Eff.Ok false w'
    /\ Injector.document w' = Injector.document Pages.lockedPage
    /\ FrameSpec.around w' = FrameSpec.around Pages.lockedPage.
Proof.
  exact (@refused_injection_touches_nothing (Example.hostIn 0) Pages.textField "Jo"
           Pages.lockedPage Pages.locked eq_refl eq_refl).
Defined.

(** What a text input hears of a write. *)
Lemma injection_dispatches_events_witness :
  exists b w',
    @Injector.injectSingleField (Example.hostIn 0) Pages.textField "Jo" Pages.textPage
    = Eff.Ok b w'
    /\ Injector.events w'
       = Injector.events Pages.textPage
         ++ (if interactable Pages.shortText
             then Injector.Focus 1 :: (if b then FrameSpec.changeEvents 1 else [])
             else []).
Proof.
  exact (@injection_dispatches_events (Example.hostIn 0) Pages.textField "Jo"
           Pages.textPage Pages.shortText eq_refl).
Defined.

(** The number input that refuses [150 items] is as it was. *)
Lemma failed_injection_writes_nothing_witness :
  let w' := Example.finalState
              (@Injector.injectSingleField (Example.hostIn 0) Pages.numberField
                 "150 items" Pages.numberPage) in
  styleOnly (Injector.document Pages.numberPage) (Injector.document w')
  /\ Injector.injectedFields w' = Injector.injectedFields Pages.numberPage
  /\ Injector.document w' = Injector.document Pages.numberPage
  /\ Injector.timers w' = [].
Proof.
  destruct (@failed_injection_writes_nothing (Example.hostIn 0) Pages.numberField
              "150 items" Pages.numberPage _ eq_refl) as (Hstyle & Hreg & Hquiet).
  destruct (Hquiet eq_refl) as [Hdoc Htimers].
  exact (conj Hstyle (conj Hreg (conj Hdoc Htimers))).
Defined.


(** The notification of a run on a page at rest goes away. *)
Lemma notification_is_removed_witness :
  exists b w',
    @Injector.injectAnswers (Example.hostIn 0) Pages.nameAnswers Pages.nameCatalog
      Pages.namePage = Eff.Ok b w'
    /\ (exists n earlier, Injector.notifications w' = earlier ++ [n]
                          /\ Injector.n_id n = Injector.created Pages.namePage)
    /\ Injector.notifications (Injector.settle w') = []
    /\ Injector.timers (Injector.settle w') = [].
Proof.
  apply (@notification_is_removed (Example.hostIn 0) Pages.nameAnswers Pages.nameCatalog
           Pages.namePage).
  split; [exact I|]. intros n [].
Defined.

(** With an empty catalog nothing is written and the notice is green. *)
Lemma unmatched_run_reports_success_witness :
  exists w',
    @Injector.injectAnswers (Example.hostIn 0) Pages.nameAnswers [] Pages.namePage
    = Eff.Ok false w'
    /\ Injector.document w' = Injector.document Pages.namePage
    /\ Injector.events w' = Injector.events Pages.namePage
    /\ Injector.injectedFields w' = Injector.injectedFields Pages.namePage
    /\ Injector.notifications w'
       = Injector.notifications Pages.namePage
         ++ [Injector.mkNotification (Injector.created Pages.namePage) "#10b981"
               "All 0 fields filled successfully!" "slideInRight 0.3s ease-out"].
Proof.
  apply (@unmatched_run_reports_success (Example.hostIn 0) Pages.nameAnswers []
           Pages.namePage).
  repeat constructor.
Defined.


(** The text before an unlabelled input, as its label. *)
Lemma findNearbyText_bounds_witness :
  Detector.findNearbyText Pages.ageDoc 3 = Some "Your age"
  /\ 0 < String.length "Your age" < 100 /\ JS.trim "Your age" = "Your age".
Proof.
  split; [reflexivity|].
  exact (findNearbyText_bounds Pages.ageDoc 3 "Your age" eq_refl).
Defined.

(** The answer Germany selects the third option and clears the first. *)
Lemma injectSelect_selects_the_first_match_witness :
  exists w' e' o,
    Injector.injectSelect 1 " Germany" Pages.countryPage
    = Eff.Ok true w'
    /\ Dom.element (Injector.document w') 1 = Some e'
    /\ Dom.options Pages.countries !! 2 = Some o
    /\ Injector.optionMatches "germany" o = true
    /\ Dom.options e' !! 2 = Some (Dom.selectOption true o)
    /\ (forall j o', j < 2 -> Dom.options Pages.countries !! j = Some o' ->
          Injector.optionMatches "germany" o' = false)
    /\ (forall j o', j <> 2 -> Dom.options Pages.countries !! j = Some o' ->
          Dom.options e' !! j = Some (Dom.selectOption false o')).
Proof.
  exact (proj1 (injectSelect_selects_the_first_match 1 " Germany"
                  Pages.countryPage Pages.countries eq_refl eq_refl)).
Defined.

(** The answer -5 is written as the answer 5 is. *)
Lemma number_injection_ignores_the_sign_witness :
  @Injector.injectSingleField (Example.hostIn 0) Pages.numberField ("-" +:+ "5")
    Pages.numberPage
  = @Injector.injectSingleField (Example.hostIn 0) Pages.numberField "5" Pages.numberPage.
Proof.
  exact (proj1 (@number_injection_ignores_the_sign (Example.hostIn 0) Pages.numberField
                  "-" "5" Pages.numberPage eq_refl eq_refl)).
Defined.

(** [on 5 March 2024] is parsed as [5 March 2024] is. *)
Lemma parseDate_skips_a_leading_connective_witness :
  @Injector.parseDate (Example.hostIn 0) ("on" +:+ " " +:+ "5 March 2024")
  = @Injector.parseDate (Example.hostIn 0) "5 March 2024".
Proof.
  apply (@parseDate_skips_a_leading_connective (Example.hostIn 0) "on" "5 March 2024").
  left. reflexivity.
Defined.


